(** * Structure extraction engine (main.py): a shallow embedding

    The Python module turns a list of parser elements into annotated blocks
    ([extract_structure]), widens the noise flags of repeated boilerplate
    ([_mark_boilerplate_noise]) and merges headings with their content into
    retrieval chunks ([get_embedding_chunks]).

    Python strings are sequences of Unicode code points, so [len], slicing
    and the character tests work on code points and not on bytes: a string
    is modelled as a list of code points. *)

From Stdlib Require Import ZArith NArith List Bool Lia Ascii String.
From Stdlib Require Import Floats.SpecFloat.
From stdpp Require Import base option list gmap pretty.

Local Open Scope N_scope.

(** ** Text: code points and the [str] methods the module calls *)

Module Text.

Definition ustr := list N.

(** Source literals are written as UTF-8 text and decoded to code points. *)
Fixpoint utf8_decode (bs : list N) : ustr :=
  match bs with
  | [] => []
  | b0 :: r0 =>
    if b0 <? 0x80 then b0 :: utf8_decode r0
    else match r0 with
    | [] => [b0]
    | b1 :: r1 =>
      if b0 <? 0xE0 then ((b0 - 0xC0) * 64 + (b1 - 0x80)) :: utf8_decode r1
      else match r1 with
      | [] => [b0; b1]
      | b2 :: r2 =>
        if b0 <? 0xF0
        then ((b0 - 0xE0) * 4096 + (b1 - 0x80) * 64 + (b2 - 0x80)) :: utf8_decode r2
        else match r2 with
        | [] => [b0; b1; b2]
        | b3 :: r3 =>
          ((b0 - 0xF0) * 262144 + (b1 - 0x80) * 4096 + (b2 - 0x80) * 64 + (b3 - 0x80))
            :: utf8_decode r3
        end
      end
    end
  end.

Definition u (s : string) : ustr :=
  utf8_decode (map N_of_ascii (list_ascii_of_string s)).

Definition ustr_eqb (a b : ustr) : bool := bool_decide (a = b).

Definition in_range (lo hi c : N) : bool := (lo <=? c) && (c <=? hi).

(** [str.isspace] of one character, which is also what [str.strip()],
    [str.split()] and the pattern [\s] use: the complete list. *)
Definition is_space (c : N) : bool :=
  in_range 0x09 0x0D c || in_range 0x1C 0x20 c || (c =? 0x85) || (c =? 0xA0)
  || (c =? 0x1680) || in_range 0x2000 0x200A c || (c =? 0x2028) || (c =? 0x2029)
  || (c =? 0x202F) || (c =? 0x205F) || (c =? 0x3000).

Definition in_ranges (table : list (N * N)) (c : N) : bool :=
  existsb (fun r => in_range r.1 r.2 c) table.

(** The character tables are those of Unicode 14.0, as ranges of code points.
    Decimal digits (category Nd): what the pattern [\d] matches. *)
Definition decimal_ranges : list (N * N) :=
  [
   (0x30, 0x39); (0x660, 0x669); (0x6F0, 0x6F9); (0x7C0, 0x7C9); (0x966, 0x96F); (0x9E6, 0x9EF);
   (0xA66, 0xA6F); (0xAE6, 0xAEF); (0xB66, 0xB6F); (0xBE6, 0xBEF); (0xC66, 0xC6F); (0xCE6, 0xCEF);
   (0xD66, 0xD6F); (0xDE6, 0xDEF); (0xE50, 0xE59); (0xED0, 0xED9); (0xF20, 0xF29); (0x1040, 0x1049);
   (0x1090, 0x1099); (0x17E0, 0x17E9); (0x1810, 0x1819); (0x1946, 0x194F); (0x19D0, 0x19D9); (0x1A80, 0x1A89);
   (0x1A90, 0x1A99); (0x1B50, 0x1B59); (0x1BB0, 0x1BB9); (0x1C40, 0x1C49); (0x1C50, 0x1C59); (0xA620, 0xA629);
   (0xA8D0, 0xA8D9); (0xA900, 0xA909); (0xA9D0, 0xA9D9); (0xA9F0, 0xA9F9); (0xAA50, 0xAA59); (0xABF0, 0xABF9);
   (0xFF10, 0xFF19); (0x104A0, 0x104A9); (0x10D30, 0x10D39); (0x11066, 0x1106F); (0x110F0, 0x110F9); (0x11136, 0x1113F);
   (0x111D0, 0x111D9); (0x112F0, 0x112F9); (0x11450, 0x11459); (0x114D0, 0x114D9); (0x11650, 0x11659); (0x116C0, 0x116C9);
   (0x11730, 0x11739); (0x118E0, 0x118E9); (0x11950, 0x11959); (0x11C50, 0x11C59); (0x11D50, 0x11D59); (0x11DA0, 0x11DA9);
   (0x16A60, 0x16A69); (0x16AC0, 0x16AC9); (0x16B50, 0x16B59); (0x1D7CE, 0x1D7FF); (0x1E140, 0x1E149); (0x1E2F0, 0x1E2F9);
   (0x1E950, 0x1E959); (0x1FBF0, 0x1FBF9)].

Definition is_decimal (c : N) : bool := in_ranges decimal_ranges c.

(** The other characters of numeric type Digit: superscripts, subscripts,
    circled and dingbat digits. *)
Definition other_digit_ranges : list (N * N) :=
  [
   (0xB2, 0xB3); (0xB9, 0xB9); (0x1369, 0x1371); (0x19DA, 0x19DA); (0x2070, 0x2070); (0x2074, 0x2079);
   (0x2080, 0x2089); (0x2460, 0x2468); (0x2474, 0x247C); (0x2488, 0x2490); (0x24EA, 0x24EA); (0x24F5, 0x24FD);
   (0x24FF, 0x24FF); (0x2776, 0x277E); (0x2780, 0x2788); (0x278A, 0x2792); (0x10A40, 0x10A43); (0x10E60, 0x10E68);
   (0x11052, 0x1105A); (0x1F100, 0x1F10A)].

(** [str.isdigit] of one character *)
Definition is_digit_char (c : N) : bool :=
  is_decimal c || in_ranges other_digit_ranges c.

(** Word characters, [str.isalnum] or an underscore: what the pattern [\w]
    matches and [\b] tells apart. *)
Definition word_ranges : list (N * N) :=
  [
   (0x30, 0x39); (0x41, 0x5A); (0x5F, 0x5F); (0x61, 0x7A); (0xAA, 0xAA); (0xB2, 0xB3);
   (0xB5, 0xB5); (0xB9, 0xBA); (0xBC, 0xBE); (0xC0, 0xD6); (0xD8, 0xF6); (0xF8, 0x2C1);
   (0x2C6, 0x2D1); (0x2E0, 0x2E4); (0x2EC, 0x2EC); (0x2EE, 0x2EE); (0x370, 0x374); (0x376, 0x377);
   (0x37A, 0x37D); (0x37F, 0x37F); (0x386, 0x386); (0x388, 0x38A); (0x38C, 0x38C); (0x38E, 0x3A1);
   (0x3A3, 0x3F5); (0x3F7, 0x481); (0x48A, 0x52F); (0x531, 0x556); (0x559, 0x559); (0x560, 0x588);
   (0x5D0, 0x5EA); (0x5EF, 0x5F2); (0x620, 0x64A); (0x660, 0x669); (0x66E, 0x66F); (0x671, 0x6D3);
   (0x6D5, 0x6D5); (0x6E5, 0x6E6); (0x6EE, 0x6FC); (0x6FF, 0x6FF); (0x710, 0x710); (0x712, 0x72F);
   (0x74D, 0x7A5); (0x7B1, 0x7B1); (0x7C0, 0x7EA); (0x7F4, 0x7F5); (0x7FA, 0x7FA); (0x800, 0x815);
   (0x81A, 0x81A); (0x824, 0x824); (0x828, 0x828); (0x840, 0x858); (0x860, 0x86A); (0x870, 0x887);
   (0x889, 0x88E); (0x8A0, 0x8C9); (0x904, 0x939); (0x93D, 0x93D); (0x950, 0x950); (0x958, 0x961);
   (0x966, 0x96F); (0x971, 0x980); (0x985, 0x98C); (0x98F, 0x990); (0x993, 0x9A8); (0x9AA, 0x9B0);
   (0x9B2, 0x9B2); (0x9B6, 0x9B9); (0x9BD, 0x9BD); (0x9CE, 0x9CE); (0x9DC, 0x9DD); (0x9DF, 0x9E1);
   (0x9E6, 0x9F1); (0x9F4, 0x9F9); (0x9FC, 0x9FC); (0xA05, 0xA0A); (0xA0F, 0xA10); (0xA13, 0xA28);
   (0xA2A, 0xA30); (0xA32, 0xA33); (0xA35, 0xA36); (0xA38, 0xA39); (0xA59, 0xA5C); (0xA5E, 0xA5E);
   (0xA66, 0xA6F); (0xA72, 0xA74); (0xA85, 0xA8D); (0xA8F, 0xA91); (0xA93, 0xAA8); (0xAAA, 0xAB0);
   (0xAB2, 0xAB3); (0xAB5, 0xAB9); (0xABD, 0xABD); (0xAD0, 0xAD0); (0xAE0, 0xAE1); (0xAE6, 0xAEF);
   (0xAF9, 0xAF9); (0xB05, 0xB0C); (0xB0F, 0xB10); (0xB13, 0xB28); (0xB2A, 0xB30); (0xB32, 0xB33);
   (0xB35, 0xB39); (0xB3D, 0xB3D); (0xB5C, 0xB5D); (0xB5F, 0xB61); (0xB66, 0xB6F); (0xB71, 0xB77);
   (0xB83, 0xB83); (0xB85, 0xB8A); (0xB8E, 0xB90); (0xB92, 0xB95); (0xB99, 0xB9A); (0xB9C, 0xB9C);
   (0xB9E, 0xB9F); (0xBA3, 0xBA4); (0xBA8, 0xBAA); (0xBAE, 0xBB9); (0xBD0, 0xBD0); (0xBE6, 0xBF2);
   (0xC05, 0xC0C); (0xC0E, 0xC10); (0xC12, 0xC28); (0xC2A, 0xC39); (0xC3D, 0xC3D); (0xC58, 0xC5A);
   (0xC5D, 0xC5D); (0xC60, 0xC61); (0xC66, 0xC6F); (0xC78, 0xC7E); (0xC80, 0xC80); (0xC85, 0xC8C);
   (0xC8E, 0xC90); (0xC92, 0xCA8); (0xCAA, 0xCB3); (0xCB5, 0xCB9); (0xCBD, 0xCBD); (0xCDD, 0xCDE);
   (0xCE0, 0xCE1); (0xCE6, 0xCEF); (0xCF1, 0xCF2); (0xD04, 0xD0C); (0xD0E, 0xD10); (0xD12, 0xD3A);
   (0xD3D, 0xD3D); (0xD4E, 0xD4E); (0xD54, 0xD56); (0xD58, 0xD61); (0xD66, 0xD78); (0xD7A, 0xD7F);
   (0xD85, 0xD96); (0xD9A, 0xDB1); (0xDB3, 0xDBB); (0xDBD, 0xDBD); (0xDC0, 0xDC6); (0xDE6, 0xDEF);
   (0xE01, 0xE30); (0xE32, 0xE33); (0xE40, 0xE46); (0xE50, 0xE59); (0xE81, 0xE82); (0xE84, 0xE84);
   (0xE86, 0xE8A); (0xE8C, 0xEA3); (0xEA5, 0xEA5); (0xEA7, 0xEB0); (0xEB2, 0xEB3); (0xEBD, 0xEBD);
   (0xEC0, 0xEC4); (0xEC6, 0xEC6); (0xED0, 0xED9); (0xEDC, 0xEDF); (0xF00, 0xF00); (0xF20, 0xF33);
   (0xF40, 0xF47); (0xF49, 0xF6C); (0xF88, 0xF8C); (0x1000, 0x102A); (0x103F, 0x1049); (0x1050, 0x1055);
   (0x105A, 0x105D); (0x1061, 0x1061); (0x1065, 0x1066); (0x106E, 0x1070); (0x1075, 0x1081); (0x108E, 0x108E);
   (0x1090, 0x1099); (0x10A0, 0x10C5); (0x10C7, 0x10C7); (0x10CD, 0x10CD); (0x10D0, 0x10FA); (0x10FC, 0x1248);
   (0x124A, 0x124D); (0x1250, 0x1256); (0x1258, 0x1258); (0x125A, 0x125D); (0x1260, 0x1288); (0x128A, 0x128D);
   (0x1290, 0x12B0); (0x12B2, 0x12B5); (0x12B8, 0x12BE); (0x12C0, 0x12C0); (0x12C2, 0x12C5); (0x12C8, 0x12D6);
   (0x12D8, 0x1310); (0x1312, 0x1315); (0x1318, 0x135A); (0x1369, 0x137C); (0x1380, 0x138F); (0x13A0, 0x13F5);
   (0x13F8, 0x13FD); (0x1401, 0x166C); (0x166F, 0x167F); (0x1681, 0x169A); (0x16A0, 0x16EA); (0x16EE, 0x16F8);
   (0x1700, 0x1711); (0x171F, 0x1731); (0x1740, 0x1751); (0x1760, 0x176C); (0x176E, 0x1770); (0x1780, 0x17B3);
   (0x17D7, 0x17D7); (0x17DC, 0x17DC); (0x17E0, 0x17E9); (0x17F0, 0x17F9); (0x1810, 0x1819); (0x1820, 0x1878);
   (0x1880, 0x1884); (0x1887, 0x18A8); (0x18AA, 0x18AA); (0x18B0, 0x18F5); (0x1900, 0x191E); (0x1946, 0x196D);
   (0x1970, 0x1974); (0x1980, 0x19AB); (0x19B0, 0x19C9); (0x19D0, 0x19DA); (0x1A00, 0x1A16); (0x1A20, 0x1A54);
   (0x1A80, 0x1A89); (0x1A90, 0x1A99); (0x1AA7, 0x1AA7); (0x1B05, 0x1B33); (0x1B45, 0x1B4C); (0x1B50, 0x1B59);
   (0x1B83, 0x1BA0); (0x1BAE, 0x1BE5); (0x1C00, 0x1C23); (0x1C40, 0x1C49); (0x1C4D, 0x1C7D); (0x1C80, 0x1C88);
   (0x1C90, 0x1CBA); (0x1CBD, 0x1CBF); (0x1CE9, 0x1CEC); (0x1CEE, 0x1CF3); (0x1CF5, 0x1CF6); (0x1CFA, 0x1CFA);
   (0x1D00, 0x1DBF); (0x1E00, 0x1F15); (0x1F18, 0x1F1D); (0x1F20, 0x1F45); (0x1F48, 0x1F4D); (0x1F50, 0x1F57);
   (0x1F59, 0x1F59); (0x1F5B, 0x1F5B); (0x1F5D, 0x1F5D); (0x1F5F, 0x1F7D); (0x1F80, 0x1FB4); (0x1FB6, 0x1FBC);
   (0x1FBE, 0x1FBE); (0x1FC2, 0x1FC4); (0x1FC6, 0x1FCC); (0x1FD0, 0x1FD3); (0x1FD6, 0x1FDB); (0x1FE0, 0x1FEC);
   (0x1FF2, 0x1FF4); (0x1FF6, 0x1FFC); (0x2070, 0x2071); (0x2074, 0x2079); (0x207F, 0x2089); (0x2090, 0x209C);
   (0x2102, 0x2102); (0x2107, 0x2107); (0x210A, 0x2113); (0x2115, 0x2115); (0x2119, 0x211D); (0x2124, 0x2124);
   (0x2126, 0x2126); (0x2128, 0x2128); (0x212A, 0x212D); (0x212F, 0x2139); (0x213C, 0x213F); (0x2145, 0x2149);
   (0x214E, 0x214E); (0x2150, 0x2189); (0x2460, 0x249B); (0x24EA, 0x24FF); (0x2776, 0x2793); (0x2C00, 0x2CE4);
   (0x2CEB, 0x2CEE); (0x2CF2, 0x2CF3); (0x2CFD, 0x2CFD); (0x2D00, 0x2D25); (0x2D27, 0x2D27); (0x2D2D, 0x2D2D);
   (0x2D30, 0x2D67); (0x2D6F, 0x2D6F); (0x2D80, 0x2D96); (0x2DA0, 0x2DA6); (0x2DA8, 0x2DAE); (0x2DB0, 0x2DB6);
   (0x2DB8, 0x2DBE); (0x2DC0, 0x2DC6); (0x2DC8, 0x2DCE); (0x2DD0, 0x2DD6); (0x2DD8, 0x2DDE); (0x2E2F, 0x2E2F);
   (0x3005, 0x3007); (0x3021, 0x3029); (0x3031, 0x3035); (0x3038, 0x303C); (0x3041, 0x3096); (0x309D, 0x309F);
   (0x30A1, 0x30FA); (0x30FC, 0x30FF); (0x3105, 0x312F); (0x3131, 0x318E); (0x3192, 0x3195); (0x31A0, 0x31BF);
   (0x31F0, 0x31FF); (0x3220, 0x3229); (0x3248, 0x324F); (0x3251, 0x325F); (0x3280, 0x3289); (0x32B1, 0x32BF);
   (0x3400, 0x4DBF); (0x4E00, 0xA48C); (0xA4D0, 0xA4FD); (0xA500, 0xA60C); (0xA610, 0xA62B); (0xA640, 0xA66E);
   (0xA67F, 0xA69D); (0xA6A0, 0xA6EF); (0xA717, 0xA71F); (0xA722, 0xA788); (0xA78B, 0xA7CA); (0xA7D0, 0xA7D1);
   (0xA7D3, 0xA7D3); (0xA7D5, 0xA7D9); (0xA7F2, 0xA801); (0xA803, 0xA805); (0xA807, 0xA80A); (0xA80C, 0xA822);
   (0xA830, 0xA835); (0xA840, 0xA873); (0xA882, 0xA8B3); (0xA8D0, 0xA8D9); (0xA8F2, 0xA8F7); (0xA8FB, 0xA8FB);
   (0xA8FD, 0xA8FE); (0xA900, 0xA925); (0xA930, 0xA946); (0xA960, 0xA97C); (0xA984, 0xA9B2); (0xA9CF, 0xA9D9);
   (0xA9E0, 0xA9E4); (0xA9E6, 0xA9FE); (0xAA00, 0xAA28); (0xAA40, 0xAA42); (0xAA44, 0xAA4B); (0xAA50, 0xAA59);
   (0xAA60, 0xAA76); (0xAA7A, 0xAA7A); (0xAA7E, 0xAAAF); (0xAAB1, 0xAAB1); (0xAAB5, 0xAAB6); (0xAAB9, 0xAABD);
   (0xAAC0, 0xAAC0); (0xAAC2, 0xAAC2); (0xAADB, 0xAADD); (0xAAE0, 0xAAEA); (0xAAF2, 0xAAF4); (0xAB01, 0xAB06);
   (0xAB09, 0xAB0E); (0xAB11, 0xAB16); (0xAB20, 0xAB26); (0xAB28, 0xAB2E); (0xAB30, 0xAB5A); (0xAB5C, 0xAB69);
   (0xAB70, 0xABE2); (0xABF0, 0xABF9); (0xAC00, 0xD7A3); (0xD7B0, 0xD7C6); (0xD7CB, 0xD7FB); (0xF900, 0xFA6D);
   (0xFA70, 0xFAD9); (0xFB00, 0xFB06); (0xFB13, 0xFB17); (0xFB1D, 0xFB1D); (0xFB1F, 0xFB28); (0xFB2A, 0xFB36);
   (0xFB38, 0xFB3C); (0xFB3E, 0xFB3E); (0xFB40, 0xFB41); (0xFB43, 0xFB44); (0xFB46, 0xFBB1); (0xFBD3, 0xFD3D);
   (0xFD50, 0xFD8F); (0xFD92, 0xFDC7); (0xFDF0, 0xFDFB); (0xFE70, 0xFE74); (0xFE76, 0xFEFC); (0xFF10, 0xFF19);
   (0xFF21, 0xFF3A); (0xFF41, 0xFF5A); (0xFF66, 0xFFBE); (0xFFC2, 0xFFC7); (0xFFCA, 0xFFCF); (0xFFD2, 0xFFD7);
   (0xFFDA, 0xFFDC); (0x10000, 0x1000B); (0x1000D, 0x10026); (0x10028, 0x1003A); (0x1003C, 0x1003D); (0x1003F, 0x1004D);
   (0x10050, 0x1005D); (0x10080, 0x100FA); (0x10107, 0x10133); (0x10140, 0x10178); (0x1018A, 0x1018B); (0x10280, 0x1029C);
   (0x102A0, 0x102D0); (0x102E1, 0x102FB); (0x10300, 0x10323); (0x1032D, 0x1034A); (0x10350, 0x10375); (0x10380, 0x1039D);
   (0x103A0, 0x103C3); (0x103C8, 0x103CF); (0x103D1, 0x103D5); (0x10400, 0x1049D); (0x104A0, 0x104A9); (0x104B0, 0x104D3);
   (0x104D8, 0x104FB); (0x10500, 0x10527); (0x10530, 0x10563); (0x10570, 0x1057A); (0x1057C, 0x1058A); (0x1058C, 0x10592);
   (0x10594, 0x10595); (0x10597, 0x105A1); (0x105A3, 0x105B1); (0x105B3, 0x105B9); (0x105BB, 0x105BC); (0x10600, 0x10736);
   (0x10740, 0x10755); (0x10760, 0x10767); (0x10780, 0x10785); (0x10787, 0x107B0); (0x107B2, 0x107BA); (0x10800, 0x10805);
   (0x10808, 0x10808); (0x1080A, 0x10835); (0x10837, 0x10838); (0x1083C, 0x1083C); (0x1083F, 0x10855); (0x10858, 0x10876);
   (0x10879, 0x1089E); (0x108A7, 0x108AF); (0x108E0, 0x108F2); (0x108F4, 0x108F5); (0x108FB, 0x1091B); (0x10920, 0x10939);
   (0x10980, 0x109B7); (0x109BC, 0x109CF); (0x109D2, 0x10A00); (0x10A10, 0x10A13); (0x10A15, 0x10A17); (0x10A19, 0x10A35);
   (0x10A40, 0x10A48); (0x10A60, 0x10A7E); (0x10A80, 0x10A9F); (0x10AC0, 0x10AC7); (0x10AC9, 0x10AE4); (0x10AEB, 0x10AEF);
   (0x10B00, 0x10B35); (0x10B40, 0x10B55); (0x10B58, 0x10B72); (0x10B78, 0x10B91); (0x10BA9, 0x10BAF); (0x10C00, 0x10C48);
   (0x10C80, 0x10CB2); (0x10CC0, 0x10CF2); (0x10CFA, 0x10D23); (0x10D30, 0x10D39); (0x10E60, 0x10E7E); (0x10E80, 0x10EA9);
   (0x10EB0, 0x10EB1); (0x10F00, 0x10F27); (0x10F30, 0x10F45); (0x10F51, 0x10F54); (0x10F70, 0x10F81); (0x10FB0, 0x10FCB);
   (0x10FE0, 0x10FF6); (0x11003, 0x11037); (0x11052, 0x1106F); (0x11071, 0x11072); (0x11075, 0x11075); (0x11083, 0x110AF);
   (0x110D0, 0x110E8); (0x110F0, 0x110F9); (0x11103, 0x11126); (0x11136, 0x1113F); (0x11144, 0x11144); (0x11147, 0x11147);
   (0x11150, 0x11172); (0x11176, 0x11176); (0x11183, 0x111B2); (0x111C1, 0x111C4); (0x111D0, 0x111DA); (0x111DC, 0x111DC);
   (0x111E1, 0x111F4); (0x11200, 0x11211); (0x11213, 0x1122B); (0x11280, 0x11286); (0x11288, 0x11288); (0x1128A, 0x1128D);
   (0x1128F, 0x1129D); (0x1129F, 0x112A8); (0x112B0, 0x112DE); (0x112F0, 0x112F9); (0x11305, 0x1130C); (0x1130F, 0x11310);
   (0x11313, 0x11328); (0x1132A, 0x11330); (0x11332, 0x11333); (0x11335, 0x11339); (0x1133D, 0x1133D); (0x11350, 0x11350);
   (0x1135D, 0x11361); (0x11400, 0x11434); (0x11447, 0x1144A); (0x11450, 0x11459); (0x1145F, 0x11461); (0x11480, 0x114AF);
   (0x114C4, 0x114C5); (0x114C7, 0x114C7); (0x114D0, 0x114D9); (0x11580, 0x115AE); (0x115D8, 0x115DB); (0x11600, 0x1162F);
   (0x11644, 0x11644); (0x11650, 0x11659); (0x11680, 0x116AA); (0x116B8, 0x116B8); (0x116C0, 0x116C9); (0x11700, 0x1171A);
   (0x11730, 0x1173B); (0x11740, 0x11746); (0x11800, 0x1182B); (0x118A0, 0x118F2); (0x118FF, 0x11906); (0x11909, 0x11909);
   (0x1190C, 0x11913); (0x11915, 0x11916); (0x11918, 0x1192F); (0x1193F, 0x1193F); (0x11941, 0x11941); (0x11950, 0x11959);
   (0x119A0, 0x119A7); (0x119AA, 0x119D0); (0x119E1, 0x119E1); (0x119E3, 0x119E3); (0x11A00, 0x11A00); (0x11A0B, 0x11A32);
   (0x11A3A, 0x11A3A); (0x11A50, 0x11A50); (0x11A5C, 0x11A89); (0x11A9D, 0x11A9D); (0x11AB0, 0x11AF8); (0x11C00, 0x11C08);
   (0x11C0A, 0x11C2E); (0x11C40, 0x11C40); (0x11C50, 0x11C6C); (0x11C72, 0x11C8F); (0x11D00, 0x11D06); (0x11D08, 0x11D09);
   (0x11D0B, 0x11D30); (0x11D46, 0x11D46); (0x11D50, 0x11D59); (0x11D60, 0x11D65); (0x11D67, 0x11D68); (0x11D6A, 0x11D89);
   (0x11D98, 0x11D98); (0x11DA0, 0x11DA9); (0x11EE0, 0x11EF2); (0x11FB0, 0x11FB0); (0x11FC0, 0x11FD4); (0x12000, 0x12399);
   (0x12400, 0x1246E); (0x12480, 0x12543); (0x12F90, 0x12FF0); (0x13000, 0x1342E); (0x14400, 0x14646); (0x16800, 0x16A38);
   (0x16A40, 0x16A5E); (0x16A60, 0x16A69); (0x16A70, 0x16ABE); (0x16AC0, 0x16AC9); (0x16AD0, 0x16AED); (0x16B00, 0x16B2F);
   (0x16B40, 0x16B43); (0x16B50, 0x16B59); (0x16B5B, 0x16B61); (0x16B63, 0x16B77); (0x16B7D, 0x16B8F); (0x16E40, 0x16E96);
   (0x16F00, 0x16F4A); (0x16F50, 0x16F50); (0x16F93, 0x16F9F); (0x16FE0, 0x16FE1); (0x16FE3, 0x16FE3); (0x17000, 0x187F7);
   (0x18800, 0x18CD5); (0x18D00, 0x18D08); (0x1AFF0, 0x1AFF3); (0x1AFF5, 0x1AFFB); (0x1AFFD, 0x1AFFE); (0x1B000, 0x1B122);
   (0x1B150, 0x1B152); (0x1B164, 0x1B167); (0x1B170, 0x1B2FB); (0x1BC00, 0x1BC6A); (0x1BC70, 0x1BC7C); (0x1BC80, 0x1BC88);
   (0x1BC90, 0x1BC99); (0x1D2E0, 0x1D2F3); (0x1D360, 0x1D378); (0x1D400, 0x1D454); (0x1D456, 0x1D49C); (0x1D49E, 0x1D49F);
   (0x1D4A2, 0x1D4A2); (0x1D4A5, 0x1D4A6); (0x1D4A9, 0x1D4AC); (0x1D4AE, 0x1D4B9); (0x1D4BB, 0x1D4BB); (0x1D4BD, 0x1D4C3);
   (0x1D4C5, 0x1D505); (0x1D507, 0x1D50A); (0x1D50D, 0x1D514); (0x1D516, 0x1D51C); (0x1D51E, 0x1D539); (0x1D53B, 0x1D53E);
   (0x1D540, 0x1D544); (0x1D546, 0x1D546); (0x1D54A, 0x1D550); (0x1D552, 0x1D6A5); (0x1D6A8, 0x1D6C0); (0x1D6C2, 0x1D6DA);
   (0x1D6DC, 0x1D6FA); (0x1D6FC, 0x1D714); (0x1D716, 0x1D734); (0x1D736, 0x1D74E); (0x1D750, 0x1D76E); (0x1D770, 0x1D788);
   (0x1D78A, 0x1D7A8); (0x1D7AA, 0x1D7C2); (0x1D7C4, 0x1D7CB); (0x1D7CE, 0x1D7FF); (0x1DF00, 0x1DF1E); (0x1E100, 0x1E12C);
   (0x1E137, 0x1E13D); (0x1E140, 0x1E149); (0x1E14E, 0x1E14E); (0x1E290, 0x1E2AD); (0x1E2C0, 0x1E2EB); (0x1E2F0, 0x1E2F9);
   (0x1E7E0, 0x1E7E6); (0x1E7E8, 0x1E7EB); (0x1E7ED, 0x1E7EE); (0x1E7F0, 0x1E7FE); (0x1E800, 0x1E8C4); (0x1E8C7, 0x1E8CF);
   (0x1E900, 0x1E943); (0x1E94B, 0x1E94B); (0x1E950, 0x1E959); (0x1EC71, 0x1ECAB); (0x1ECAD, 0x1ECAF); (0x1ECB1, 0x1ECB4);
   (0x1ED01, 0x1ED2D); (0x1ED2F, 0x1ED3D); (0x1EE00, 0x1EE03); (0x1EE05, 0x1EE1F); (0x1EE21, 0x1EE22); (0x1EE24, 0x1EE24);
   (0x1EE27, 0x1EE27); (0x1EE29, 0x1EE32); (0x1EE34, 0x1EE37); (0x1EE39, 0x1EE39); (0x1EE3B, 0x1EE3B); (0x1EE42, 0x1EE42);
   (0x1EE47, 0x1EE47); (0x1EE49, 0x1EE49); (0x1EE4B, 0x1EE4B); (0x1EE4D, 0x1EE4F); (0x1EE51, 0x1EE52); (0x1EE54, 0x1EE54);
   (0x1EE57, 0x1EE57); (0x1EE59, 0x1EE59); (0x1EE5B, 0x1EE5B); (0x1EE5D, 0x1EE5D); (0x1EE5F, 0x1EE5F); (0x1EE61, 0x1EE62);
   (0x1EE64, 0x1EE64); (0x1EE67, 0x1EE6A); (0x1EE6C, 0x1EE72); (0x1EE74, 0x1EE77); (0x1EE79, 0x1EE7C); (0x1EE7E, 0x1EE7E);
   (0x1EE80, 0x1EE89); (0x1EE8B, 0x1EE9B); (0x1EEA1, 0x1EEA3); (0x1EEA5, 0x1EEA9); (0x1EEAB, 0x1EEBB); (0x1F100, 0x1F10C);
   (0x1FBF0, 0x1FBF9); (0x20000, 0x2A6DF); (0x2A700, 0x2B738); (0x2B740, 0x2B81D); (0x2B820, 0x2CEA1); (0x2CEB0, 0x2EBE0);
   (0x2F800, 0x2FA1D); (0x30000, 0x3134A)].

Definition is_word (c : N) : bool := in_ranges word_ranges c.

(** Simple lower-case mapping of one code point: exact up to U+017F, and for
    the Kelvin and Angstrom signs; other code points are left as they are. No
    code point left out has a lower case that contains a character of the
    module's patterns and markers, so its tests on lowered text and its
    case-insensitive patterns see the same as under the full mapping. *)
Definition tolower (c : N) : N :=
  if in_range 0x41 0x5A c then c + 32
  else if in_range 0xC0 0xDE c && negb (c =? 0xD7) then c + 32
  else if in_range 0x100 0x12F c || in_range 0x132 0x137 c || in_range 0x14A 0x177 c
       then (if N.even c then c + 1 else c)
  else if c =? 0x130 then 0x69
  else if in_range 0x139 0x148 c || in_range 0x179 0x17E c
       then (if N.odd c then c + 1 else c)
  else if c =? 0x178 then 0xFF
  else if c =? 0x212A then 0x6B
  else if c =? 0x212B then 0xE5
  else c.

(** [str.lower()]: as [tolower], except that capital I with dot above becomes
    "i" followed by a combining dot above. *)
Definition lower (s : ustr) : ustr :=
  flat_map (fun c => if c =? 0x130 then [0x69; 0x307] else [tolower c]) s.

Fixpoint lstrip_by (p : N -> bool) (s : ustr) : ustr :=
  match s with
  | [] => []
  | c :: r => if p c then lstrip_by p r else s
  end.

Definition rstrip_by (p : N -> bool) (s : ustr) : ustr :=
  rev (lstrip_by p (rev s)).

Definition strip_by (p : N -> bool) (s : ustr) : ustr :=
  rstrip_by p (lstrip_by p s).

(** [s.strip()] *)
Definition strip (s : ustr) : ustr := strip_by is_space s.

(** [s.split()]: the maximal runs of non-whitespace, [cur] being the run read
    so far. *)
Fixpoint split_go (s cur : ustr) : list ustr :=
  match s with
  | [] => match cur with [] => [] | _ => [cur] end
  | c :: r =>
    if is_space c
    then match cur with [] => split_go r [] | _ => cur :: split_go r [] end
    else split_go r (cur ++ [c])
  end.

Definition split (s : ustr) : list ustr := split_go s [].

(** [sep.join(parts)] *)
Fixpoint join (sep : ustr) (parts : list ustr) : ustr :=
  match parts with
  | [] => []
  | [p] => p
  | p :: rest => p ++ sep ++ join sep rest
  end.

(** [s.isdigit()]: at least one character, and all of them digits. *)
Definition isdigit (s : ustr) : bool :=
  match s with [] => false | _ => forallb is_digit_char s end.

Fixpoint starts_with (p s : ustr) : bool :=
  match p, s with
  | [], _ => true
  | _ :: _, [] => false
  | a :: p', b :: s' => (a =? b) && starts_with p' s'
  end.

(** [needle in hay] on strings *)
Fixpoint contains (needle hay : ustr) : bool :=
  starts_with needle hay ||
  match hay with
  | [] => false
  | _ :: r => contains needle r
  end.

(** [s.translate(str.maketrans(src, dst))] for [src] and [dst] of one length *)
Fixpoint translate_char (table : list (N * N)) (c : N) : N :=
  match table with
  | [] => c
  | (a, b) :: t => if a =? c then b else translate_char t c
  end.

Definition maketrans (src dst : ustr) : list (N * N) := combine src dst.

(** [dict] built from pairs keeps the last value of a repeated key, and
    [maketrans] goes left to right; the tables used here have distinct keys. *)
Definition translate (table : list (N * N)) (s : ustr) : ustr :=
  map (translate_char table) s.

(** Decimal rendering of an integer, as in an f-string [{n}]. *)
Definition dec (z : Z) : ustr := u (pretty z).

(** [{n:03d}]: zero padded to width three (the sign counts in the width). *)
Definition dec03 (z : Z) : ustr :=
  let body := u (pretty (Z.abs z)) in
  let sign := if (z <? 0)%Z then [0x2D] else [] in
  sign ++ replicate (3 - length sign - length body)%nat 0x30 ++ body.

End Text.

(** ** Regular expressions: the fragment of [re] the module's patterns use *)

Module Regex.
Import Text.

(** Every repetition in the module's patterns is over a one-character item
    (a class, a literal or the dot), so [Rep] repeats a character test. *)
Inductive re :=
| Eps
| Chr (p : N -> bool)
| Cat (r1 r2 : re)
| Alt (r1 r2 : re)
| Rep (p : N -> bool) (lo : nat) (hi : option nat)
| Bol
| Eol
| WordB.

Definition may_repeat (hi : option nat) : bool :=
  match hi with Some O => false | _ => true end.

Definition at_least (lo : nat) {A} (x : option A) : option A :=
  match lo with O => x | S _ => None end.

(** Greedy repetition with backtracking: first one more character, then the
    continuation [k] at the current position. [prev] is the character just
    before the cursor, [s] the text from the cursor on. *)
Fixpoint rep {A} (p : N -> bool) (lo : nat) (hi : option nat)
    (prev : option N) (s : ustr) (k : option N -> ustr -> option A) : option A :=
  match s with
  | [] => at_least lo (k prev s)
  | c :: s' =>
    if p c && may_repeat hi
    then match rep p (pred lo) (pred <$> hi) (Some c) s' k with
         | Some x => Some x
         | None => at_least lo (k prev s)
         end
    else at_least lo (k prev s)
  end.

Definition word_at (c : option N) : bool :=
  match c with Some x => is_word x | None => false end.

(** Backtracking matcher in continuation style: alternatives are tried left to
    right, as the [re] engine does. *)
Fixpoint run {A} (r : re) (prev : option N) (s : ustr)
    (k : option N -> ustr -> option A) : option A :=
  match r with
  | Eps => k prev s
  | Chr p =>
    match s with
    | c :: s' => if p c then k (Some c) s' else None
    | [] => None
    end
  | Cat r1 r2 => run r1 prev s (fun prev' s' => run r2 prev' s' k)
  | Alt r1 r2 =>
    match run r1 prev s k with
    | Some x => Some x
    | None => run r2 prev s k
    end
  | Rep p lo hi => rep p lo hi prev s k
  | Bol => match prev with None => k prev s | Some _ => None end
  | Eol => match s with [] => k prev s | [0x0A] => k prev s | _ => None end
  | WordB => if xorb (word_at prev) (word_at (head s)) then k prev s else None
  end.

(** Length of the match that starts at the cursor, if there is one. *)
Definition match_len (r : re) (prev : option N) (s : ustr) : option nat :=
  run r prev s (fun _ rest => Some (length s - length rest)%nat).

(** [pattern.match(s)] as a truth value *)
Definition matches (r : re) (s : ustr) : bool :=
  bool_decide (is_Some (match_len r None s)).

Fixpoint search_from (r : re) (prev : option N) (s : ustr) : bool :=
  match match_len r prev s with
  | Some _ => true
  | None =>
    match s with
    | [] => false
    | c :: s' => search_from r (Some c) s'
    end
  end.

(** [pattern.search(s)] as a truth value *)
Definition search (r : re) (s : ustr) : bool := search_from r None s.

(** [re.sub(pattern, repl, s)] for a pattern that matches no empty string:
    [skip] counts the characters still covered by the match in progress. *)
Fixpoint sub_go (r : re) (repl : ustr) (prev : option N) (s : ustr) (skip : nat) : ustr :=
  match s with
  | [] => []
  | c :: s' =>
    match skip with
    | S n => sub_go r repl (Some c) s' n
    | O =>
      match match_len r prev s with
      | Some (S n) => repl ++ sub_go r repl (Some c) s' n
      | _ => c :: sub_go r repl (Some c) s' O
      end
    end
  end.

Definition sub (r : re) (repl s : ustr) : ustr := sub_go r repl None s O.

(** *** Pattern syntax *)

Definition chr (c : N) : N -> bool := N.eqb c.
Definition one_of (cs : ustr) : N -> bool := fun x => existsb (N.eqb x) cs.
Definition dot : N -> bool := fun x => negb (x =? 0x0A).

(** With [re.IGNORECASE] a literal matches any character whose lower case is
    the literal's, or a character the engine pairs with it: dotless and
    dotted i, long s and s, the micro sign and mu. *)
Definition case_fixes (lc : N) : list N :=
  if lc =? 0x69 then [0x131] else if lc =? 0x131 then [0x69]
  else if lc =? 0x73 then [0x17F] else if lc =? 0x17F then [0x73]
  else if lc =? 0xB5 then [0x3BC] else if lc =? 0x3BC then [0xB5]
  else [].

Definition chr_i (c : N) : N -> bool :=
  fun x => let lx := tolower x in
           (lx =? tolower c) || existsb (N.eqb lx) (case_fixes (tolower c)).

Definition lit (s : ustr) : re := foldr (fun c r => Cat (Chr (chr c)) r) Eps s.
Definition lit_i (s : ustr) : re := foldr (fun c r => Cat (Chr (chr_i c)) r) Eps s.

Fixpoint alts (rs : list re) : re :=
  match rs with
  | [] => Chr (fun _ => false)
  | [r] => r
  | r :: rest => Alt r (alts rest)
  end.

Fixpoint cats (rs : list re) : re :=
  match rs with
  | [] => Eps
  | [r] => r
  | r :: rest => Cat r (cats rest)
  end.

End Regex.

Import Text Regex.

(** ** Python values, exceptions and the builtins the module calls *)

Inductive exn := TypeError | ValueError | OverflowError.

Inductive result (A : Type) :=
| Ok (a : A)
| Raise (e : exn).
Arguments Ok {A} a.
Arguments Raise {A} e.

Definition bind {A B} (m : result A) (f : A -> result B) : result B :=
  match m with
  | Ok a => f a
  | Raise e => Raise e
  end.

Notation "x <- m ;; k" := (bind m (fun x => k))
  (at level 100, m at next level, right associativity).

(** The values an element's fields can hold: what JSON gives, and tuples.
    Dictionaries have string keys, as [dict[str, Any]] says; a dictionary is
    an association list read by its first entry for a key. *)
#[local] Set Warnings "-register-all".
Inductive PyVal :=
| PNone
| PBool (b : bool)
| PInt (z : Z)
| PFloat (f : spec_float)
| PStr (s : ustr)
| PList (l : list PyVal)
| PTuple (l : list PyVal)
| PDict (d : list (ustr * PyVal)).

Definition Element := list (ustr * PyVal).

Fixpoint lookup_key (k : ustr) (d : list (ustr * PyVal)) : option PyVal :=
  match d with
  | [] => None
  | (k', v) :: d' => if ustr_eqb k' k then Some v else lookup_key k d'
  end.

(** [d.get(k)] and [d.get(k, dflt)] *)
Definition dict_get (d : list (ustr * PyVal)) (k : ustr) : PyVal :=
  default PNone (lookup_key k d).
Definition dict_get_or (d : list (ustr * PyVal)) (k : ustr) (dflt : PyVal) : PyVal :=
  default dflt (lookup_key k d).

(** Truth value of a value, as [or], [not] and [if] take it. *)
Definition truthy (v : PyVal) : bool :=
  match v with
  | PNone => false
  | PBool b => b
  | PInt z => negb (z =? 0)%Z
  | PFloat f => match f with S754_zero _ => false | _ => true end
  | PStr s => match s with [] => false | _ => true end
  | PList l | PTuple l => match l with [] => false | _ => true end
  | PDict d => match d with [] => false | _ => true end
  end.

(** [a or b] *)
Definition py_or (a b : PyVal) : PyVal := if truthy a then a else b.

Definition is_none (v : PyVal) : bool :=
  match v with PNone => true | _ => false end.

(** Lists and dictionaries cannot be hashed, and a tuple only if its items can. *)
Fixpoint hashable (v : PyVal) : bool :=
  match v with
  | PList _ | PDict _ => false
  | PTuple l => forallb hashable l
  | _ => true
  end.

(** Library functions of the interpreter that the module calls and that are
    tables or parsers of their own: Unicode composition, the printed form of a
    value, and the number parsers ([None] stands for their [ValueError]). *)
Class Builtins := {
  nfc : ustr -> ustr;
  str_of : PyVal -> ustr;
  int_of_str : ustr -> option Z;
  float_of_str : ustr -> option spec_float;
}.

Definition float_one : spec_float := Eval vm_compute in SFone 53 1024.

(** [float(n)] for an integer: the nearest double, ties to even, and
    [OverflowError] when that is out of range. *)
Definition float_of_int (z : Z) : result spec_float :=
  match binary_normalize 53 1024 z 0 false with
  | S754_infinity _ => Raise OverflowError
  | f => Ok f
  end.

(** [int(x)] for a float: truncation, with the two errors of the
    non-finite values. *)
Definition int_of_float (f : spec_float) : result Z :=
  match f with
  | S754_zero _ => Ok 0%Z
  | S754_infinity _ => Raise OverflowError
  | S754_nan => Raise ValueError
  | S754_finite sg m e =>
    let a := (if 0 <=? e then Z.pos m * 2 ^ e else Z.pos m / 2 ^ (- e))%Z in
    Ok (if sg then - a else a)%Z
  end.

Section WithBuiltins.
Context {B : Builtins}.

(** [float(v)] *)
Definition py_float (v : PyVal) : result spec_float :=
  match v with
  | PBool b => Ok (if b then float_one else S754_zero false)
  | PInt z => float_of_int z
  | PFloat f => Ok f
  | PStr s => match float_of_str s with Some f => Ok f | None => Raise ValueError end
  | _ => Raise TypeError
  end.

(** [int(v)] *)
Definition py_int (v : PyVal) : result Z :=
  match v with
  | PBool b => Ok (if b then 1 else 0)%Z
  | PInt z => Ok z
  | PFloat f => int_of_float f
  | PStr s => match int_of_str s with Some z => Ok z | None => Raise ValueError end
  | _ => Raise TypeError
  end.

End WithBuiltins.

(** ** The module *)

(** The schema's block types. *)
Inductive BlockType := Title | Paragraph | ListItem | Table | Header | Footer | Other.

Global Instance BlockType_eq_dec : EqDecision BlockType.
Proof. solve_decision. Defined.

Definition CATEGORY_TO_TYPE : list (ustr * BlockType) :=
  [(u "Title", Title); (u "NarrativeText", Paragraph); (u "ListItem", ListItem);
   (u "Table", Table); (u "Header", Header); (u "Footer", Footer)].

Fixpoint table_find {V} (k : ustr) (t : list (ustr * V)) : option V :=
  match t with
  | [] => None
  | (k', v) :: t' => if ustr_eqb k' k then Some v else table_find k t'
  end.

(** [category in CATEGORY_TO_TYPE] hashes the category first. *)
Definition _block_type (category : PyVal) : result BlockType :=
  if hashable category then
    match category with
    | PStr s => Ok (default Other (table_find s CATEGORY_TO_TYPE))
    | _ => Ok Other
    end
  else Raise TypeError.

Definition basliksiz : ustr := u "basliksiz".

Definition tr_map : list (N * N) :=
  maketrans (u "ıİğĞüÜşŞöÖçÇ ") (u "iIgGuUsSoOcC_").

Definition slug_char (c : N) : bool :=
  in_range 0x61 0x7A c || in_range 0x30 0x39 c || (c =? 0x5F).

Definition _slug (text : PyVal) : ustr :=
  match text with
  | PStr ((_ :: _) as t) =>
    let s := lower (translate tr_map (strip t)) in
    let s := sub (Rep (fun c => negb (slug_char c)) 1 None) (u "_") s in
    let s := strip_by (chr 0x5F) (sub (Rep (chr 0x5F) 1 None) (u "_") s) in
    match s with [] => basliksiz | _ => s end
  | _ => basliksiz
  end.

Definition _normalize_text `{Builtins} (text : PyVal) : ustr :=
  match text with
  | PStr ((_ :: _) as t) =>
    let s := nfc t in
    let s := join (u " ") (split s) in
    strip s
  | _ => []
  end.

Definition _hierarchy_level (block_type : BlockType) : Z :=
  match block_type with
  | Title => 1
  | ListItem => 2
  | Header | Footer => 4
  | _ => 3
  end.

(** *** Noise patterns *)

Definition digits (lo : nat) (hi : option nat) : re := Rep is_decimal lo hi.

Definition month_names : list ustr :=
  map u ["ocak"; "şubat"; "mart"; "nisan"; "mayıs"; "haziran"; "temmuz"; "ağustos";
         "eylül"; "ekim"; "kasım"; "aralık";
         "january"; "february"; "march"; "april"; "may"; "june"; "july"; "august";
         "september"; "october"; "november"; "december"]%string.

Definition _DATE_PATTERN : re :=
  cats [WordB;
        alts [cats [digits 1 (Some 2); Chr (one_of (u "./")); digits 1 (Some 2);
                    Chr (one_of (u "./")); digits 2 (Some 4)];
              cats [digits 4 (Some 4); Chr (one_of (u "-/")); digits 1 (Some 2);
                    Chr (one_of (u "-/")); digits 1 (Some 2)];
              cats [digits 1 (Some 2); Rep is_space 1 None;
                    alts (map lit_i month_names);
                    Rep is_space 1 None; digits 2 (Some 4)]];
        WordB]%nat.

Definition _COPYRIGHT_PATTERN : re :=
  alts [lit_i (u "©"); lit_i (u "copyright"); lit_i (u "tüm hakları");
        lit_i (u "all rights reserved");
        cats [lit_i (u "©"); Rep is_space 0 None; digits 4 (Some 4)];
        lit_i (u "her hakkı")]%nat.

Definition _URL_PATTERN : re :=
  alts [cats [lit_i (u "http"); Rep (chr_i 0x73) 0 (Some 1); lit_i (u "://")];
        lit_i (u "www.");
        cats [lit_i (u ".com"); WordB];
        cats [lit_i (u ".org"); WordB];
        cats [lit_i (u ".net"); WordB]]%nat.

Definition _TOC_LINE_PATTERN : re :=
  cats [Bol; Rep is_space 0 None; digits 1 None; Chr (one_of (u ".)"));
        Rep is_space 0 None; Rep dot 1 (Some 100); Eol]%nat.

Definition _ICINDEKILER_MARKERS : list ustr :=
  map u ["içindekiler"; "contents"; "table of contents"; "index"]%string.

Definition _UI_INSTRUCTION_MARKERS : list ustr :=
  map u ["tıklayın"; "tıklanır"; "tıklanacak"; "butona"; "butonuna"; "menüden";
         "seçin"; "girin"; "ekran açılır"; "açılır"; "penceresi açılır";
         "görüntülenir"; "görünür"; "sayfa açılır";
         "click"; "select"; "choose"; "enter"; "opens"; "displayed"; "shown"]%string.

Definition member (x : ustr) (l : list ustr) : bool := existsb (ustr_eqb x) l.

(** [sum(1 for c in t if c in " .,;")] *)
Definition separator_count (t : ustr) : nat :=
  length (filter (fun c => one_of (u " .,;") c = true) t).

Definition _is_noise (block_type : BlockType) (text section_title : ustr) : bool :=
  if bool_decide (block_type = Footer) || bool_decide (block_type = Header) then true else
  let t := strip text in
  if bool_decide (t = []) then true else
  if (length t <=? 2)%nat && member t (map u ["."; ".."; "-"; "–"; "—"]%string) then true else
  if isdigit t then true else
  let lower := lower t in
  if search _DATE_PATTERN t && (length t <? 80)%nat then true else
  if search _COPYRIGHT_PATTERN t then true else
  if search _URL_PATTERN t && (separator_count t <? 3)%nat then true else
  if negb (bool_decide (section_title = []))
     && member (Text.lower (strip section_title)) _ICINDEKILER_MARKERS then true else
  if contains (u "içindekiler") lower && (length t <? 150)%nat then true else
  if matches _TOC_LINE_PATTERN t && (length t <? 120)%nat then true else
  if (length t <? 120)%nat && existsb (fun m => contains m lower) _UI_INSTRUCTION_MARKERS
  then true else
  false.

(** *** Blocks and the structure builder *)

Record Block := {
  block_id : ustr;
  btype : BlockType;
  text : ustr;
  page : Z;
  bbox : option (list spec_float);
  section_id : ustr;
  section_title : ustr;
  hierarchy_level : Z;
  chunk_id : ustr;
  block_index_in_page : Z;
  is_noise : bool;
  normalized_text : ustr;
}.

(** [b["is_noise"] = True] *)
Definition set_noise (b : Block) : Block :=
  {| block_id := block_id b; btype := btype b; text := text b; page := page b;
     bbox := bbox b; section_id := section_id b; section_title := section_title b;
     hierarchy_level := hierarchy_level b; chunk_id := chunk_id b;
     block_index_in_page := block_index_in_page b; is_noise := true;
     normalized_text := normalized_text b |}.

(** [x or dflt] on strings *)
Definition str_or (x dflt : ustr) : ustr :=
  match x with [] => dflt | _ => x end.

(** The result dictionary of [extract_structure]. *)
Record Extraction := {
  document_type : ustr;
  blocks : list Block;
}.

(** The local variables of the loop of [extract_structure]. *)
Record BuildState := {
  out_blocks : list Block;
  current_section_id : ustr;
  current_section_title : ustr;
  page_counter : gmap Z Z;
  section_block_index : gmap ustr Z;
}.

Definition build_init : BuildState :=
  {| out_blocks := []; current_section_id := basliksiz; current_section_title := [];
     page_counter := ∅; section_block_index := ∅ |}.

(** Grouping of the boilerplate pass: [text_to_indices], a dictionary in
    insertion order whose values are index lists. *)
Fixpoint indices_append (k : ustr) (i : nat) (d : list (ustr * list nat))
    : list (ustr * list nat) :=
  match d with
  | [] => [(k, [i])]
  | (k', l) :: d' =>
    if ustr_eqb k' k then (k', l ++ [i]) :: d' else (k', l) :: indices_append k i d'
  end.

Fixpoint group_loop (idx : nat) (bs : list Block) (d : list (ustr * list nat))
    : list (ustr * list nat) :=
  match bs with
  | [] => d
  | b :: rest =>
    let nt := str_or (normalized_text b) [] in
    group_loop (S idx) rest (if (25 <=? length nt)%nat then indices_append nt idx d else d)
  end.

(** [{blocks[i]["page"] for i in indices}]; the indices come from [enumerate]
    and are in range. *)
Definition pages_of (bs : list Block) (indices : list nat) : gset Z :=
  list_to_set (omap (fun i => page <$> bs !! i) indices).

Definition mark_group (bs : list Block) (indices : list nat) : list Block :=
  if (3 <=? size (pages_of bs indices))%nat
  then foldl (fun acc i => alter set_noise i acc) bs indices
  else bs.

Definition _mark_boilerplate_noise (bs : list Block) : list Block :=
  foldl (fun acc entry => mark_group acc entry.2) bs (group_loop 0 bs []).

Section Builder.
Context {B : Builtins}.

Definition floats4 (a b c d : PyVal) : result (option (list spec_float)) :=
  x1 <- py_float a ;; y1 <- py_float b ;; x2 <- py_float c ;; y2 <- py_float d ;;
  Ok (Some [x1; y1; x2; y2]).

Definition _bbox_from_element (el : Element) : result (option (list spec_float)) :=
  let bbox := py_or (py_or (dict_get el (u "bbox")) (dict_get el (u "coordinates")))
                    (dict_get el (u "bounding_box")) in
  match bbox with
  | PNone => Ok None
  | PList (a :: b :: c :: d :: _) | PTuple (a :: b :: c :: d :: _) => floats4 a b c d
  | PDict bb =>
    let x1 := py_or (dict_get bb (u "x1")) (dict_get bb (u "left")) in
    let y1 := py_or (dict_get bb (u "y1")) (dict_get bb (u "top")) in
    let x2 := py_or (dict_get bb (u "x2")) (dict_get bb (u "right")) in
    let y2 := py_or (dict_get bb (u "y2")) (dict_get bb (u "bottom")) in
    if negb (is_none x1 || is_none y1 || is_none x2 || is_none y2)
    then floats4 x1 y1 x2 y2
    else Ok None
  | _ => Ok None
  end.

(** Lines 181-185: the text as a string. *)
Definition coerce_text (v : PyVal) : ustr :=
  match v with
  | PNone => []
  | PStr s => s
  | _ => str_of v
  end.

(** Lines 187-193: the page as an integer; [TypeError] and [ValueError] of
    [int] are caught, other exceptions are not. *)
Definition coerce_page (v : PyVal) : result Z :=
  match v with
  | PNone => Ok 0%Z
  | _ =>
    match py_int v with
    | Ok z => Ok z
    | Raise TypeError | Raise ValueError => Ok 0%Z
    | Raise e => Raise e
    end
  end.

(** One iteration of the loop over [enumerate(elements)]. *)
Definition build_step (st : BuildState) (i : nat) (el : Element) : result BuildState :=
  let category := py_or (py_or (dict_get el (u "category")) (dict_get el (u "type")))
                        (PStr []) in
  let category := match category with PStr s => PStr (strip s) | _ => category end in
  block_type <- _block_type category ;;
  let text := coerce_text (dict_get_or el (u "text") (PStr [])) in
  page <- coerce_page (py_or (dict_get el (u "page_number")) (dict_get el (u "page"))) ;;
  bbox <- _bbox_from_element el ;;
  let current_section_id :=
    if bool_decide (block_type = Title) then _slug (PStr text) else current_section_id st in
  let current_section_title :=
    if bool_decide (block_type = Title) then strip text else current_section_title st in
  let idx_in_section := (default 0 (section_block_index st !! current_section_id) + 1)%Z in
  let section_block_index := <[current_section_id := idx_in_section]> (section_block_index st) in
  let chunk_id := u "page_" ++ dec page ++ u "_section_" ++ current_section_id
                  ++ u "_" ++ dec03 idx_in_section in
  let block_index_in_page := (default 0 (page_counter st !! page) + 1)%Z in
  let page_counter := <[page := block_index_in_page]> (page_counter st) in
  let norm_text := _normalize_text (PStr text) in
  let noise := _is_noise block_type text current_section_title in
  Ok {| out_blocks := out_blocks st ++ [
          {| block_id := u "block_" ++ dec (Z.of_nat i);
             btype := block_type;
             text := text;
             page := page;
             bbox := bbox;
             section_id := str_or current_section_id basliksiz;
             section_title := str_or current_section_title [];
             hierarchy_level := _hierarchy_level block_type;
             chunk_id := chunk_id;
             block_index_in_page := block_index_in_page;
             is_noise := noise;
             normalized_text := norm_text |}];
        current_section_id := current_section_id;
        current_section_title := current_section_title;
        page_counter := page_counter;
        section_block_index := section_block_index |}.

Fixpoint build_loop (i : nat) (elements : list Element) (st : BuildState)
    : result BuildState :=
  match elements with
  | [] => Ok st
  | el :: rest => st' <- build_step st i el ;; build_loop (S i) rest st'
  end.

Definition extract_structure (elements : list Element) : result Extraction :=
  st <- build_loop 0 elements build_init ;;
  Ok {| document_type := u "unknown";
        blocks := _mark_boilerplate_noise (out_blocks st) |}.

End Builder.

(** *** The chunk assembler *)

Definition _should_discard_toc (block : Block) : bool :=
  if negb (bool_decide (btype block = Other)) then false else
  let t := strip (str_or (text block) []) in
  if bool_decide (t = []) then true else
  if isdigit t then true else
  let lower := lower t in
  if contains (u "içindekiler") lower || contains (u "contents") lower then true else
  if search (Rep (chr 0x2E) 4 None) t then true else
  false.

Module Chunk.
Record t := {
  title : ustr;
  content : ustr;
  page : Z;
  section_id : ustr;
  section_title : ustr;
  chunk_id : ustr;
  block_ids : list ustr;
}.
End Chunk.

Definition content_types : list BlockType := [Paragraph; ListItem; Table].

Definition is_content (b : Block) : bool :=
  bool_decide (btype b ∈ content_types).

Definition is_title (b : Block) : bool := bool_decide (btype b = Title).

(** [b.get("is_noise") or _should_discard_toc(b)] *)
Definition skipped (b : Block) : bool := is_noise b || _should_discard_toc b.

(** The inner [while j < len(blocks)] loop, the same in both branches. The
    cursor [j] is the suffix [blocks[j:]]; the loop ends at a title or at the
    end of the list and gives back the two lists and the cursor. *)
Fixpoint collect (rest : list Block) (content_parts block_ids : list ustr)
    : list ustr * list ustr * list Block :=
  match rest with
  | [] => (content_parts, block_ids, [])
  | nb :: rest' =>
    if is_title nb then (content_parts, block_ids, rest)
    else if skipped nb then collect rest' content_parts block_ids
    else if is_content nb
    then collect rest' (content_parts ++ [strip (str_or (text nb) [])])
                       (block_ids ++ [block_id nb])
    else collect rest' content_parts block_ids
  end.

Definition make_chunk (title : ustr) (content_parts block_ids : list ustr) (b : Block)
    : Chunk.t :=
  {| Chunk.title := title;
     Chunk.content := join [0x0A; 0x0A] content_parts;
     Chunk.page := page b;
     Chunk.section_id := section_id b;
     Chunk.section_title := section_title b;
     Chunk.chunk_id := chunk_id b;
     Chunk.block_ids := block_ids |}.

(** Lines 293-294: a heading that looks like an author or a name. *)
Definition short_title (title_text : ustr) : bool :=
  (length title_text <? 4)%nat
  || (negb (contains (u " ") title_text) && (length title_text <? 20)%nat).

(** The outer [while i < len(blocks)] loop; the cursor [i] is the suffix
    [blocks[i:]]. Every iteration moves the cursor forward, so [fuel] as large
    as the list is never used up ([chunk_loop_fuel] below). *)
Fixpoint chunk_loop (fuel : nat) (rest : list Block) (chunks : list Chunk.t)
    : list Chunk.t :=
  match fuel, rest with
  | O, _ => chunks
  | _, [] => chunks
  | S fuel', b :: rest' =>
    if skipped b then chunk_loop fuel' rest' chunks
    else if is_title b then
      let title_text := strip (str_or (text b) []) in
      if short_title title_text then chunk_loop fuel' rest' chunks
      else
        let '(content_parts, block_ids, rest'') := collect rest' [] [block_id b] in
        chunk_loop fuel' rest''
          (match content_parts with
           | [] => chunks
           | _ => chunks ++ [make_chunk title_text content_parts block_ids b]
           end)
    else if is_content b && negb (skipped b) then
      let '(content_parts, block_ids, rest'') :=
        collect rest' [strip (str_or (text b) [])] [block_id b] in
      chunk_loop fuel' rest'' (chunks ++ [make_chunk [] content_parts block_ids b])
    else chunk_loop fuel' rest' chunks
  end.

Definition get_embedding_chunks (result : Extraction) : list Chunk.t :=
  chunk_loop (length (blocks result)) (blocks result) [].

(** The builtins on text that is already composed and where no field needs a
    parser: NFC changes nothing there. *)
Definition composed_text_builtins : Builtins :=
  {| nfc := fun s => s;
     str_of := fun _ => [];
     int_of_str := fun _ => None;
     float_of_str := fun _ => None |}.

Definition sample : list Element :=
  [ [(u "category", PStr (u "Title")); (u "text", PStr (u "Giriş")); (u "page_number", PInt 1)];
    [(u "category", PStr (u "NarrativeText")); (u "text", PStr (u "Bu bir paragraf."));
     (u "page_number", PInt 1)] ].

(** * Specification vocabulary

    What the statements below are written with: the conditions, measures and
    worked inputs of the properties. *)

Definition collapse_ws (s : ustr) : ustr := strip (join (u " ") (split s)).

Definition no_space (t : ustr) : Prop := Forall (fun c => is_space c = false) t.
Definition token (t : ustr) : Prop := t <> [] /\ no_space t.

Definition is_str (v : PyVal) : bool :=
  match v with PStr _ => true | _ => false end.

(** Pages of the blocks that share a normalized text. *)
Definition pages_sharing (bs : list Block) (nt : ustr) : gset Z :=
  list_to_set (map page (filter (fun b => normalized_text b = nt) bs)).

(** The condition the pass flags a block on. *)
Definition boilerplate (bs : list Block) (b : Block) : bool :=
  (25 <=? length (normalized_text b))%nat
  && (3 <=? size (pages_sharing bs (normalized_text b)))%nat.

Definition widen (bs : list Block) (b : Block) : Block :=
  if boilerplate bs b then set_noise b else b.

(** Indices, counted from [idx], of the blocks of [bs] grouped under [nt]. *)
Fixpoint hits (nt : ustr) (idx : nat) (bs : list Block) : list nat :=
  match bs with
  | [] => []
  | b :: rest =>
    (if bool_decide (normalized_text b = nt) && (25 <=? length nt)%nat then [idx] else [])
      ++ hits nt (S idx) rest
  end.

Definition group_of (nt : ustr) (d : list (ustr * list nat)) : list nat :=
  default [] (table_find nt d).

Definition same_pages (acc bs : list Block) : Prop :=
  forall i, page <$> acc !! i = page <$> bs !! i.

Definition marked_by (bs : list Block) (k : nat) (G : list (ustr * list nat)) : bool :=
  existsb (fun e => (3 <=? size (pages_of bs e.2))%nat && bool_decide (k ∈ e.2)) G.

(** A block whose text and id enter a chunk's content. *)
Definition kept (b : Block) : bool := negb (skipped b) && is_content b.

(** [(b.get("text") or "").strip()] *)
Definition stext (b : Block) : ustr := strip (str_or (text b) []).

(** The blocks before the next title, and the list from that title on. *)
Fixpoint run_of (l : list Block) : list Block :=
  match l with
  | [] => []
  | b :: r => if is_title b then [] else b :: run_of r
  end.

Fixpoint after_run (l : list Block) : list Block :=
  match l with
  | [] => []
  | b :: r => if is_title b then l else after_run r
  end.

Definition kept_of (l : list Block) : list Block :=
  filter (fun b => kept b = true) (run_of l).

Definition titled_chunk (b : Block) (l : list Block) : list Chunk.t :=
  match kept_of l with
  | [] => []
  | ks => [make_chunk (stext b) (map stext ks) (block_id b :: map block_id ks) b]
  end.

Definition untitled_chunk (b : Block) (l : list Block) : Chunk.t :=
  make_chunk [] (stext b :: map stext (kept_of l)) (block_id b :: map block_id (kept_of l)) b.

Definition chunks_of (bs : list Block) : list Chunk.t :=
  chunk_loop (length bs) bs [].

(** Neither flagged as noise nor dropped by the table-of-contents rule. *)
Definition clean (b : Block) : Prop :=
  is_noise b = false /\ _should_discard_toc b = false.

(** The chunk's ids are those of [members], blocks of the list in their
    order, all clean; its content is the joined text of the content-typed ones
    among them, and its title is empty or the text of the first of them. *)
Definition built_from (bs : list Block) (c : Chunk.t) : Prop :=
  exists members,
    members `sublist_of` bs /\ Forall clean members
    /\ Chunk.block_ids c = map block_id members
    /\ Chunk.content c
       = join [0x0A; 0x0A] (map stext (filter (fun b => is_content b = true) members))
    /\ (Chunk.title c = [] \/ Chunk.title c = from_option stext [] (head members)).

Definition result_of (bs : list Block) : Extraction :=
  {| document_type := u "unknown"; blocks := bs |}.

(** The section a title opens, and the section in force after a list of
    blocks: the one of its last title, or the sentinel. *)
Definition cursor_step (cur : ustr * ustr) (b : Block) : ustr * ustr :=
  if is_title b then (_slug (PStr (text b)), strip (text b)) else cur.

Definition cursor_after (bs : list Block) : ustr * ustr :=
  foldl cursor_step (basliksiz, []) bs.

(** The nearest title-typed block at or before position [k]. *)
Definition nearest_title (bs : list Block) (k : nat) : option Block :=
  last (filter (fun b => btype b = Title) (take (S k) bs)).

Definition tracked (bs : list Block) : Prop :=
  forall k b, bs !! k = Some b ->
    (section_id b, section_title b) = cursor_after (take (S k) bs).

Definition cursor_inv (st : BuildState) : Prop :=
  (current_section_id st, current_section_title st) = cursor_after (out_blocks st)
  /\ tracked (out_blocks st).

(** Rules 1 to 6 of [_is_noise] let the block through. *)
Definition survives_earlier_rules (block_type : BlockType) (t : ustr) : Prop :=
  block_type <> Footer /\ block_type <> Header
  /\ t <> []
  /\ ((length t <=? 2)%nat && member t (map u ["."; ".."; "-"; "–"; "—"]%string)) = false
  /\ isdigit t = false
  /\ (search _DATE_PATTERN t && (length t <? 80)%nat) = false
  /\ search _COPYRIGHT_PATTERN t = false.

(** The rules of [_is_noise] after the URL rule. *)
Definition rules_after_url (t section_title : ustr) : bool :=
  (negb (bool_decide (section_title = []))
   && member (lower (strip section_title)) _ICINDEKILER_MARKERS)
  || (contains (u "içindekiler") (lower t) && (length t <? 150)%nat)
  || (matches _TOC_LINE_PATTERN t && (length t <? 120)%nat)
  || ((length t <? 120)%nat
      && existsb (fun m => contains m (lower t)) _UI_INSTRUCTION_MARKERS).

(** The count as the specification words it: spaces, commas and semicolons
    only. *)
Definition count_without_periods (t : ustr) : nat :=
  length (filter (fun c => one_of (u " ,;") c = true) t).

Definition bare_link : ustr := u "www.example.com.tr".

Definition paragraph_with (extra : Element) : Element :=
  [(u "category", PStr (u "NarrativeText")); (u "text", PStr (u "Bu bir paragraf."));
   (u "page_number", PInt 1)] ++ extra.

(** Four corner points, the shape the parser's coordinates have. *)
Definition corner_points : PyVal :=
  PList [PList [PInt 0; PInt 0]; PList [PInt 100; PInt 0];
         PList [PInt 100; PInt 20]; PList [PInt 0; PInt 20]].

Definition origin_box : PyVal :=
  PDict [(u "x1", PInt 0); (u "y1", PInt 0); (u "x2", PInt 100); (u "y2", PInt 20)].

Definition inset_box : PyVal :=
  PDict [(u "x1", PInt 5); (u "y1", PInt 5); (u "x2", PInt 100); (u "y2", PInt 20)].

Definition element (category text : string) (page_number : Z) : Element :=
  [(u "category", PStr (u category)); (u "text", PStr (u text));
   (u "page_number", PInt page_number)].

(** A heading whose section holds only a footer and a page number, between
    two sections with text. *)
Definition doc : list Element :=
  [element "Title" "Birinci Bölüm" 1;
   element "NarrativeText" "Bu bir paragraf." 1;
   element "Title" "İkinci Bölüm Başlığı" 2;
   element "Footer" "Sayfa 2" 2;
   element "UncategorizedText" "12" 2;
   element "Title" "Üçüncü Bölüm" 3;
   element "NarrativeText" "Son paragraf burada." 3].

(** A notice repeated on three pages, and a paragraph of its own. *)
Definition notices : list Element :=
  [element "NarrativeText" "Bu belge gizlidir ve dağıtılamaz." 1;
   element "NarrativeText" "Bu belge gizlidir ve dağıtılamaz." 2;
   element "NarrativeText" "Bu belge gizlidir ve dağıtılamaz." 3;
   element "NarrativeText" "Bu bir paragraf." 3].

Definition blocks_of (elements : list Element) : list Block :=
  match @extract_structure composed_text_builtins elements with
  | Ok r => blocks r
  | Raise _ => []
  end.

Definition doc_blocks : list Block := Eval vm_compute in blocks_of doc.

Definition built_blocks (elements : list Element) : list Block :=
  match @build_loop composed_text_builtins 0 elements build_init with
  | Ok st => out_blocks st
  | Raise _ => []
  end.

(** ** Vocabulary of the further properties *)

(** Neither end of the string satisfies [p]. *)
Definition ends_clear (p : N -> bool) (s : ustr) : Prop :=
  (forall c, head s = Some c -> p c = false)
  /\ (forall c, last s = Some c -> p c = false).

(** Length of the run of [p]-characters the string starts with. *)
Fixpoint run_len (p : N -> bool) (s : ustr) : nat :=
  match s with
  | c :: r => if p c then S (run_len p r) else O
  | [] => O
  end.

(** Every maximal run of [p]-characters replaced by [repl]; [inrun] tells
    that the character before was one of the run. *)
Fixpoint squeeze (p : N -> bool) (repl s : ustr) (inrun : bool) : ustr :=
  match s with
  | [] => []
  | c :: r =>
    if p c then (if inrun then squeeze p repl r true else repl ++ squeeze p repl r true)
    else c :: squeeze p repl r false
  end.

(** No two underscores side by side. *)
Fixpoint no_double (s : ustr) : bool :=
  match s with
  | a :: r =>
    match r with
    | b :: _ => negb ((a =? 0x5F) && (b =? 0x5F)) && no_double r
    | [] => true
    end
  | [] => true
  end.

(** The shape of a section id: not empty, lower-case ASCII letters, digits
    and underscores only, no underscore at either end and no two in a row. *)
Definition slug_shaped (s : ustr) : Prop :=
  s <> [] /\ Forall (fun c => slug_char c = true) s
  /\ ends_clear (chr 0x5F) s /\ no_double s = true.

(** Lines 176-178: the category the type is looked up with. *)
Definition category_of (el : Element) : PyVal :=
  let category := py_or (py_or (dict_get el (u "category")) (dict_get el (u "type")))
                        (PStr []) in
  match category with
  | PStr s => PStr (strip s)
  | _ => category
  end.

(** Line 187: the value the page is read from. *)
Definition page_of (el : Element) : PyVal :=
  py_or (dict_get el (u "page_number")) (dict_get el (u "page")).

(** Lines 181-185: the block's text. *)
Definition text_of `{Builtins} (el : Element) : ustr :=
  coerce_text (dict_get_or el (u "text") (PStr [])).


(** How many blocks of the list have the value [a] under [f]. *)
Definition count_same {A} `{EqDecision A} (f : Block -> A) (a : A) (bs : list Block) : nat :=
  length (filter (fun b => f b = a) bs).

(** The block carries the element's coerced fields. *)
Definition carries `{Builtins} (el : Element) (b : Block) : Prop :=
  text b = text_of el
  /\ _block_type (category_of el) = Ok (btype b)
  /\ coerce_page (page_of el) = Ok (page b)
  /\ _bbox_from_element el = Ok (bbox b).

(** The fields the builder derives, for the block at position [k] of [bs];
    the noise flag is the one before the boilerplate pass. *)
Definition derived `{Builtins} (bs : list Block) (k : nat) (b : Block) : Prop :=
  block_id b = u "block_" ++ dec (Z.of_nat k)
  /\ hierarchy_level b = _hierarchy_level (btype b)
  /\ normalized_text b = _normalize_text (PStr (text b))
  /\ block_index_in_page b = Z.of_nat (count_same page (page b) (take (S k) bs))
  /\ chunk_id b
     = u "page_" ++ dec (page b) ++ u "_section_" ++ section_id b ++ u "_"
       ++ dec03 (Z.of_nat (count_same section_id (section_id b) (take (S k) bs))).

Definition counters_inv (st : BuildState) : Prop :=
  (forall p, default 0%Z (page_counter st !! p)
             = Z.of_nat (count_same page p (out_blocks st)))
  /\ (forall sid, default 0%Z (section_block_index st !! sid)
                  = Z.of_nat (count_same section_id sid (out_blocks st))).

Definition builder_inv `{Builtins} (st : BuildState) : Prop :=
  cursor_inv st /\ counters_inv st
  /\ (forall k b, out_blocks st !! k = Some b ->
        derived (out_blocks st) k b
        /\ is_noise b = _is_noise (btype b) (text b) (section_title b)).

Definition ascii_only (s : string) : Prop :=
  Forall (fun b => b < 0x80) (map N_of_ascii (list_ascii_of_string s)).

(** The blocks of a chunk: an anchor [a] that passed the noise and
    table-of-contents tests, and the kept content blocks [ks] after it. The
    anchor is a title that is no bare heading, with at least one block after
    it, or a content block. *)
Definition made_of (c : Chunk.t) (ms : list Block) : Prop :=
  exists a ks,
    ms = a :: ks
    /\ skipped a = false /\ Forall (fun b => kept b = true) ks
    /\ Chunk.block_ids c = map block_id ms
    /\ Chunk.page c = page a /\ Chunk.section_id c = section_id a
    /\ Chunk.section_title c = section_title a /\ Chunk.chunk_id c = chunk_id a
    /\ ((is_title a = true /\ ks <> [] /\ short_title (stext a) = false
         /\ Chunk.title c = stext a
         /\ Chunk.content c = join [0x0A; 0x0A] (map stext ks))
        \/ (is_content a = true /\ Chunk.title c = []
            /\ Chunk.content c = join [0x0A; 0x0A] (map stext ms))).

Definition has_title (l : list Block) : bool := existsb is_title l.

(** The number a run of decimal digits writes. *)
Definition digits_value (s : ustr) : N :=
  fold_left (fun acc c => 10 * acc + (c - 0x30)) s 0.

Definition codes (s : string) : ustr := map N_of_ascii (list_ascii_of_string s).

(** A document with a table of contents, a heading that comes twice, and a
    dotted line of type other. *)
Definition handbook : list Element :=
  [element "Title" "Contents" 1;
   element "NarrativeText" "Bu bir paragraf." 1;
   element "Title" "Giriş" 2;
   element "NarrativeText" "Son paragraf burada." 2;
   element "Title" "Giriş" 3;
   element "NarrativeText" "Bir paragraf daha." 3;
   element "UncategorizedText" "Ek A .... 12" 3].

Definition handbook_blocks : list Block := Eval vm_compute in blocks_of handbook.

Definition notices_blocks : list Block := Eval vm_compute in blocks_of notices.

(** A paragraph of more than 150 characters that holds a date. *)
Definition long_paragraph : ustr :=
  u ("Bu belge 12/05/2023 tarihinde hazırlanmış olup kurumun bütün birimlerinde "
     ++ "uygulanacak olan çalışma esaslarını, görev dağılımını ve sorumlulukları "
     ++ "ayrıntılı olarak açıklamaktadır.")%string.

(** * Properties *)

(** ** Whitespace collapsing *)

Lemma split_go_tokens s cur :
  no_space cur -> Forall token (split_go s cur).
Proof.
  revert cur. induction s as [|c s IH]; intros cur Hcur; simpl.
  - destruct cur; constructor; [split; [discriminate | assumption] | constructor].
  - destruct (is_space c) eqn:Hc.
    + destruct cur as [|x cur'].
      * apply IH. constructor.
      * constructor; [split; [discriminate | assumption] |]. apply IH. constructor.
    + apply IH. apply Forall_app. split; [assumption |]. repeat constructor. exact Hc.
Qed.

Lemma split_tokens s : Forall token (split s).
Proof. apply split_go_tokens. constructor. Qed.

Lemma split_go_run t rest cur :
  no_space t -> split_go (t ++ rest) cur = split_go rest (cur ++ t).
Proof.
  revert cur. induction t as [|c t IH]; intros cur Ht; simpl.
  - by rewrite app_nil_r.
  - inversion Ht as [|? ? Hc Ht']; subst. rewrite Hc, IH by assumption.
    by rewrite <- app_assoc.
Qed.

Lemma split_join ts : Forall token ts -> split (join (u " ") ts) = ts.
Proof.
  unfold split. induction 1 as [|t ts [Hne Ht] Hts IH]; [reflexivity |].
  destruct ts as [|t' ts'].
  - simpl. rewrite <- (app_nil_r t) at 1. rewrite split_go_run by assumption.
    simpl. destruct t; [contradiction | reflexivity].
  - change (join (u " ") (t :: t' :: ts')) with (t ++ u " " ++ join (u " ") (t' :: ts')).
    rewrite split_go_run by assumption. simpl app at 1.
    change (u " ") with [32%N]. simpl.
    destruct t; [contradiction |]. simpl. f_equal. exact IH.
Qed.

Lemma lstrip_by_head p c s : p c = false -> lstrip_by p (c :: s) = c :: s.
Proof. intros H. simpl. by rewrite H. Qed.

Lemma join_head ts : Forall token ts ->
  join (u " ") ts = [] \/ exists c r, join (u " ") ts = c :: r /\ is_space c = false.
Proof.
  destruct 1 as [|t ts [Hne Ht] Hts]; [by left | right].
  destruct t as [|c t]; [contradiction |]. inversion Ht; subst.
  destruct ts; simpl; eauto.
Qed.

Lemma join_last ts : Forall token ts ->
  join (u " ") ts = [] \/ exists c r, rev (join (u " ") ts) = c :: r /\ is_space c = false.
Proof.
  induction 1 as [|t ts [Hne Ht] Hts IH]; [by left | right].
  destruct ts as [|t' ts'].
  - simpl. destruct (rev t) as [|c r] eqn:Hr.
    + apply (f_equal (@rev N)) in Hr. rewrite rev_involutive in Hr. contradiction.
    + exists c, r. split; [reflexivity |].
      assert (Hin : In c (rev t)) by (rewrite Hr; left; reflexivity).
      apply in_rev in Hin. unfold no_space in Ht. rewrite Forall_forall in Ht.
      apply Ht. by apply list_elem_of_In.
  - change (join (u " ") (t :: t' :: ts')) with (t ++ u " " ++ join (u " ") (t' :: ts')).
    rewrite !rev_app_distr.
    destruct IH as [IH | (c & r & Hr & Hc)].
    + exfalso. inversion Hts as [|? ? [Hne' _] _]; subst.
      destruct t'; [contradiction |]. destruct ts'; simpl in IH; discriminate.
    + rewrite Hr. exists c. eexists. split; [reflexivity | exact Hc].
Qed.

Lemma strip_join ts : Forall token ts -> strip (join (u " ") ts) = join (u " ") ts.
Proof.
  intros Hts. unfold strip, strip_by, rstrip_by.
  destruct (join_head ts Hts) as [-> | (c & r & Hj & Hc)]; [reflexivity |].
  rewrite Hj, (lstrip_by_head _ _ _ Hc), <- Hj.
  destruct (join_last ts Hts) as [-> | (c' & r' & Hr & Hc')]; [reflexivity |].
  rewrite Hr, (lstrip_by_head _ _ _ Hc'), <- Hr. apply rev_involutive.
Qed.

Lemma collapse_ws_join s : collapse_ws s = join (u " ") (split s).
Proof. apply strip_join, split_tokens. Qed.

Lemma collapse_ws_idem s : collapse_ws (collapse_ws s) = collapse_ws s.
Proof.
  rewrite (collapse_ws_join s). unfold collapse_ws.
  rewrite split_join by apply split_tokens. apply strip_join, split_tokens.
Qed.

(** C9. The text normalizer returns a string for every value, the empty one
    for [None] and for every value that is no string, and normalizing its own
    result changes nothing. Unicode composition is the interpreter's; the proof
    uses two facts of it: composing twice is composing once, and collapsing the
    white space of composed text leaves it composed. *)
Theorem normalize_text_idempotent (B : Builtins)
    (nfc_idem : forall s, nfc (nfc s) = nfc s)
    (nfc_collapse : forall s, nfc s = s -> nfc (collapse_ws s) = collapse_ws s) :
  (forall v, is_str v = false -> _normalize_text v = [])
  /\ (forall v, _normalize_text (PStr (_normalize_text v)) = _normalize_text v).
Proof.
  split.
  - intros [] Hv; try reflexivity. discriminate.
  - intros v. destruct v as [| | | |[|c t]| | |]; try reflexivity.
    change (_normalize_text (PStr (c :: t))) with (collapse_ws (nfc (c :: t))).
    destruct (collapse_ws (nfc (c :: t))) as [|c' r] eqn:E; [reflexivity |].
    change (_normalize_text (PStr (c' :: r))) with (collapse_ws (nfc (c' :: r))).
    rewrite <- E, nfc_collapse by apply nfc_idem. apply collapse_ws_idem.
Qed.

(** ** The boilerplate pass *)

Lemma ustr_eqb_eq a b : ustr_eqb a b = true <-> a = b.
Proof. unfold ustr_eqb. apply bool_decide_eq_true. Qed.

Lemma group_of_append nt k i d :
  group_of nt (indices_append k i d)
  = if bool_decide (k = nt) then group_of nt d ++ [i] else group_of nt d.
Proof.
  unfold group_of, ustr_eqb. induction d as [|[k' l] d IH]; simpl.
  - unfold ustr_eqb. by case_bool_decide.
  - unfold ustr_eqb in *. destruct (bool_decide (k' = k)) eqn:Hk; simpl; unfold ustr_eqb.
    + apply bool_decide_eq_true in Hk. subst k'.
      destruct (bool_decide (k = nt)); reflexivity.
    + apply bool_decide_eq_false in Hk.
      destruct (bool_decide (k' = nt)) eqn:Hn.
      * apply bool_decide_eq_true in Hn. subst k'.
        rewrite bool_decide_eq_false_2; [reflexivity | congruence].
      * exact IH.
Qed.

Lemma keys_of_append k i d x :
  x ∈ map fst (indices_append k i d) -> x = k \/ x ∈ map fst d.
Proof.
  induction d as [|[k' l] d IH]; cbn [indices_append map fst]; intros Hx.
  - apply list_elem_of_singleton in Hx. by left.
  - destruct (ustr_eqb k' k); cbn [map fst] in Hx;
      apply elem_of_cons in Hx as [-> | Hx]; try (right; by left).
    + right. by right.
    + destruct (IH Hx); [by left | right; by right].
Qed.

Lemma keys_append k i d :
  NoDup (map fst d) -> NoDup (map fst (indices_append k i d)).
Proof.
  induction d as [|[k' l] d IH]; cbn [indices_append map fst]; intros Hd.
  - repeat constructor. by intros ?%elem_of_nil.
  - apply NoDup_cons in Hd as [Hn Hd].
    destruct (ustr_eqb k' k) eqn:E; cbn [map fst].
    + apply NoDup_cons. by split.
    + apply NoDup_cons. split; [| by apply IH].
      intros [-> | Hin]%keys_of_append; [| by apply Hn].
      by rewrite (proj2 (ustr_eqb_eq k k)) in E.
Qed.

Lemma group_loop_keys bs idx d :
  NoDup (map fst d) -> NoDup (map fst (group_loop idx bs d)).
Proof.
  revert idx d. induction bs as [|b bs IH]; intros idx d Hd; simpl; [assumption |].
  apply IH. case_match; [by apply keys_append | assumption].
Qed.

Lemma str_or_nil x : str_or x [] = x.
Proof. by destruct x. Qed.

Lemma group_loop_group nt bs idx d :
  group_of nt (group_loop idx bs d) = group_of nt d ++ hits nt idx bs.
Proof.
  revert idx d. induction bs as [|b bs IH]; intros idx d; cbn [group_loop hits].
  - by rewrite app_nil_r.
  - rewrite IH, str_or_nil. case_bool_decide as Hn; cbn [andb].
    + subst nt. destruct (25 <=? length (normalized_text b))%nat; [| reflexivity].
      rewrite group_of_append, bool_decide_eq_true_2 by reflexivity.
      by rewrite <- app_assoc.
    + destruct (25 <=? length (normalized_text b))%nat; [| reflexivity].
      rewrite group_of_append, bool_decide_eq_false_2 by assumption. reflexivity.
Qed.

Lemma table_find_elem {V} k (t : list (ustr * V)) v :
  table_find k t = Some v -> (k, v) ∈ t.
Proof.
  induction t as [|[k' v'] t IH]; simpl; [discriminate |].
  destruct (ustr_eqb k' k) eqn:E.
  - apply ustr_eqb_eq in E. intros [= ->]. subst. by left.
  - intros H. right. auto.
Qed.

Lemma table_find_nodup {V} k (t : list (ustr * V)) v :
  NoDup (map fst t) -> (k, v) ∈ t -> table_find k t = Some v.
Proof.
  induction t as [|[k' v'] t IH]; simpl; intros Hd Hin.
  - by apply elem_of_nil in Hin.
  - apply NoDup_cons in Hd as [Hn Hd]. apply elem_of_cons in Hin as [[= -> ->] | Hin].
    + by rewrite (proj2 (ustr_eqb_eq k' k')).
    + destruct (ustr_eqb k' k) eqn:E; [| auto].
      apply ustr_eqb_eq in E. subst k'. exfalso. apply Hn.
      change k with (fst (k, v)). by apply list_elem_of_fmap_2.
Qed.

Lemma elem_of_hits i nt idx bs :
  i ∈ hits nt idx bs <->
  exists j b, i = (idx + j)%nat /\ bs !! j = Some b /\ normalized_text b = nt
              /\ (25 <= length nt)%nat.
Proof.
  revert idx. induction bs as [|b bs IH]; intros idx; cbn [hits].
  - split; [by intros ?%elem_of_nil | by intros (j & b & _ & ? & _)].
  - rewrite elem_of_app, IH. split.
    + intros [Hi | (j & b' & -> & Hj & Hn & Hl)].
      * destruct (bool_decide _ && _) eqn:E; [| by apply elem_of_nil in Hi].
        apply list_elem_of_singleton in Hi. subst i.
        apply andb_true_iff in E as [E1 E2]. apply bool_decide_eq_true in E1.
        apply Nat.leb_le in E2. exists O, b. rewrite Nat.add_0_r. auto.
      * exists (S j), b'. repeat split; [lia | assumption..].
    + intros (j & b' & -> & Hj & Hn & Hl). destruct j as [|j]; simpl in Hj.
      * left. injection Hj as ->. rewrite bool_decide_eq_true_2 by assumption.
        rewrite (proj2 (Nat.leb_le _ _) Hl). cbn [andb]. rewrite Nat.add_0_r. by left.
      * right. exists j, b'. repeat split; [lia | assumption..].
Qed.

Lemma set_noise_idem b : set_noise (set_noise b) = set_noise b.
Proof. reflexivity. Qed.

Lemma alter_all_lookup idxs (acc : list Block) k :
  foldl (fun a i => alter set_noise i a) acc idxs !! k
  = if bool_decide (k ∈ idxs) then set_noise <$> acc !! k else acc !! k.
Proof.
  revert acc. induction idxs as [|i idxs IH]; intros acc; cbn [foldl].
  - rewrite bool_decide_eq_false_2; [reflexivity | by intros ?%elem_of_nil].
  - rewrite IH, list_lookup_alter. destruct (decide (i = k)) as [-> | Hne].
    + rewrite (bool_decide_eq_true_2 (k ∈ k :: idxs)) by (by left).
      destruct (acc !! k); simpl; by case_bool_decide.
    + case_bool_decide as Hin.
      * rewrite bool_decide_eq_true_2; [reflexivity | by right].
      * rewrite bool_decide_eq_false_2; [reflexivity |].
        intros [-> | ?]%elem_of_cons; [by apply Hne | by apply Hin].
Qed.

Lemma pages_of_same acc bs idxs :
  same_pages acc bs -> pages_of acc idxs = pages_of bs idxs.
Proof.
  intros H. unfold pages_of. f_equal.
  induction idxs as [|i idxs IH]; [reflexivity |].
  cbn [omap list_omap]. by rewrite H, IH.
Qed.

Lemma mark_group_lookup acc idxs k :
  mark_group acc idxs !! k
  = if (3 <=? size (pages_of acc idxs))%nat && bool_decide (k ∈ idxs)
    then set_noise <$> acc !! k else acc !! k.
Proof.
  unfold mark_group. destruct (3 <=? _)%nat; [| reflexivity].
  apply alter_all_lookup.
Qed.

Lemma mark_group_pages acc bs idxs :
  same_pages acc bs -> same_pages (mark_group acc idxs) bs.
Proof.
  intros H i. rewrite mark_group_lookup, <- H.
  destruct (_ && _); [| reflexivity]. by destruct (acc !! i).
Qed.

Lemma mark_all_lookup bs G acc k :
  same_pages acc bs ->
  foldl (fun a e => mark_group a e.2) acc G !! k
  = if marked_by bs k G then set_noise <$> acc !! k else acc !! k.
Proof.
  revert acc. induction G as [|e G IH]; intros acc Hp; cbn [foldl marked_by existsb].
  - reflexivity.
  - rewrite IH by (by apply mark_group_pages).
    rewrite mark_group_lookup, (pages_of_same acc bs) by assumption.
    fold (marked_by bs k G).
    destruct (_ && _), (marked_by bs k G); cbn [orb]; try reflexivity.
    by destruct (acc !! k).
Qed.

Lemma pages_of_hits bs nt :
  (25 <= length nt)%nat -> pages_of bs (hits nt 0 bs) = pages_sharing bs nt.
Proof.
  intros Hl. unfold pages_of, pages_sharing. apply set_eq. intros z.
  rewrite !elem_of_list_to_set, list_elem_of_omap. change (map page) with (fmap (M:=list) page). rewrite list_elem_of_fmap. split.
  - intros (i & Hi & Hz). apply elem_of_hits in Hi as (j & b & -> & Hj & Hn & _).
    simpl in Hz. rewrite Hj in Hz. injection Hz as <-.
    exists b. split; [reflexivity |]. apply list_elem_of_filter. split; [assumption |].
    by apply list_elem_of_lookup_2 in Hj.
  - intros (b & -> & Hb). apply list_elem_of_filter in Hb as [Hn Hb].
    apply list_elem_of_lookup_1 in Hb as [j Hj]. exists j. split.
    + apply elem_of_hits. exists j, b. auto.
    + by rewrite Hj.
Qed.

Lemma marked_by_groups bs k b :
  bs !! k = Some b -> marked_by bs k (group_loop 0 bs []) = boilerplate bs b.
Proof.
  intros Hk. set (G := group_loop 0 bs []).
  assert (HG : forall nt l, (nt, l) ∈ G -> l = hits nt 0 bs).
  { intros nt l Hin.
    pose proof (group_loop_group nt bs 0 []) as Hg. fold G in Hg.
    unfold group_of in Hg.
    rewrite (table_find_nodup nt G l) in Hg; [exact Hg | | exact Hin].
    apply group_loop_keys. constructor. }
  apply eq_true_iff_eq. unfold marked_by, boilerplate.
  rewrite existsb_exists, andb_true_iff, !Nat.leb_le. split.
  - intros ([nt l] & Hin & He). apply list_elem_of_In in Hin.
    apply andb_true_iff in He as [Hs Hm]. cbn [snd] in Hs, Hm.
    apply Nat.leb_le in Hs. apply bool_decide_eq_true in Hm.
    rewrite (HG _ _ Hin) in Hs, Hm.
    apply elem_of_hits in Hm as (j & b' & -> & Hj & Hn & Hl). simpl in Hk.
    rewrite Hk in Hj. injection Hj as <-. subst nt.
    by rewrite pages_of_hits in Hs.
  - intros [Hl Hs].
    assert (Hh : k ∈ hits (normalized_text b) 0 bs).
    { apply elem_of_hits. exists k, b. auto. }
    pose proof (group_loop_group (normalized_text b) bs 0 []) as Hg. fold G in Hg.
    unfold group_of in Hg. simpl in Hg.
    destruct (table_find (normalized_text b) G) as [l|] eqn:Hf; simpl in Hg.
    + exists (normalized_text b, l). split.
      * apply list_elem_of_In. by apply table_find_elem.
      * cbn [snd]. subst l. rewrite pages_of_hits by assumption.
        apply andb_true_iff. split; [by apply Nat.leb_le | by apply bool_decide_eq_true].
    + rewrite <- Hg in Hh. by apply elem_of_nil in Hh.
Qed.

Lemma mark_boilerplate_widen bs : _mark_boilerplate_noise bs = map (widen bs) bs.
Proof.
  apply list_eq. intros k. unfold _mark_boilerplate_noise.
  rewrite (mark_all_lookup bs) by (intros i; reflexivity).
  change (map (widen bs) bs) with (widen bs <$> bs). rewrite list_lookup_fmap.
  destruct (bs !! k) as [b|] eqn:Hk; [| by destruct (marked_by _ _ _)].
  rewrite (marked_by_groups bs k b Hk).
  change (widen bs <$> Some b) with (Some (widen bs b)).
  unfold widen. by destruct (boilerplate bs b).
Qed.

(** C6. After the boilerplate pass a block is flagged exactly when it was
    flagged before or its normalized text has at least 25 characters and the
    blocks with that same normalized text lie on at least 3 different pages;
    nothing else of a block changes, no flag goes from true to false, and
    where the text spans fewer than 3 pages the flag stays as it was. *)
Theorem boilerplate_pass_widens (bs : list Block) :
  _mark_boilerplate_noise bs = map (widen bs) bs
  /\ map is_noise (_mark_boilerplate_noise bs)
     = map (fun b => is_noise b
                     || ((25 <=? length (normalized_text b))%nat
                         && (3 <=? size (pages_sharing bs (normalized_text b)))%nat)) bs
  /\ Forall2 (fun b b' => is_noise b = true -> is_noise b' = true)
             bs (_mark_boilerplate_noise bs)
  /\ Forall2 (fun b b' => (size (pages_sharing bs (normalized_text b)) < 3)%nat -> b' = b)
             bs (_mark_boilerplate_noise bs).
Proof.
  rewrite mark_boilerplate_widen. split; [reflexivity |]. split; [| split].
  - rewrite map_map. apply map_ext. intros b. unfold widen, boilerplate.
    destruct (_ && _); [by rewrite orb_true_r | by rewrite orb_false_r].
  - apply Forall2_fmap_r, Forall_Forall2_diag, Forall_forall. intros b _ Hb.
    unfold widen. by destruct (boilerplate bs b).
  - apply Forall2_fmap_r, Forall_Forall2_diag, Forall_forall. intros b _ Hb.
    unfold widen, boilerplate. rewrite (proj2 (Nat.leb_gt _ _) Hb).
    by rewrite andb_false_r.
Qed.

(** ** The chunk assembler *)

Lemma collect_spec l parts ids :
  collect l parts ids
  = (parts ++ map stext (kept_of l), ids ++ map block_id (kept_of l), after_run l).
Proof.
  unfold kept_of. revert parts ids. induction l as [|nb l IH]; intros parts ids; cbn [collect run_of after_run].
  - by rewrite filter_nil, !app_nil_r.
  - destruct (is_title nb) eqn:Ht.
    + by rewrite filter_nil, !app_nil_r.
    + destruct (skipped nb) eqn:Hs.
      * rewrite IH, filter_cons_False; [reflexivity |]. unfold kept. by rewrite Hs.
      * destruct (is_content nb) eqn:Hc.
        -- rewrite IH, filter_cons_True by (unfold kept; by rewrite Hs, Hc).
           cbn [map]. by rewrite <- !app_assoc.
        -- rewrite IH, filter_cons_False; [reflexivity |].
           unfold kept. rewrite Hs, Hc. discriminate.
Qed.

Lemma after_run_length l : (length (after_run l) <= length l)%nat.
Proof.
  induction l as [|b l IH]; cbn [after_run]; [lia |].
  destruct (is_title b); simpl; lia.
Qed.

Lemma chunk_loop_step fuel b l acc :
  chunk_loop (S fuel) (b :: l) acc =
  if skipped b then chunk_loop fuel l acc
  else if is_title b then
    if short_title (stext b) then chunk_loop fuel l acc
    else chunk_loop fuel (after_run l) (acc ++ titled_chunk b l)
  else if is_content b then chunk_loop fuel (after_run l) (acc ++ [untitled_chunk b l])
  else chunk_loop fuel l acc.
Proof.
  cbn [chunk_loop]. rewrite !collect_spec.
  destruct (skipped b); [reflexivity |]. destruct (is_title b).
  - fold (stext b). destruct (short_title (stext b)); [reflexivity |].
    unfold titled_chunk. cbn [app]. destruct (kept_of l); [by rewrite app_nil_r | reflexivity].
  - destruct (is_content b); reflexivity.
Qed.

(** The loop never runs out of fuel: any two supplies at least as large as
    the list give the same chunks. *)
Lemma chunk_loop_fuel_any n : forall l f1 f2 acc,
  (length l <= n)%nat -> (length l <= f1)%nat -> (length l <= f2)%nat ->
  chunk_loop f1 l acc = chunk_loop f2 l acc.
Proof.
  induction n as [|n IH]; intros l f1 f2 acc Hn H1 H2.
  - destruct l; [| simpl in Hn; lia]. by destruct f1, f2.
  - destruct l as [|b l]; [by destruct f1, f2 |].
    destruct f1 as [|f1]; [simpl in H1; lia |].
    destruct f2 as [|f2]; [simpl in H2; lia |].
    simpl in Hn, H1, H2. pose proof (after_run_length l).
    rewrite !chunk_loop_step.
    repeat case_match; apply IH; lia.
Qed.

Lemma chunk_loop_fuel fuel l acc :
  (length l <= fuel)%nat -> chunk_loop fuel l acc = chunk_loop (length l) l acc.
Proof. intros. apply (chunk_loop_fuel_any (length l)); lia. Qed.

Lemma chunk_loop_acc fuel : forall l acc,
  chunk_loop fuel l acc = acc ++ chunk_loop fuel l [].
Proof.
  induction fuel as [|fuel IH]; intros l acc.
  - simpl. by rewrite app_nil_r.
  - destruct l as [|b l]; [simpl; by rewrite app_nil_r |].
    rewrite !chunk_loop_step.
    repeat case_match; try apply IH.
    + rewrite IH, (IH _ ([] ++ _)). by rewrite app_assoc.
    + rewrite IH, (IH _ ([] ++ _)). by rewrite app_assoc.
Qed.

Lemma chunks_of_nil : chunks_of [] = [].
Proof. reflexivity. Qed.

Lemma chunks_of_cons b l :
  chunks_of (b :: l) =
  if skipped b then chunks_of l
  else if is_title b then
    if short_title (stext b) then chunks_of l
    else titled_chunk b l ++ chunks_of (after_run l)
  else if is_content b then untitled_chunk b l :: chunks_of (after_run l)
  else chunks_of l.
Proof.
  unfold chunks_of. cbn [length]. rewrite chunk_loop_step.
  pose proof (after_run_length l).
  repeat case_match; try reflexivity.
  - rewrite chunk_loop_acc, chunk_loop_fuel by lia. reflexivity.
  - rewrite chunk_loop_acc, chunk_loop_fuel by lia. reflexivity.
Qed.

(** Strong induction along the cursor of the outer loop. *)
Lemma cursor_ind (P : list Block -> Prop) :
  P [] ->
  (forall b l, P l -> P (after_run l) -> P (b :: l)) ->
  forall l, P l.
Proof.
  intros Hnil Hcons l.
  assert (H : forall n l', (length l' <= n)%nat -> P l').
  { induction n as [|n IH]; intros l' Hl.
    - destruct l'; [exact Hnil | simpl in Hl; lia].
    - destruct l' as [|b l']; [exact Hnil |]. simpl in Hl.
      pose proof (after_run_length l'). apply Hcons; apply IH; lia. }
  apply (H (length l)). lia.
Qed.

Lemma skipped_false_clean b : skipped b = false -> clean b.
Proof. unfold skipped, clean. intros H. by apply orb_false_iff in H. Qed.

Lemma title_not_content b : is_title b = true -> is_content b = false.
Proof.
  unfold is_title, is_content, content_types. intros H.
  apply bool_decide_eq_true in H. rewrite H. reflexivity.
Qed.

Lemma run_of_sublist l : run_of l `sublist_of` l.
Proof.
  induction l as [|b l IH]; cbn [run_of]; [constructor |].
  destruct (is_title b); [apply sublist_nil_l | by constructor].
Qed.

Lemma after_run_sublist l : after_run l `sublist_of` l.
Proof.
  induction l as [|b l IH]; cbn [after_run]; [constructor |].
  destruct (is_title b); [reflexivity | by constructor].
Qed.

Lemma kept_of_sublist l : kept_of l `sublist_of` l.
Proof.
  unfold kept_of. etransitivity; [apply sublist_filter; apply _ | apply run_of_sublist].
Qed.

Lemma kept_of_kept l : Forall (fun b => kept b = true) (kept_of l).
Proof.
  unfold kept_of. apply Forall_forall. intros b Hb.
  by apply list_elem_of_filter in Hb as [Hk _].
Qed.

Lemma filter_all {A} (P : A -> Prop) `{forall x, Decision (P x)} (l : list A) :
  Forall P l -> filter P l = l.
Proof.
  induction 1 as [|x l Hx Hl IH]; [reflexivity |].
  by rewrite filter_cons_True, IH.
Qed.

Lemma kept_clean b : kept b = true -> clean b.
Proof.
  unfold kept. intros [Hs _]%andb_true_iff. apply skipped_false_clean.
  by apply negb_true_iff.
Qed.

Lemma kept_content b : kept b = true -> is_content b = true.
Proof. unfold kept. by intros [_ Hc]%andb_true_iff. Qed.

Lemma built_from_mono bs bs' c :
  bs `sublist_of` bs' -> built_from bs c -> built_from bs' c.
Proof.
  intros Hs (ms & Hm & Hrest). exists ms. split; [| exact Hrest].
  by etransitivity.
Qed.

Lemma anchored_members b l :
  skipped b = false ->
  (b :: kept_of l) `sublist_of` (b :: l) /\ Forall clean (b :: kept_of l).
Proof.
  intros Hs. split.
  - apply sublist_skip, kept_of_sublist.
  - constructor; [by apply skipped_false_clean |].
    eapply Forall_impl; [apply kept_of_kept | apply kept_clean].
Qed.

Lemma kept_of_content l :
  filter (fun b => is_content b = true) (kept_of l) = kept_of l.
Proof.
  apply filter_all. eapply Forall_impl; [apply kept_of_kept | apply kept_content].
Qed.

(** C10. Every chunk that [get_embedding_chunks] returns is built from blocks
    of the list, in their order, none of which is flagged as noise or matches
    the table-of-contents discard rule: its [block_ids] are exactly the ids of
    those blocks, its content is the joined text of the content-typed ones
    among them and its title, if any, is the text of the first. So every id
    in a chunk is the id of such a block. *)
Theorem chunks_use_clean_blocks (r : Extraction) :
  Forall (built_from (blocks r)) (get_embedding_chunks r)
  /\ (forall c id, c ∈ get_embedding_chunks r -> id ∈ Chunk.block_ids c ->
      exists b, b ∈ blocks r /\ block_id b = id
                /\ is_noise b = false /\ _should_discard_toc b = false).
Proof.
  assert (Hall : Forall (built_from (blocks r)) (get_embedding_chunks r)).
  { change (Forall (built_from (blocks r)) (chunks_of (blocks r))).
    generalize (blocks r) as l. intros l.
    induction l as [| b l IHl IHr] using cursor_ind; [constructor |].
    assert (Hl : Forall (built_from (b :: l)) (chunks_of l)).
    { eapply Forall_impl; [exact IHl |]. intros c. apply built_from_mono. by constructor. }
    assert (Hr : Forall (built_from (b :: l)) (chunks_of (after_run l))).
    { eapply Forall_impl; [exact IHr |]. intros c. apply built_from_mono.
      constructor. apply after_run_sublist. }
    rewrite chunks_of_cons.
    destruct (skipped b) eqn:Hs; [exact Hl |].
    destruct (anchored_members b l Hs) as [Hsub Hclean].
    destruct (is_title b) eqn:Ht.
    - destruct (short_title (stext b)); [exact Hl |].
      apply Forall_app. split; [| exact Hr].
      unfold titled_chunk. destruct (kept_of l) as [|k ks] eqn:Hk; [constructor |].
      repeat constructor. exists (b :: k :: ks). rewrite <- Hk in *.
      split; [exact Hsub |]. split; [exact Hclean |]. split; [reflexivity |].
      split; [| by right].
      rewrite filter_cons_False, kept_of_content; [reflexivity |].
      rewrite (title_not_content b Ht). discriminate.
    - destruct (is_content b) eqn:Hc; [| exact Hl].
      constructor; [| exact Hr].
      exists (b :: kept_of l).
      split; [exact Hsub |]. split; [exact Hclean |]. split; [reflexivity |].
      split; [| by left].
      rewrite filter_cons_True, kept_of_content by assumption. reflexivity. }
  split; [exact Hall |].
  intros c id Hc Hid. rewrite Forall_forall in Hall.
  destruct (Hall c Hc) as (ms & Hsub & Hclean & Hids & _ & _).
  rewrite Hids in Hid. change (map block_id ms) with (block_id <$> ms) in Hid.
  apply list_elem_of_fmap in Hid as (b & -> & Hb).
  exists b. rewrite Forall_forall in Hclean. destruct (Hclean b Hb) as [Hn Ht].
  split; [| by repeat split]. by apply (elem_of_sublist ms).
Qed.

(** ** Headings without content *)

Lemma run_of_app_title l t rest :
  is_title t = true -> run_of (l ++ t :: rest) = run_of l.
Proof.
  intros Ht. induction l as [|b l IH]; cbn [app run_of].
  - by rewrite Ht.
  - destruct (is_title b); [reflexivity | by rewrite IH].
Qed.

Lemma after_run_app_title l t rest :
  is_title t = true -> after_run (l ++ t :: rest) = after_run l ++ t :: rest.
Proof.
  intros Ht. induction l as [|b l IH]; cbn [app after_run].
  - by rewrite Ht.
  - destruct (is_title b); [reflexivity | exact IH].
Qed.

Lemma chunks_of_app_title l t rest :
  is_title t = true -> chunks_of (l ++ t :: rest) = chunks_of l ++ chunks_of (t :: rest).
Proof.
  intros Ht. induction l as [| b l IHl IHr] using cursor_ind; [reflexivity |].
  cbn [app]. rewrite !(chunks_of_cons b).
  unfold titled_chunk, untitled_chunk, kept_of.
  rewrite !run_of_app_title, !after_run_app_title, IHl, IHr by assumption.
  repeat case_match; try reflexivity; by rewrite <- ?app_assoc.
Qed.

Lemma chunks_of_unkept mid rest :
  Forall (fun b => is_title b = false /\ kept b = false) mid ->
  chunks_of (mid ++ rest) = chunks_of rest.
Proof.
  induction 1 as [|b mid [Ht Hk] Hmid IH]; [reflexivity |].
  cbn [app]. rewrite chunks_of_cons, Ht, IH. unfold kept in Hk.
  destruct (skipped b); [reflexivity |]. cbn [negb andb] in Hk. by rewrite Hk.
Qed.

Lemma run_until_title mid rest :
  Forall (fun b => btype b <> Title) mid ->
  (forall t', head rest = Some t' -> btype t' = Title) ->
  run_of (mid ++ rest) = mid /\ after_run (mid ++ rest) = rest.
Proof.
  intros Hmid Hrest. induction Hmid as [|b mid Hb Hmid IH]; cbn [app run_of after_run].
  - destruct rest as [|t' rest]; [done |]. cbn [run_of after_run].
    unfold is_title. rewrite bool_decide_eq_true_2; [done |]. by apply Hrest.
  - unfold is_title. rewrite bool_decide_eq_false_2 by assumption.
    destruct IH as [-> ->]. done.
Qed.

(** C7. A title block followed, up to the next title or the end of the list,
    only by blocks that are noise, match the table-of-contents discard rule or
    are of no content type (so by no surviving paragraph, list item or table)
    gives no chunk: the chunks of the whole list are the chunks of the blocks
    before that title followed by the chunks of the blocks from the next title
    on. *)
Theorem heading_without_content_no_chunk
    (r : Extraction) (pre mid rest : list Block) (t : Block) :
  blocks r = pre ++ t :: mid ++ rest ->
  btype t = Title ->
  Forall (fun b => btype b <> Title) mid ->
  (forall t', head rest = Some t' -> btype t' = Title) ->
  Forall (fun b => is_noise b = true \/ _should_discard_toc b = true
                   \/ btype b ∉ content_types) mid ->
  get_embedding_chunks r
  = get_embedding_chunks (result_of pre) ++ get_embedding_chunks (result_of rest).
Proof.
  intros Hr Ht Hmid Hrest Hskip.
  change (chunks_of (blocks r) = chunks_of pre ++ chunks_of rest).
  assert (Htt : is_title t = true) by (by apply bool_decide_eq_true).
  assert (Hun : Forall (fun b => is_title b = false /\ kept b = false) mid).
  { apply Forall_forall. intros b Hb. rewrite Forall_forall in Hmid, Hskip. split.
    - apply bool_decide_eq_false. by apply Hmid.
    - unfold kept, skipped, is_content.
      destruct (Hskip b Hb) as [-> | [-> | Hc]]; [reflexivity | |].
      + by rewrite orb_true_r.
      + rewrite (bool_decide_eq_false_2 _ Hc). apply andb_false_r. }
  rewrite Hr, chunks_of_app_title by assumption. f_equal.
  destruct (run_until_title mid rest Hmid Hrest) as [Hrun Hafter].
  rewrite chunks_of_cons, Htt, Hafter.
  assert (Hnone : titled_chunk t (mid ++ rest) = []).
  { unfold titled_chunk, kept_of. rewrite Hrun.
    replace (filter (fun b => kept b = true) mid) with (@nil Block); [reflexivity |].
    clear -Hun. induction Hun as [|b mid [_ Hb] _ IH]; [reflexivity |].
    rewrite filter_cons_False; [exact IH |]. by rewrite Hb. }
  rewrite Hnone, chunks_of_unkept by assumption.
  repeat case_match; reflexivity.
Qed.

(** ** The structure builder *)

Lemma slug_nonempty v : _slug v <> [].
Proof.
  unfold _slug. destruct v as [| | | |[|c t]| | |]; try discriminate.
  cbv zeta. by case_match.
Qed.

Lemma slug_blank t : strip t = [] -> _slug (PStr t) = basliksiz.
Proof.
  intros H. destruct t as [|c t]; [reflexivity |].
  unfold _slug. rewrite H. reflexivity.
Qed.

Lemma cursor_after_snoc bs b :
  cursor_after (bs ++ [b]) = cursor_step (cursor_after bs) b.
Proof. unfold cursor_after. by rewrite foldl_snoc. Qed.

Lemma cursor_after_nonempty bs : (cursor_after bs).1 <> [].
Proof.
  induction bs as [|b bs IH] using rev_ind; [discriminate |].
  rewrite cursor_after_snoc. unfold cursor_step.
  destruct (is_title b); [apply slug_nonempty | exact IH].
Qed.

Lemma cursor_after_last bs :
  cursor_after bs =
  match last (filter (fun b => btype b = Title) bs) with
  | Some t => (_slug (PStr (text t)), strip (text t))
  | None => (basliksiz, [])
  end.
Proof.
  induction bs as [|b bs IH] using rev_ind; [reflexivity |].
  rewrite cursor_after_snoc, filter_app. unfold cursor_step, is_title.
  case_bool_decide as Hb.
  - rewrite filter_cons_True, filter_nil by assumption. by rewrite last_snoc.
  - rewrite filter_cons_False, filter_nil, app_nil_r by assumption. exact IH.
Qed.

Lemma cursor_after_fmap (f : Block -> Block) bs :
  (forall b, btype (f b) = btype b /\ text (f b) = text b) ->
  cursor_after (f <$> bs) = cursor_after bs.
Proof.
  intros Hf. induction bs as [|b bs IH] using rev_ind; [reflexivity |].
  rewrite fmap_app. cbn [fmap list_fmap]. rewrite !cursor_after_snoc, IH.
  unfold cursor_step, is_title. destruct (Hf b) as [-> ->]. reflexivity.
Qed.

Lemma widen_fields bs b :
  btype (widen bs b) = btype b /\ text (widen bs b) = text b
  /\ section_id (widen bs b) = section_id b
  /\ section_title (widen bs b) = section_title b.
Proof. unfold widen. by destruct (boilerplate bs b). Qed.

Section BuilderFacts.
Context {B : Builtins}.

Lemma build_step_appends st i el st' :
  build_step st i el = Ok st' ->
  exists nb, out_blocks st' = out_blocks st ++ [nb]
    /\ (current_section_id st', current_section_title st')
       = cursor_step (current_section_id st, current_section_title st) nb
    /\ section_id nb = str_or (current_section_id st') basliksiz
    /\ section_title nb = str_or (current_section_title st') [].
Proof.
  unfold build_step.
  destruct (_block_type _) as [bt|]; [| discriminate]. cbn [bind].
  destruct (coerce_page _) as [pg|]; [| discriminate]. cbn [bind].
  destruct (_bbox_from_element el) as [bb|]; [| discriminate]. cbn [bind].
  intros [= <-]. eexists. split; [reflexivity |].
  unfold cursor_step, is_title.
  cbn [current_section_id current_section_title section_id section_title btype text].
  by case_bool_decide.
Qed.

Lemma build_step_inv st i el st' :
  cursor_inv st -> build_step st i el = Ok st' ->
  cursor_inv st' /\ length (out_blocks st') = S (length (out_blocks st)).
Proof.
  intros [Hcur Htr] Hstep.
  destruct (build_step_appends _ _ _ _ Hstep) as (nb & Hout & Hc & Hid & Htitle).
  assert (Hcur' : (current_section_id st', current_section_title st')
                  = cursor_after (out_blocks st')).
  { by rewrite Hout, cursor_after_snoc, <- Hcur. }
  split; [split; [exact Hcur' |] | rewrite Hout, length_app; simpl; lia].
  intros k b Hk. rewrite Hout in Hk |- *.
  destruct (decide (k < length (out_blocks st))%nat) as [Hlt | Hge].
  - rewrite lookup_app_l in Hk by assumption.
    rewrite take_app_le by lia. by apply Htr.
  - apply lookup_lt_Some in Hk as Hlen. rewrite length_app in Hlen. simpl in Hlen.
    assert (k = length (out_blocks st)) as -> by lia.
    rewrite list_lookup_middle in Hk by reflexivity. injection Hk as <-.
    rewrite take_ge by (rewrite length_app; simpl; lia).
    rewrite <- Hout, <- Hcur', Hid, Htitle.
    assert (Hne : current_section_id st' <> []).
    { change (current_section_id st')
        with (current_section_id st', current_section_title st').1.
      rewrite Hcur'. apply cursor_after_nonempty. }
    destruct (current_section_id st'); [contradiction |].
    by destruct (current_section_title st').
Qed.

Lemma build_loop_inv elements : forall i st st',
  cursor_inv st -> build_loop i elements st = Ok st' ->
  cursor_inv st'
  /\ length (out_blocks st') = (length (out_blocks st) + length elements)%nat.
Proof.
  induction elements as [|el rest IH]; intros i st st' Hinv Hloop; cbn [build_loop] in Hloop.
  - injection Hloop as <-. split; [assumption | simpl; lia].
  - destruct (build_step st i el) as [st1|] eqn:Hstep; [| discriminate].
    cbn [bind] in Hloop.
    destruct (build_step_inv _ _ _ _ Hinv Hstep) as [Hinv1 Hlen1].
    destruct (IH _ _ _ Hinv1 Hloop) as [Hinv' Hlen'].
    split; [assumption | simpl; lia].
Qed.

Lemma build_init_inv : cursor_inv build_init.
Proof. split; [reflexivity |]. intros k b Hk. by destruct k. Qed.

Lemma extract_structure_blocks elements r :
  extract_structure elements = Ok r ->
  exists bs, blocks r = widen bs <$> bs /\ tracked bs /\ length bs = length elements.
Proof.
  unfold extract_structure.
  destruct (build_loop 0 elements build_init) as [st|] eqn:Hloop; [| discriminate].
  cbn [bind]. intros [= <-]. cbn [blocks].
  destruct (build_loop_inv _ _ _ _ build_init_inv Hloop) as [[_ Htr] Hlen].
  exists (out_blocks st). split; [apply mark_boilerplate_widen |]. by split.
Qed.

(** On elements that give a category, a text and an integer page and no
    bounding box, no step raises. *)
Lemma build_step_element st i category text page_number :
  exists st', build_step st i (element category text page_number) = Ok st'.
Proof.
  unfold build_step.
  assert (Hb : _bbox_from_element (element category text page_number) = Ok None)
    by reflexivity.
  assert (Hc : exists s, py_or (py_or (dict_get (element category text page_number) (u "category"))
                                 (dict_get (element category text page_number) (u "type")))
                        (PStr []) = PStr s).
  { change (dict_get (element category text page_number) (u "category"))
      with (PStr (u category)).
    change (dict_get (element category text page_number) (u "type")) with PNone.
    unfold py_or. cbn [truthy]. destruct (u category); eauto. }
  assert (Hp : exists z, coerce_page
                 (py_or (dict_get (element category text page_number) (u "page_number"))
                        (dict_get (element category text page_number) (u "page"))) = Ok z).
  { change (dict_get (element category text page_number) (u "page_number"))
      with (PInt page_number).
    change (dict_get (element category text page_number) (u "page")) with PNone.
    unfold py_or. cbn [truthy]. destruct (negb _); eauto. }
  destruct Hc as [s ->]. destruct Hp as [z ->]. rewrite Hb.
  unfold _block_type. cbn [hashable bind]. eauto.
Qed.

Lemma build_loop_elements triples : forall i st,
  exists st',
    build_loop i (map (fun x => element x.1.1 x.1.2 x.2) triples) st = Ok st'.
Proof.
  induction triples as [|[[c t] p] triples IH]; intros i st; cbn [map build_loop fst snd]; [eauto |].
  destruct (build_step_element st i c t p) as [st1 ->]. cbn [bind]. apply IH.
Qed.

(** So [extract_structure] returns on every list of such elements. *)
Lemma extract_structure_returns (triples : list (string * string * Z)) :
  exists r, extract_structure (map (fun x => element x.1.1 x.1.2 x.2) triples) = Ok r.
Proof.
  unfold extract_structure.
  destruct (build_loop_elements triples 0 build_init) as [st ->]. cbn [bind]. eauto.
Qed.

End BuilderFacts.

(** C8. The block list [extract_structure] returns is as long as the element
    list it was given. *)
Theorem block_count_is_element_count
    (B : Builtins) (elements : list Element) (r : Extraction) :
  extract_structure elements = Ok r ->
  length (blocks r) = length elements.
Proof.
  intros Hr. destruct (extract_structure_blocks _ _ Hr) as (bs & -> & _ & Hlen).
  by rewrite length_fmap.
Qed.

(** C3. In the blocks [extract_structure] returns, a block's section id is the
    slug of the text of the nearest title-typed block at or before it and its
    section title is that text trimmed; where no title comes at or before it,
    they are the sentinel id and the empty title. A title whose text is empty
    or white space only sets the section too: its id is the sentinel. *)
Theorem section_tracking
    (B : Builtins) (elements : list Element) (r : Extraction) (k : nat) (b : Block) :
  extract_structure elements = Ok r ->
  blocks r !! k = Some b ->
  match nearest_title (blocks r) k with
  | Some t => section_id b = _slug (PStr (text t)) /\ section_title b = strip (text t)
  | None => section_id b = basliksiz /\ section_title b = []
  end
  /\ (btype b = Title -> strip (text b) = [] ->
      nearest_title (blocks r) k = Some b
      /\ section_id b = basliksiz /\ section_title b = []).
Proof.
  intros Hr Hk. destruct (extract_structure_blocks _ _ Hr) as (bs & Hbs & Htr & _).
  assert (Hcur : (section_id b, section_title b) = cursor_after (take (S k) (blocks r))).
  { rewrite Hbs in Hk |- *. rewrite list_lookup_fmap in Hk.
    destruct (bs !! k) as [b0|] eqn:Hb0; [| discriminate]. injection Hk as <-.
    rewrite <- fmap_take, cursor_after_fmap by (intros x; split; apply widen_fields).
    rewrite <- (Htr k b0 Hb0). f_equal; apply widen_fields. }
  rewrite cursor_after_last in Hcur. fold (nearest_title (blocks r) k) in Hcur.
  split.
  - destruct (nearest_title (blocks r) k); by injection Hcur.
  - intros Hb Hblank.
    assert (Hn : nearest_title (blocks r) k = Some b).
    { unfold nearest_title. rewrite (take_S_r _ _ _ Hk), filter_app.
      rewrite filter_cons_True, filter_nil by assumption. apply last_snoc. }
    rewrite Hn in Hcur. injection Hcur as Hid Htitle.
    rewrite Hid, Htitle. split; [exact Hn |].
    split; [by apply slug_blank | exact Hblank].
Qed.

(** ** The URL rule of the noise classifier *)

(** C4, as amended. For a block that is no header or footer and whose trimmed
    text passes rules 1 to 6: if the text contains a URL marker and fewer than
    3 characters among space, period, comma and semicolon, the classifier
    answers true; with 3 or more of them the URL rule does not apply and the
    answer is that of the later rules. *)
Theorem url_rule_counts_periods (block_type : BlockType) (text section_title : ustr) :
  survives_earlier_rules block_type (strip text) ->
  search _URL_PATTERN (strip text) = true ->
  (forall c, one_of (u " .,;") c = true <-> c ∈ [32; 46; 44; 59])
  /\ ((separator_count (strip text) < 3)%nat ->
      _is_noise block_type text section_title = true)
  /\ ((3 <= separator_count (strip text))%nat ->
      _is_noise block_type text section_title
      = rules_after_url (strip text) section_title).
Proof.
  intros (Hf & Hh & Hne & Hp & Hd & Hdate & Hc) Hurl. split.
  - intros c. change (u " .,;") with [32; 46; 44; 59]. unfold one_of.
    rewrite existsb_exists. split.
    + intros (x & Hx & Hcx). apply N.eqb_eq in Hcx. subst x. by apply list_elem_of_In.
    + intros Hin. exists c. split; [by apply list_elem_of_In | apply N.eqb_refl].
  - assert (Heq : _is_noise block_type text section_title
                  = if search _URL_PATTERN (strip text)
                       && (separator_count (strip text) <? 3)%nat
                    then true else rules_after_url (strip text) section_title).
    { unfold _is_noise. cbv zeta.
      rewrite (bool_decide_eq_false_2 _ Hf), (bool_decide_eq_false_2 _ Hh).
      rewrite (bool_decide_eq_false_2 _ Hne). cbn [orb].
      rewrite Hp, Hd, Hdate, Hc.
      destruct (search _URL_PATTERN (strip text) && _); [reflexivity |].
      unfold rules_after_url.
      repeat match goal with
             | |- context [if ?c then true else _] => destruct c; cbn [orb]; try reflexivity
             end. }
    rewrite Heq, Hurl. cbn [andb]. split; intros Hs.
    + by rewrite (proj2 (Nat.ltb_lt _ _) Hs).
    + by rewrite (proj2 (Nat.ltb_ge _ _) Hs).
Qed.

(** ** Worked inputs *)

Lemma few_pages_unchanged (bs : list Block) :
  (size (list_to_set (map page bs) : gset Z) < 3)%nat ->
  _mark_boilerplate_noise bs = bs.
Proof.
  intros Hfew. rewrite mark_boilerplate_widen.
  rewrite <- (map_id bs) at 3. apply map_ext. intros b.
  unfold widen, boilerplate.
  assert (Hle : (size (pages_sharing bs (normalized_text b))
                 <= size (list_to_set (map page bs) : gset Z))%nat).
  { apply subseteq_size. intros z. unfold pages_sharing.
    rewrite !elem_of_list_to_set.
    change (map page) with (fmap (M:=list) page). rewrite !list_elem_of_fmap.
    intros (x & -> & Hx). exists x. split; [reflexivity |].
    by apply list_elem_of_filter in Hx as [_ Hx]. }
  rewrite (proj2 (Nat.leb_gt 3 _)) by lia. by rewrite andb_false_r.
Qed.

(** C1, as amended. For the two-element input, [extract_structure]
    followed by [get_embedding_chunks] gives exactly one chunk; its title is
    empty, because the heading has fewer than 20 characters and no space and is
    skipped as a bare heading, its content is the paragraph and its page is 1. *)
Theorem sample_gives_one_untitled_chunk (B : Builtins) :
  exists r c,
    extract_structure sample = Ok r
    /\ get_embedding_chunks r = [c]
    /\ Chunk.title c = []
    /\ Chunk.content c = u "Bu bir paragraf."
    /\ Chunk.page c = 1%Z
    /\ Chunk.block_ids c = [u "block_1"]
    /\ short_title (u "Giriş") = true.
Proof.
  unfold extract_structure.
  set (loop := build_loop 0 sample build_init). vm_compute in loop. subst loop.
  cbn [bind out_blocks].
  rewrite few_pages_unchanged by (vm_compute; lia).
  eexists. eexists. split; [reflexivity |].
  vm_compute. repeat split; reflexivity.
Qed.

(** The heading is not the chunk's title: the one chunk has the empty title. *)
Lemma sample_chunk_has_no_title :
  (r <- @extract_structure composed_text_builtins sample ;;
   Ok (map Chunk.title (get_embedding_chunks r))) = Ok [[]]
  /\ ([] : ustr) <> u "Giriş".
Proof. split; [vm_compute; reflexivity | discriminate]. Qed.

(** C2. Three inputs on which [extract_structure] raises: a bounding box given
    as four corner points ([float] of a list), a category that is a list (it
    cannot be hashed for the table lookup), and an infinite page number
    ([int] raises [OverflowError], which the handler does not catch). *)
Theorem malformed_fields_raise (B : Builtins) :
  extract_structure [paragraph_with [(u "bbox", corner_points)]] = Raise TypeError
  /\ extract_structure [[(u "category", PList [PStr (u "Title")])]] = Raise TypeError
  /\ extract_structure [[(u "page_number", PFloat (S754_infinity false))]]
     = Raise OverflowError.
Proof. repeat split; vm_compute; reflexivity. Qed.

(** C5. A dictionary box that gives all four corners, two of them zero, is
    dropped: [0 or None] is [None]. The same box moved off the origin is kept. *)
Theorem zero_corner_drops_bbox (B : Builtins) :
  _bbox_from_element (paragraph_with [(u "bbox", origin_box)]) = Ok None
  /\ (exists r b,
        extract_structure [paragraph_with [(u "bbox", origin_box)]] = Ok r
        /\ blocks r = [b] /\ bbox b = None)
  /\ _bbox_from_element (paragraph_with [(u "bbox", inset_box)])
     = Ok (Some (map (fun z => binary_normalize 53 1024 z 0 false) [5; 5; 100; 20]%Z)).
Proof.
  split; [vm_compute; reflexivity |]. split; [| vm_compute; reflexivity].
  unfold extract_structure.
  set (loop := build_loop 0 _ build_init). vm_compute in loop. subst loop.
  cbn [bind out_blocks]. rewrite few_pages_unchanged by (vm_compute; lia).
  eexists. eexists. split; [reflexivity |]. split; reflexivity.
Qed.

(** Counting without the periods: this bare link has none of space, comma
    and semicolon, yet the classifier lets it through. *)
Lemma bare_link_not_noise :
  survives_earlier_rules Paragraph (strip bare_link)
  /\ search _URL_PATTERN (strip bare_link) = true
  /\ (count_without_periods (strip bare_link) < 3)%nat
  /\ _is_noise Paragraph bare_link [] = false.
Proof.
  split; [| repeat split; vm_compute; (reflexivity || lia)].
  repeat split; try discriminate; vm_compute; (reflexivity || discriminate).
Qed.

(** ** The theorems at concrete inputs *)

Example doc_chunks :
  map (fun c => (Chunk.title c, Chunk.content c, Chunk.block_ids c))
      (get_embedding_chunks (result_of doc_blocks))
  = [(u "Birinci Bölüm", u "Bu bir paragraf.", [u "block_0"; u "block_1"]);
     (u "Üçüncü Bölüm", u "Son paragraf burada.", [u "block_5"; u "block_6"])].
Proof. vm_compute. reflexivity. Qed.

Example notices_flags :
  map is_noise (built_blocks notices) = [false; false; false; false]
  /\ map is_noise (blocks_of notices) = [true; true; true; false].
Proof. split; vm_compute; reflexivity. Qed.

Example slug_examples :
  _slug (PStr (u "Öğrenci Bilgi Sistemi")) = u "ogrenci_bilgi_sistemi"
  /\ _slug (PStr []) = basliksiz /\ _slug PNone = basliksiz
  /\ _slug (PStr (u "   ")) = basliksiz.
Proof. repeat split; vm_compute; reflexivity. Qed.

Example noise_examples :
  _is_noise Paragraph (u "12/05/2023") [] = true
  /\ _is_noise Paragraph (u "Sayfa 12") [] = false
  /\ _is_noise Paragraph (u "www.example.com") [] = true
  /\ _is_noise Paragraph (u "Bu bir paragraf.") (u "Contents") = true.
Proof. repeat split; vm_compute; reflexivity. Qed.

Lemma block_count_witness :
  exists r,
    @extract_structure composed_text_builtins doc = Ok r
    /\ length (blocks r) = length doc.
Proof.
  eexists. split; [vm_compute; reflexivity |].
  apply (block_count_is_element_count composed_text_builtins doc).
  vm_compute. reflexivity.
Defined.

Lemma section_tracking_witness :
  exists r b,
    @extract_structure composed_text_builtins doc = Ok r
    /\ blocks r !! 3%nat = Some b
    /\ section_id b = u "ikinci_bolum_basligi"
    /\ section_title b = u "İkinci Bölüm Başlığı".
Proof.
  eexists. eexists. split; [vm_compute; reflexivity |].
  split; [vm_compute; reflexivity |].
  lazymatch goal with
  | |- section_id ?b = _ /\ _ =>
    destruct (section_tracking composed_text_builtins doc (result_of doc_blocks) 3%nat b)
      as [H _]
  end.
  - vm_compute. reflexivity.
  - vm_compute. reflexivity.
  - vm_compute in H. exact H.
Defined.

Lemma heading_without_content_witness :
  exists t,
    doc_blocks !! 2%nat = Some t
    /\ stext t = u "İkinci Bölüm Başlığı"
    /\ get_embedding_chunks (result_of doc_blocks)
       = get_embedding_chunks (result_of (take 2 doc_blocks))
         ++ get_embedding_chunks (result_of (drop 5 doc_blocks)).
Proof.
  eexists. split; [vm_compute; reflexivity |].
  lazymatch goal with |- stext ?t = _ /\ _ => pose (t0 := t) end.
  split; [vm_compute; reflexivity |].
  apply (heading_without_content_no_chunk (result_of doc_blocks)
           (take 2 doc_blocks) (take 2 (drop 3 doc_blocks)) (drop 5 doc_blocks) t0).
  - vm_compute. reflexivity.
  - reflexivity.
  - unfold doc_blocks. cbn [take drop]. repeat constructor; discriminate.
  - intros t' H. vm_compute in H. injection H as <-. reflexivity.
  - unfold doc_blocks. cbn [take drop].
    repeat (constructor; [left; reflexivity |]). constructor.
Defined.

Lemma normalize_text_witness :
  @_normalize_text composed_text_builtins
    (PStr (@_normalize_text composed_text_builtins (PStr (u "  Bu   bir paragraf. "))))
  = @_normalize_text composed_text_builtins (PStr (u "  Bu   bir paragraf. "))
  /\ @_normalize_text composed_text_builtins (PStr (u "  Bu   bir paragraf. "))
     = u "Bu bir paragraf.".
Proof.
  split; [| vm_compute; reflexivity].
  apply (normalize_text_idempotent composed_text_builtins).
  - intros s. reflexivity.
  - intros s _. reflexivity.
Defined.

Lemma url_rule_witness :
  _is_noise Paragraph (u "www.example.com") [] = true
  /\ _is_noise Paragraph bare_link [] = rules_after_url (strip bare_link) [].
Proof.
  split.
  - refine (proj1 (proj2 (url_rule_counts_periods Paragraph (u "www.example.com") [] _ _)) _).
    + repeat split; try discriminate; vm_compute; (reflexivity || discriminate).
    + vm_compute. reflexivity.
    + vm_compute. lia.
  - refine (proj2 (proj2 (url_rule_counts_periods Paragraph bare_link [] _ _)) _).
    + repeat split; try discriminate; vm_compute; (reflexivity || discriminate).
    + vm_compute. reflexivity.
    + vm_compute. lia.
Defined.

Lemma boilerplate_pass_witness :
  map is_noise (built_blocks notices) = [false; false; false; false]
  /\ map is_noise (_mark_boilerplate_noise (built_blocks notices))
     = [true; true; true; false].
Proof.
  split; [vm_compute; reflexivity |].
  refine (eq_trans (proj1 (proj2 (boilerplate_pass_widens (built_blocks notices)))) _).
  vm_compute. reflexivity.
Defined.

Lemma chunks_use_clean_blocks_witness :
  Forall (built_from doc_blocks) (get_embedding_chunks (result_of doc_blocks)).
Proof. exact (proj1 (chunks_use_clean_blocks (result_of doc_blocks))). Defined.


(** * Further properties of the module *)

(** ** Trimming *)

Lemma lstrip_by_split p s :
  exists a, s = a ++ lstrip_by p s /\ Forall (fun c => p c = true) a.
Proof.
  induction s as [|c s IH]; [by exists [] |]. cbn [lstrip_by].
  destruct (p c) eqn:Hc; [| by exists []].
  destruct IH as (a & Ha & Hp). exists (c :: a). split; [by rewrite Ha at 1 |].
  by constructor.
Qed.

Lemma lstrip_by_clear p s c : head (lstrip_by p s) = Some c -> p c = false.
Proof.
  induction s as [|x s IH]; cbn [lstrip_by]; [discriminate |].
  destruct (p x) eqn:Hx; [exact IH |]. by intros [= <-].
Qed.

Lemma lstrip_by_keep p s :
  (forall c, head s = Some c -> p c = false) -> lstrip_by p s = s.
Proof.
  destruct s as [|c s]; [reflexivity |]. intros H. cbn [lstrip_by].
  by rewrite (H c eq_refl).
Qed.

Lemma last_rev (s : ustr) : last (rev s) = head s.
Proof. destruct s as [|c s]; [reflexivity |]. cbn [rev]. apply last_snoc. Qed.

Lemma head_rev (s : ustr) : head (rev s) = last s.
Proof. by rewrite <- (rev_involutive s) at 2; rewrite last_rev. Qed.

Lemma strip_by_ends p s : ends_clear p (strip_by p s).
Proof.
  unfold strip_by, rstrip_by. set (m := lstrip_by p s).
  destruct (lstrip_by_split p (rev m)) as (a & Ha & _).
  split; intros c Hc.
  - apply (lstrip_by_clear p s). fold m.
    apply (f_equal (@rev N)) in Ha. rewrite rev_involutive, rev_app_distr in Ha.
    rewrite Ha. destruct (rev (lstrip_by p (rev m))); [discriminate | exact Hc].
  - rewrite last_rev in Hc. by apply lstrip_by_clear in Hc.
Qed.

Lemma strip_by_keep p s : ends_clear p s -> strip_by p s = s.
Proof.
  intros [Hh Hl]. unfold strip_by, rstrip_by.
  rewrite (lstrip_by_keep p s Hh), lstrip_by_keep; [apply rev_involutive |].
  intros c. rewrite head_rev. apply Hl.
Qed.

Lemma strip_by_idem p s : strip_by p (strip_by p s) = strip_by p s.
Proof. apply strip_by_keep, strip_by_ends. Qed.

Lemma strip_by_infix p s : exists a b, s = a ++ strip_by p s ++ b.
Proof.
  unfold strip_by, rstrip_by.
  destruct (lstrip_by_split p s) as (a & Ha & _).
  destruct (lstrip_by_split p (rev (lstrip_by p s))) as (b & Hb & _).
  exists a, (rev b). rewrite <- rev_app_distr, <- Hb, rev_involutive. exact Ha.
Qed.

(** ** Substitution of character runs *)

Lemma rep_greedy {A} p (f : ustr -> A) s : forall lo prev,
  rep p lo None prev s (fun _ r => Some (f r))
  = if (lo <=? run_len p s)%nat then Some (f (drop (run_len p s) s)) else None.
Proof.
  induction s as [|c s IH]; intros lo prev; cbn [rep run_len].
  - by destruct lo.
  - destruct (p c) eqn:Hc; cbn [andb may_repeat].
    + rewrite IH. cbn [fmap option_fmap option_map drop].
      destruct lo as [|lo]; cbn [pred Nat.leb at_least]; [reflexivity |].
      by destruct (lo <=? run_len p s)%nat.
    + by destruct lo.
Qed.

Lemma match_len_run p prev s :
  match_len (Rep p 1 None) prev s
  = match run_len p s with O => None | n => Some n end.
Proof.
  unfold match_len. cbn [run]. rewrite rep_greedy.
  assert (Hle : (run_len p s <= length s)%nat).
  { induction s as [|c s IH]; cbn [run_len]; [lia |].
    destruct (p c); simpl; lia. }
  destruct (run_len p s) as [|n] eqn:Hn; [reflexivity |].
  cbn [Nat.leb]. f_equal. rewrite length_drop. lia.
Qed.

Lemma sub_go_squeeze p repl s :
  (forall prev, sub_go (Rep p 1 None) repl prev s (run_len p s) = squeeze p repl s true)
  /\ (forall prev, sub_go (Rep p 1 None) repl prev s O = squeeze p repl s false).
Proof.
  induction s as [|c s [IHa IHb]]; [by split |].
  assert (Hstay : p c = false -> forall prev,
            sub_go (Rep p 1 None) repl prev (c :: s) O = c :: squeeze p repl s false).
  { intros Hc prev. cbn [sub_go]. rewrite match_len_run. cbn [run_len].
    rewrite Hc. by rewrite IHb. }
  split; intros prev; cbn [run_len squeeze]; destruct (p c) eqn:Hc.
  - cbn [sub_go]. apply IHa.
  - by apply Hstay.
  - cbn [sub_go]. rewrite match_len_run. cbn [run_len]. rewrite Hc. by rewrite IHa.
  - by apply Hstay.
Qed.

Lemma sub_squeeze p repl s : sub (Rep p 1 None) repl s = squeeze p repl s false.
Proof. apply sub_go_squeeze. Qed.

Lemma squeeze_chars p repl s (Q : N -> Prop) :
  Forall Q repl -> Forall (fun c => p c = false -> Q c) s ->
  forall inrun, Forall Q (squeeze p repl s inrun).
Proof.
  intros Hrepl Hq. induction Hq as [|c s Hc _ IH]; intros inrun; cbn [squeeze]; [constructor |].
  destruct (p c) eqn:Hpc.
  - destruct inrun; [apply IH | apply Forall_app; split; [exact Hrepl | apply IH]].
  - constructor; [by apply Hc | apply IH].
Qed.

Lemma squeeze_keep p repl s :
  Forall (fun c => p c = false) s -> squeeze p repl s false = s.
Proof.
  induction 1 as [|c s Hc _ IH]; [reflexivity |].
  cbn [squeeze]. by rewrite Hc, IH.
Qed.

(** ** The slug *)

Lemma no_double_cons a b r :
  no_double (a :: b :: r) = negb ((a =? 0x5F) && (b =? 0x5F)) && no_double (b :: r).
Proof. reflexivity. Qed.

Lemma squeeze_no_double s :
  no_double (squeeze (chr 0x5F) [0x5F] s false) = true
  /\ no_double (0x5F :: squeeze (chr 0x5F) [0x5F] s true) = true.
Proof.
  induction s as [|c s [IHa IHb]]; [by split |].
  cbn [squeeze]. destruct (chr 0x5F c) eqn:Hc; [by split |].
  assert (Hne : (c =? 0x5F) = false) by (by rewrite N.eqb_sym).
  revert IHa. generalize (squeeze (chr 0x5F) [0x5F] s false). intros q IHa.
  assert (Hq : no_double (c :: q) = true).
  { destruct q; [reflexivity |]. by rewrite no_double_cons, Hne. }
  split; [exact Hq |]. by rewrite no_double_cons, Hne, andb_false_r.
Qed.

Lemma no_double_app a b : no_double (a ++ b) = true -> no_double a = true /\ no_double b = true.
Proof.
  induction a as [|x a IH]; [by split |]. cbn [app].
  destruct a as [|y a].
  - cbn [app no_double]. destruct b; [by split |].
    intros [_ H]%andb_true_iff. by split.
  - cbn [app no_double] in *. intros [Hxy H]%andb_true_iff.
    destruct (IH H) as [Ha Hb]. split; [| exact Hb]. by rewrite Hxy.
Qed.

Lemma squeeze_single s :
  no_double s = true ->
  squeeze (chr 0x5F) [0x5F] s false = s
  /\ ((forall c, head s = Some c -> c <> 0x5F) -> squeeze (chr 0x5F) [0x5F] s true = s).
Proof.
  induction s as [|c s IH]; [by split |]. intros Hnd.
  assert (Hs : no_double s = true).
  { destruct s; [reflexivity |]. rewrite no_double_cons in Hnd.
    by apply andb_true_iff in Hnd as [_ ?]. }
  destruct (IH Hs) as [IHa IHb]. cbn [squeeze].
  destruct (chr 0x5F c) eqn:Hc.
  - apply N.eqb_eq in Hc. subst c.
    split; [| intros H; by destruct (H 0x5F eq_refl)].
    cbn [app]. f_equal. apply IHb. intros x Hx. destruct s as [|y s]; [discriminate |].
    injection Hx as ->. rewrite no_double_cons in Hnd.
    apply andb_true_iff in Hnd as [Hxy _]. intros ->. discriminate.
  - split; intros; by rewrite IHa.
Qed.

Lemma below_128 (P : N -> bool) :
  forallb P (map N.of_nat (seq 0 128)) = true -> forall c, c < 128 -> P c = true.
Proof.
  intros H c Hc. rewrite forallb_forall in H. apply H.
  rewrite <- (N2Nat.id c). apply in_map, in_seq. lia.
Qed.

Lemma slug_char_ascii c : slug_char c = true -> c < 128.
Proof.
  unfold slug_char, in_range. intros H.
  repeat (apply orb_true_iff in H as [H | H]).
  - apply andb_true_iff in H as [_ H]. apply N.leb_le in H. lia.
  - apply andb_true_iff in H as [_ H]. apply N.leb_le in H. lia.
  - apply N.eqb_eq in H. lia.
Qed.

(** A character of a slug is no white space, has no entry in the
    transliteration table and is its own lower case. *)
Lemma slug_char_plain c :
  slug_char c = true ->
  is_space c = false /\ translate_char tr_map c = c /\ (c =? 0x130) = false /\ tolower c = c.
Proof.
  intros Hc.
  pose proof (below_128
    (fun c => implb (slug_char c)
                (negb (is_space c) && (translate_char tr_map c =? c)
                 && negb (c =? 0x130) && (tolower c =? c)))
    eq_refl c (slug_char_ascii c Hc)) as H.
  cbv beta in H. rewrite Hc in H. cbn [implb] in H.
  apply andb_true_iff in H as [H H4]. apply andb_true_iff in H as [H H3].
  apply andb_true_iff in H as [H1 H2].
  apply negb_true_iff in H1, H3. apply N.eqb_eq in H2, H4. by repeat split.
Qed.

Lemma slug_shaped_sentinel : slug_shaped basliksiz.
Proof.
  split; [discriminate |]. split; [vm_compute; repeat constructor |].
  split; [split; intros c [= <-]; reflexivity | reflexivity].
Qed.

Lemma Forall_infix {A} (Q : A -> Prop) (a m b : list A) :
  Forall Q (a ++ m ++ b) -> Forall Q m.
Proof. intros H. apply Forall_app in H as [_ H]. by apply Forall_app in H as [H _]. Qed.

Lemma slug_shape (v : PyVal) : slug_shaped (_slug v).
Proof.
  destruct v as [| | | |[|c0 t]| | |]; try apply slug_shaped_sentinel.
  unfold _slug. cbv zeta. rewrite !sub_squeeze. change (u "_") with [0x5F].
  set (s1 := lower (translate tr_map (strip (c0 :: t)))).
  set (s2 := squeeze (fun c => negb (slug_char c)) [0x5F] s1 false).
  set (s3 := squeeze (chr 0x5F) [0x5F] s2 false).
  assert (H2 : Forall (fun c => slug_char c = true) s2).
  { apply squeeze_chars; [by repeat constructor |].
    apply Forall_forall. intros c _ Hc. by apply negb_false_iff. }
  assert (H3 : Forall (fun c => slug_char c = true) s3).
  { apply squeeze_chars; [by repeat constructor |].
    eapply Forall_impl; [exact H2 | auto]. }
  destruct (strip_by_infix (chr 0x5F) s3) as (a & b & Hab).
  destruct (strip_by (chr 0x5F) s3) as [|x r] eqn:E; [apply slug_shaped_sentinel |].
  split; [discriminate |]. split; [| split].
  - rewrite Hab in H3. by apply Forall_infix in H3.
  - rewrite <- E. apply strip_by_ends.
  - pose proof (proj1 (squeeze_no_double s2)) as Hnd. fold s3 in Hnd.
    rewrite Hab in Hnd. apply no_double_app in Hnd as [_ Hnd].
    by apply no_double_app in Hnd as [Hnd _].
Qed.

(** X1. Whatever it is given, [_slug] returns a well-formed section id: not
    empty, made of lower-case ASCII letters, digits and underscores, with no
    underscore at either end and no two underscores in a row. *)
Theorem slug_is_identifier (v : PyVal) :
  slug_shaped (_slug v)
  /\ (forall c, c ∈ _slug v ->
        (0x61 <= c <= 0x7A) \/ (0x30 <= c <= 0x39) \/ c = 0x5F).
Proof.
  pose proof (slug_shape v) as H. split; [exact H |].
  destruct H as (_ & Hall & _). intros c Hc.
  rewrite Forall_forall in Hall. specialize (Hall c Hc).
  unfold slug_char, in_range in Hall.
  repeat (apply orb_true_iff in Hall as [Hall | Hall]).
  - left. apply andb_true_iff in Hall as [H1 H2].
    apply N.leb_le in H1, H2. by split.
  - right. left. apply andb_true_iff in Hall as [H1 H2].
    apply N.leb_le in H1, H2. by split.
  - right. right. by apply N.eqb_eq in Hall.
Qed.

Lemma head_elem {A} (l : list A) x : head l = Some x -> x ∈ l.
Proof. destruct l; [discriminate |]. intros [= ->]. by left. Qed.

Lemma last_elem {A} (l : list A) x : last l = Some x -> x ∈ l.
Proof.
  induction l as [|y l IH] using rev_ind; [discriminate |].
  rewrite last_snoc. intros [= ->]. apply elem_of_app. right. by left.
Qed.

(** X2. A well-formed section id is its own slug: slugging the result of
    [_slug] again changes nothing. *)
Theorem slug_of_slug (v : PyVal) :
  (forall s, slug_shaped s -> _slug (PStr s) = s)
  /\ _slug (PStr (_slug v)) = _slug v.
Proof.
  assert (Hfix : forall s, slug_shaped s -> _slug (PStr s) = s).
  { intros s (Hne & Hall & Hends & Hnd).
    destruct s as [|c0 t] eqn:Es; [contradiction |]. rewrite <- Es in *.
    assert (Hplain : forall c, c ∈ s -> is_space c = false /\ translate_char tr_map c = c
                                       /\ (c =? 0x130) = false /\ tolower c = c).
    { intros c Hc. apply slug_char_plain. rewrite Forall_forall in Hall. by apply Hall. }
    assert (Hstrip : strip s = s).
    { apply strip_by_keep. split; intros c Hc.
      - by apply head_elem, Hplain in Hc as [? _].
      - by apply last_elem, Hplain in Hc as [? _]. }
    assert (Htr : translate tr_map s = s).
    { unfold translate. rewrite <- (map_id s) at 2. apply map_ext_in.
      intros c Hc. by apply list_elem_of_In, Hplain in Hc as (_ & ? & _). }
    assert (Hlow : lower s = s).
    { unfold lower. clear -Hplain. induction s as [|c s IH]; [reflexivity |].
      cbn [flat_map]. destruct (Hplain c) as (_ & _ & -> & ->); [by left |].
      cbn [app]. f_equal. apply IH. intros x Hx. apply Hplain. by right. }
    rewrite Es at 1. unfold _slug. cbv zeta. rewrite <- Es.
    rewrite Hstrip, Htr, Hlow, !sub_squeeze. change (u "_") with [0x5F].
    rewrite (squeeze_keep (fun c => negb (slug_char c)) [0x5F] s)
      by (eapply Forall_impl; [exact Hall | intros c Hc; by rewrite Hc]).
    rewrite (proj1 (squeeze_single s Hnd)), (strip_by_keep _ _ Hends).
    by rewrite Es. }
  split; [exact Hfix |]. apply Hfix, slug_shape.
Qed.

(** ** Normalized text and trimming *)

(** X3. The normalized text is a list of words joined by single spaces: each
    word is non-empty and free of white space, so the text has no white space
    at either end, none but the space character inside and never two in a row;
    splitting it gives the words back. *)
Theorem normalized_text_is_words (B : Builtins) (v : PyVal) :
  exists words,
    Forall token words
    /\ _normalize_text v = join (u " ") words
    /\ strip (_normalize_text v) = _normalize_text v
    /\ split (_normalize_text v) = words.
Proof.
  destruct v as [| | | |[|c t]| | |];
    try (exists []; repeat split; (constructor || reflexivity)).
  exists (split (nfc (c :: t))).
  change (_normalize_text (PStr (c :: t))) with (collapse_ws (nfc (c :: t))).
  rewrite collapse_ws_join.
  split; [apply split_tokens |]. split; [reflexivity |].
  split; [apply strip_join, split_tokens | apply split_join, split_tokens].
Qed.

Lemma strip_idem s : strip (strip s) = strip s.
Proof. apply strip_by_idem. Qed.

Lemma slug_strip t : _slug (PStr (strip t)) = _slug (PStr t).
Proof.
  destruct (strip t) as [|c r] eqn:E.
  - symmetry. by apply slug_blank.
  - destruct t as [|c0 t0]; [discriminate |].
    unfold _slug. by rewrite <- E, strip_idem.
Qed.

(** X4. White space around the text or around the section title never
    changes the noise verdict, and white space around a heading never changes
    its slug. *)
Theorem trimming_is_immaterial (block_type : BlockType) (text section_title : ustr) :
  _is_noise block_type (strip text) section_title = _is_noise block_type text section_title
  /\ _is_noise block_type text (strip section_title)
     = _is_noise block_type text section_title
  /\ _slug (PStr (strip text)) = _slug (PStr text).
Proof.
  split; [| split].
  - unfold _is_noise. by rewrite strip_idem.
  - unfold _is_noise. rewrite strip_idem.
    destruct section_title as [|c st]; [reflexivity |].
    destruct (strip (c :: st)) as [|c' st'] eqn:E; [| reflexivity].
    change (member (lower []) _ICINDEKILER_MARKERS) with false.
    by rewrite !andb_false_r.
  - apply slug_strip.
Qed.

(** ** The boilerplate pass, again *)

Lemma pages_sharing_fmap (f : Block -> Block) bs nt :
  (forall b, normalized_text (f b) = normalized_text b /\ page (f b) = page b) ->
  pages_sharing (f <$> bs) nt = pages_sharing bs nt.
Proof.
  intros Hf. unfold pages_sharing. f_equal.
  induction bs as [|b bs IH]; [reflexivity |].
  destruct (Hf b) as [Hn Hp]. cbn [fmap list_fmap].
  destruct (decide (normalized_text b = nt)) as [Hb | Hb].
  - rewrite !filter_cons_True by congruence. cbn [map]. by rewrite Hp, <- IH.
  - rewrite !filter_cons_False by congruence. exact IH.
Qed.

Lemma widen_keeps bs b :
  normalized_text (widen bs b) = normalized_text b /\ page (widen bs b) = page b.
Proof. unfold widen. by destruct (boilerplate bs b). Qed.

Lemma boilerplate_after_widen bs b :
  boilerplate (widen bs <$> bs) (widen bs b) = boilerplate bs b.
Proof.
  unfold boilerplate.
  rewrite (pages_sharing_fmap (widen bs)) by apply widen_keeps.
  by destruct (widen_keeps bs b) as [-> _].
Qed.

(** X5. Running the boilerplate pass a second time changes nothing. *)
Theorem boilerplate_pass_idempotent (bs : list Block) :
  _mark_boilerplate_noise (_mark_boilerplate_noise bs) = _mark_boilerplate_noise bs.
Proof.
  rewrite !mark_boilerplate_widen. change (map (widen bs) bs) with (widen bs <$> bs).
  change (map ?f (widen bs <$> bs)) with (f <$> (widen bs <$> bs)).
  rewrite <- list_fmap_compose. apply list_fmap_ext. intros _ b _. cbn [compose].
  unfold widen at 1. rewrite boilerplate_after_widen. unfold widen.
  by destruct (boilerplate bs b).
Qed.

(** ** Coercions of the element's fields *)

Lemma floats4_length `{Builtins} a b c d l :
  floats4 a b c d = Ok (Some l) -> length l = 4%nat.
Proof.
  unfold floats4.
  destruct (py_float a); [| discriminate]. destruct (py_float b); [| discriminate].
  destruct (py_float c); [| discriminate]. destruct (py_float d); [| discriminate].
  cbn [bind]. by intros [= <-].
Qed.

(** X6. A bounding box that [_bbox_from_element] returns has exactly four
    coordinates, and an element with none of the three keys (or only empty
    values under them) has no bounding box. *)
Theorem bbox_has_four_coordinates (B : Builtins) (el : Element) :
  (forall l, _bbox_from_element el = Ok (Some l) -> length l = 4%nat)
  /\ (truthy (dict_get el (u "bbox")) = false ->
      truthy (dict_get el (u "coordinates")) = false ->
      truthy (dict_get el (u "bounding_box")) = false ->
      _bbox_from_element el = Ok None).
Proof.
  split.
  - intros l. unfold _bbox_from_element.
    destruct (py_or _ _) as [| | | | |items|items|d]; try discriminate.
    + destruct items as [|a [|b [|c [|d items]]]]; try discriminate. apply floats4_length.
    + destruct items as [|a [|b [|c [|d items]]]]; try discriminate. apply floats4_length.
    + destruct (negb _); [apply floats4_length | discriminate].
  - intros H1 H2 H3. unfold _bbox_from_element, py_or. rewrite H1, H2.
    destruct (dict_get el (u "bounding_box")) as [| | | | |[|]|[|]|[|]]; try discriminate;
      reflexivity.
Qed.


(** X7. The page coercion raises for one kind of value only, an infinite
    float, and then with [OverflowError]; every other value gives an integer. *)
Theorem page_coercion_raises_on_infinity_only (B : Builtins) (v : PyVal) (e : exn) :
  coerce_page v = Raise e
  <-> e = OverflowError /\ exists sg, v = PFloat (S754_infinity sg).
Proof.
  split.
  - unfold coerce_page, py_int.
    destruct v as [| | |f| | | |]; try discriminate.
    + destruct f as [sg|sg| |sg m ex]; cbn [int_of_float]; try discriminate.
      intros [= <-]. eauto.
    + destruct (int_of_str s); discriminate.
  - intros [-> [sg ->]]. reflexivity.
Qed.

Section StepFacts.
Context {B : Builtins}.



End StepFacts.

(** ** What the builder writes into a block *)

Lemma count_same_snoc {A} `{EqDecision A} (f : Block -> A) a bs b :
  count_same f a (bs ++ [b])
  = (count_same f a bs + if decide (f b = a) then 1 else 0)%nat.
Proof.
  unfold count_same. rewrite filter_app, length_app. f_equal.
  destruct (decide (f b = a)).
  - by rewrite filter_cons_True.
  - by rewrite filter_cons_False.
Qed.

Lemma count_same_fmap {A} `{EqDecision A} (f : Block -> A) (g : Block -> Block) a bs :
  (forall b, f (g b) = f b) -> count_same f a (g <$> bs) = count_same f a bs.
Proof.
  intros Hg. unfold count_same. induction bs as [|b bs IH]; [reflexivity |].
  cbn [fmap list_fmap]. destruct (decide (f b = a)) as [Hb | Hb].
  - rewrite !filter_cons_True by (by rewrite ?Hg). cbn [length]. by rewrite <- IH.
  - rewrite !filter_cons_False by (by rewrite ?Hg). exact IH.
Qed.

Section BuilderBlocks.
Context {B : Builtins}.

Lemma build_step_block st i el st' :
  build_step st i el = Ok st' ->
  exists nb,
    out_blocks st' = out_blocks st ++ [nb]
    /\ carries el nb
    /\ section_id nb = str_or (current_section_id st') basliksiz
    /\ section_title nb = str_or (current_section_title st') []
    /\ block_id nb = u "block_" ++ dec (Z.of_nat i)
    /\ hierarchy_level nb = _hierarchy_level (btype nb)
    /\ normalized_text nb = _normalize_text (PStr (text nb))
    /\ is_noise nb = _is_noise (btype nb) (text nb) (current_section_title st')
    /\ block_index_in_page nb = (default 0%Z (page_counter st !! page nb) + 1)%Z
    /\ page_counter st' = <[page nb := block_index_in_page nb]> (page_counter st)
    /\ chunk_id nb
       = u "page_" ++ dec (page nb) ++ u "_section_" ++ current_section_id st' ++ u "_"
         ++ dec03 (default 0%Z (section_block_index st !! current_section_id st') + 1)
    /\ section_block_index st'
       = <[current_section_id st'
           := (default 0%Z (section_block_index st !! current_section_id st') + 1)%Z]>
         (section_block_index st).
Proof.
  unfold build_step.
  destruct (_block_type _) as [bt|] eqn:Hbt; [| discriminate]. cbn [bind].
  destruct (coerce_page _) as [pg|] eqn:Hpg; [| discriminate]. cbn [bind].
  destruct (_bbox_from_element el) as [bb|] eqn:Hbb; [| discriminate]. cbn [bind].
  intros [= <-]. eexists. split; [reflexivity |].
  split; [| repeat split].
  unfold carries. cbn [text btype page bbox].
  split; [reflexivity |]. split; [exact Hbt |]. split; [exact Hpg | exact Hbb].
Qed.

Lemma build_step_builder_inv st i el st' :
  builder_inv st -> i = length (out_blocks st) -> build_step st i el = Ok st' ->
  builder_inv st'
  /\ exists nb, out_blocks st' = out_blocks st ++ [nb] /\ carries el nb.
Proof.
  intros (Hcur & [Hpc Hsc] & Hblocks) -> Hstep.
  destruct (build_step_inv _ _ _ _ Hcur Hstep) as [Hcur' _].
  destruct (build_step_block _ _ _ _ Hstep)
    as (nb & Hout & Hcar & Hsid & Htitle & Hid & Hlev & Hnt & Hnoise & Hidx & Hpc'
        & Hcid & Hsc').
  assert (Hne : current_section_id st' <> []).
  { change (current_section_id st')
      with (current_section_id st', current_section_title st').1.
    rewrite (proj1 Hcur'). apply cursor_after_nonempty. }
  assert (Hsid' : section_id nb = current_section_id st').
  { rewrite Hsid. by destruct (current_section_id st'). }
  assert (Htitle' : section_title nb = current_section_title st').
  { rewrite Htitle. apply str_or_nil. }
  split; [| by exists nb].
  split; [exact Hcur' |]. split; [split |].
  - intros p. rewrite Hpc', Hout, count_same_snoc, Hidx.
    destruct (decide (page nb = p)) as [<- | Hp]; cbv iota.
    + rewrite lookup_insert_eq. cbn [default from_option id]. rewrite Hpc.
      by rewrite Nat2Z.inj_add.
    + rewrite lookup_insert_ne by assumption. by rewrite Hpc, Nat.add_0_r.
  - intros sid. rewrite Hsc', Hout, count_same_snoc, Hsid'.
    destruct (decide (current_section_id st' = sid)) as [<- | Hs]; cbv iota.
    + rewrite lookup_insert_eq. cbn [default from_option id]. rewrite Hsc.
      by rewrite Nat2Z.inj_add.
    + rewrite lookup_insert_ne by assumption. by rewrite Hsc, Nat.add_0_r.
  - intros k b Hk. rewrite Hout in Hk |- *.
    destruct (decide (k < length (out_blocks st))%nat) as [Hlt | Hge].
    + rewrite lookup_app_l in Hk by assumption.
      destruct (Hblocks k b Hk) as [Hd Hn]. split; [| exact Hn].
      unfold derived. rewrite take_app_le by lia. exact Hd.
    + apply lookup_lt_Some in Hk as Hlen. rewrite length_app in Hlen. simpl in Hlen.
      assert (k = length (out_blocks st)) as -> by lia.
      rewrite list_lookup_middle in Hk by reflexivity. injection Hk as <-.
      split; [| by rewrite Htitle'].
      unfold derived. rewrite take_ge by (rewrite length_app; simpl; lia).
      rewrite !count_same_snoc, !decide_True by reflexivity.
      split; [exact Hid |]. split; [exact Hlev |]. split; [exact Hnt |]. split.
      * by rewrite Hidx, Hpc, Nat2Z.inj_add.
      * by rewrite Hcid, Hsid', Hsc, Nat2Z.inj_add.
Qed.

Lemma build_loop_builder_inv elements : forall st st',
  builder_inv st ->
  build_loop (length (out_blocks st)) elements st = Ok st' ->
  builder_inv st'
  /\ exists new, out_blocks st' = out_blocks st ++ new /\ Forall2 carries elements new.
Proof.
  induction elements as [|el rest IH]; intros st st' Hinv Hloop; cbn [build_loop] in Hloop.
  - injection Hloop as <-. split; [assumption |]. exists []. by rewrite app_nil_r.
  - destruct (build_step st _ el) as [st1|] eqn:Hstep; [| discriminate].
    cbn [bind] in Hloop.
    destruct (build_step_builder_inv _ _ _ _ Hinv eq_refl Hstep)
      as (Hinv1 & nb & Hout1 & Hcar).
    assert (Hlen : S (length (out_blocks st)) = length (out_blocks st1)).
    { rewrite Hout1, length_app. simpl. lia. }
    rewrite Hlen in Hloop.
    destruct (IH _ _ Hinv1 Hloop) as (Hinv' & new & Hout' & Hnew).
    split; [assumption |]. exists (nb :: new).
    split; [by rewrite Hout', Hout1, <- app_assoc | by constructor].
Qed.

Lemma builder_init_inv : builder_inv build_init.
Proof.
  split; [apply build_init_inv |]. split; [split; intros; reflexivity |].
  intros k b Hk. by destruct k.
Qed.

(** The blocks before the boilerplate pass, with what is known of them. *)
Lemma extract_structure_built elements r :
  extract_structure elements = Ok r ->
  exists bs,
    blocks r = widen bs <$> bs
    /\ Forall2 carries elements bs
    /\ (forall k b, bs !! k = Some b ->
          derived bs k b /\ is_noise b = _is_noise (btype b) (text b) (section_title b)).
Proof.
  unfold extract_structure.
  destruct (build_loop 0 elements build_init) as [st|] eqn:Hloop; [| discriminate].
  cbn [bind]. intros [= <-]. cbn [blocks].
  destruct (build_loop_builder_inv elements build_init st builder_init_inv Hloop)
    as ((_ & _ & Hblocks) & new & Hout & Hnew).
  exists (out_blocks st). split; [apply mark_boilerplate_widen |].
  split; [by rewrite Hout | exact Hblocks].
Qed.

End BuilderBlocks.

(** ** Decimal numerals *)

Lemma utf8_decode_ascii bs :
  Forall (fun b => b < 0x80) bs -> utf8_decode bs = bs.
Proof.
  induction 1 as [|b bs Hb _ IH]; [reflexivity |].
  cbn [utf8_decode]. by rewrite (proj2 (N.ltb_lt _ _) Hb), IH.
Qed.

Lemma pretty_N_go_ascii x : forall s, ascii_only s -> ascii_only (pretty_N_go x s).
Proof.
  induction (N.lt_wf_0 x) as [x _ IH]. intros s Hs.
  destruct (decide (x = 0)) as [-> | Hx]; [by rewrite pretty_N_go_0 |].
  rewrite pretty_N_go_step by lia. apply IH; [apply N.div_lt; lia |].
  unfold ascii_only. cbn [list_ascii_of_string map]. constructor; [| exact Hs].
  unfold pretty_N_char. by repeat case_match.
Qed.

Lemma pretty_Z_ascii (z : Z) : ascii_only (pretty z).
Proof.
  assert (HN : forall n : N, ascii_only (pretty n)).
  { intros n. unfold pretty, pretty_N. case_decide; [by repeat constructor |].
    apply pretty_N_go_ascii. constructor. }
  destruct z as [|q|q]; [by repeat constructor | apply HN |].
  change (pretty (Z.neg q)) with (String "-" (pretty (N.pos q))).
  unfold ascii_only. cbn [list_ascii_of_string map]. constructor; [reflexivity | apply HN].
Qed.

Lemma u_ascii_inj s1 s2 : ascii_only s1 -> ascii_only s2 -> u s1 = u s2 -> s1 = s2.
Proof.
  unfold u. intros H1 H2. rewrite !utf8_decode_ascii by assumption. intros H.
  rewrite <- (string_of_list_ascii_of_string s1), <- (string_of_list_ascii_of_string s2).
  f_equal. revert H. generalize (list_ascii_of_string s1) (list_ascii_of_string s2).
  induction l as [|a l IH]; intros [|b l'] H; try discriminate; [reflexivity |].
  injection H as Hab Hl. f_equal; [| by apply IH].
  by rewrite <- (ascii_N_embedding a), <- (ascii_N_embedding b), Hab.
Qed.

Lemma dec_inj (a b : Z) : dec a = dec b -> a = b.
Proof.
  unfold dec. intros H. apply (inj pretty).
  apply u_ascii_inj; [apply pretty_Z_ascii.. | exact H].
Qed.

(** ** The blocks of a run *)

Lemma widen_same bs b :
  block_id (widen bs b) = block_id b /\ btype (widen bs b) = btype b
  /\ text (widen bs b) = text b /\ page (widen bs b) = page b
  /\ bbox (widen bs b) = bbox b /\ section_id (widen bs b) = section_id b
  /\ section_title (widen bs b) = section_title b
  /\ hierarchy_level (widen bs b) = hierarchy_level b
  /\ chunk_id (widen bs b) = chunk_id b
  /\ block_index_in_page (widen bs b) = block_index_in_page b
  /\ normalized_text (widen bs b) = normalized_text b
  /\ is_noise (widen bs b) = is_noise b || boilerplate bs b.
Proof.
  unfold widen. destruct (boilerplate bs b); repeat split;
    (reflexivity || (symmetry; apply orb_true_r) || (symmetry; apply orb_false_r)).
Qed.

Lemma derived_widen `{Builtins} bs k b :
  derived bs k b -> derived (widen bs <$> bs) k (widen bs b).
Proof.
  unfold derived. rewrite <- fmap_take.
  rewrite !count_same_fmap by (intros x; apply widen_same).
  destruct (widen_same bs b) as (-> & -> & -> & -> & _ & -> & _ & -> & -> & -> & -> & _).
  auto.
Qed.

Lemma final_block bs k (b' : Block) :
  (widen bs <$> bs) !! k = Some b' -> exists b, bs !! k = Some b /\ b' = widen bs b.
Proof.
  rewrite list_lookup_fmap. destruct (bs !! k) as [b|]; [| discriminate].
  intros [= <-]. eauto.
Qed.


(** X9. The blocks come in the order of the elements, one for each, and the
    block of an element carries its text (a string as it is, [None] as the
    empty string), its mapped category, its coerced page and its bounding box;
    the hierarchy level and the normalized text are those of the block's own
    type and text. *)
Theorem blocks_carry_elements (B : Builtins) (elements : list Element) (r : Extraction) :
  extract_structure elements = Ok r ->
  Forall2 carries elements (blocks r)
  /\ Forall (fun b => hierarchy_level b = _hierarchy_level (btype b)
                      /\ normalized_text b = _normalize_text (PStr (text b)))
            (blocks r)
  /\ (forall el s, dict_get_or el (u "text") (PStr []) = PStr s -> text_of el = s).
Proof.
  intros Hr. destruct (extract_structure_built _ _ Hr) as (bs & -> & Hcar & Hder).
  split; [| split].
  - apply Forall2_fmap_r. eapply Forall2_impl; [exact Hcar |].
    intros el b (Ht & Hbt & Hpg & Hbb). unfold carries, compose.
    destruct (widen_same bs b) as (_ & Hw1 & Hw2 & Hw3 & Hw4 & _).
    by rewrite Hw1, Hw2, Hw3, Hw4.
  - apply Forall_fmap, Forall_forall. intros b Hb.
    apply list_elem_of_lookup_1 in Hb as [k Hk].
    destruct (Hder k b Hk) as [(_ & Hlev & Hnt & _) _]. unfold compose.
    destruct (widen_same bs b) as (_ & Hw1 & Hw2 & _ & _ & _ & _ & Hw3 & _ & _ & Hw4 & _).
    by rewrite Hw1, Hw2, Hw3, Hw4.
  - intros el s Hs. unfold text_of. by rewrite Hs.
Qed.

(** X10. The block at position [k] has the id "block_k", so the ids of one
    run are pairwise different. *)
Theorem block_ids_are_positions (B : Builtins) (elements : list Element) (r : Extraction) :
  extract_structure elements = Ok r ->
  (forall k b, blocks r !! k = Some b -> block_id b = u "block_" ++ dec (Z.of_nat k))
  /\ NoDup (map block_id (blocks r)).
Proof.
  intros Hr. destruct (extract_structure_built _ _ Hr) as (bs & -> & _ & Hder).
  assert (Hid : forall k b, (widen bs <$> bs) !! k = Some b ->
                  block_id b = u "block_" ++ dec (Z.of_nat k)).
  { intros k b' Hk. destruct (final_block _ _ _ Hk) as (b & Hb & ->).
    destruct (Hder k b Hb) as [(Hid & _) _].
    by destruct (widen_same bs b) as (-> & _). }
  split; [exact Hid |].
  apply NoDup_alt. intros i j x Hi Hj.
  change (map block_id ?l) with (block_id <$> l) in Hi, Hj.
  rewrite list_lookup_fmap in Hi, Hj.
  destruct ((widen bs <$> bs) !! i) as [bi|] eqn:Ei; [| discriminate].
  destruct ((widen bs <$> bs) !! j) as [bj|] eqn:Ej; [| discriminate].
  injection Hi as Hi. injection Hj as Hj.
  rewrite (Hid _ _ Ei) in Hi. rewrite (Hid _ _ Ej), <- Hi in Hj.
  apply app_inv_head, dec_inj in Hj. lia.
Qed.

(** X11. [block_index_in_page] is the 1-based position of the block among the
    blocks of its page: the number of blocks up to and including it that have
    its page number. *)
Theorem block_index_counts_page (B : Builtins) (elements : list Element) (r : Extraction)
    (k : nat) (b : Block) :
  extract_structure elements = Ok r ->
  blocks r !! k = Some b ->
  block_index_in_page b = Z.of_nat (count_same page (page b) (take (S k) (blocks r)))
  /\ (1 <= block_index_in_page b)%Z.
Proof.
  intros Hr Hk. destruct (extract_structure_built _ _ Hr) as (bs & Hbs & _ & Hder).
  rewrite Hbs in Hk |- *. destruct (final_block _ _ _ Hk) as (b0 & Hb0 & ->).
  destruct (Hder k b0 Hb0) as [Hd _]. apply derived_widen in Hd.
  destruct Hd as (_ & _ & _ & Hidx & _). split; [exact Hidx |].
  rewrite Hidx, (take_S_r _ _ _ Hk), count_same_snoc, decide_True by reflexivity. lia.
Qed.

(** X12. The chunk id of a block is "page_<page>_section_<section id>_<n>"
    with [n], padded to three digits, the number of blocks up to and including
    it that have its section id, on whatever page and under whichever heading
    of that slug they are. *)
Theorem chunk_id_counts_section (B : Builtins) (elements : list Element) (r : Extraction)
    (k : nat) (b : Block) :
  extract_structure elements = Ok r ->
  blocks r !! k = Some b ->
  chunk_id b
  = u "page_" ++ dec (page b) ++ u "_section_" ++ section_id b ++ u "_"
    ++ dec03 (Z.of_nat (count_same section_id (section_id b) (take (S k) (blocks r)))).
Proof.
  intros Hr Hk. destruct (extract_structure_built _ _ Hr) as (bs & Hbs & _ & Hder).
  rewrite Hbs in Hk |- *. destruct (final_block _ _ _ Hk) as (b0 & Hb0 & ->).
  destruct (Hder k b0 Hb0) as [Hd _]. apply derived_widen in Hd.
  by destruct Hd as (_ & _ & _ & _ & Hcid).
Qed.

(** X13. The noise flag of a returned block is the verdict of [_is_noise] on
    the block's own type, text and section title, or-ed with the boilerplate
    condition over the returned blocks. *)
Theorem noise_flag_of_block (B : Builtins) (elements : list Element) (r : Extraction)
    (b : Block) :
  extract_structure elements = Ok r ->
  b ∈ blocks r ->
  is_noise b
  = _is_noise (btype b) (text b) (section_title b) || boilerplate (blocks r) b.
Proof.
  intros Hr Hb. destruct (extract_structure_built _ _ Hr) as (bs & Hbs & _ & Hder).
  rewrite Hbs in Hb |- *. apply list_elem_of_lookup_1 in Hb as [k Hk].
  destruct (final_block _ _ _ Hk) as (b0 & Hb0 & ->).
  destruct (Hder k b0 Hb0) as [_ Hn]. rewrite boilerplate_after_widen.
  destruct (widen_same bs b0) as (_ & -> & -> & _ & _ & _ & -> & _ & _ & _ & _ & ->).
  by rewrite Hn.
Qed.

(** ** How a chunk is made up *)

Lemma run_split l : l = run_of l ++ after_run l.
Proof.
  induction l as [|b l IH]; [reflexivity |]. cbn [run_of after_run].
  destruct (is_title b); [reflexivity |]. cbn [app]. by rewrite <- IH.
Qed.

(** The chunks with their blocks: the block lists, one after the other, are
    a sublist of the input. *)
Lemma chunks_of_made l :
  exists mss, Forall2 made_of (chunks_of l) mss /\ concat mss `sublist_of` l.
Proof.
  induction l as [| b l IHl IHr] using cursor_ind.
  { exists []. split; constructor. }
  destruct IHl as (mss_l & Hl & Hsl). destruct IHr as (mss_r & Hr & Hsr).
  assert (Hskip : exists mss, Forall2 made_of (chunks_of l) mss
                              /\ concat mss `sublist_of` b :: l).
  { exists mss_l. split; [exact Hl | by constructor]. }
  assert (Hcat : (b :: kept_of l ++ concat mss_r) `sublist_of` (b :: l)).
  { apply sublist_skip. rewrite (run_split l) at 2. apply sublist_app; [| exact Hsr].
    unfold kept_of. apply sublist_filter. }
  rewrite chunks_of_cons.
  destruct (skipped b) eqn:Hs; [exact Hskip |].
  destruct (is_title b) eqn:Ht.
  - destruct (short_title (stext b)) eqn:Hshort; [exact Hskip |].
    unfold titled_chunk. destruct (kept_of l) as [|k ks] eqn:Hk.
    + exists mss_r. split; [exact Hr |]. cbn [app].
      etransitivity; [exact Hsr |]. constructor. apply after_run_sublist.
    + exists ((b :: k :: ks) :: mss_r). split; [| exact Hcat].
      cbn [app]. constructor; [| exact Hr].
      exists b, (k :: ks). split; [reflexivity |]. split; [exact Hs |].
      split; [rewrite <- Hk; apply kept_of_kept |].
      repeat (split; [reflexivity |]). left. by repeat split.
  - destruct (is_content b) eqn:Hc; [| exact Hskip].
    exists ((b :: kept_of l) :: mss_r). split; [| exact Hcat].
    constructor; [| exact Hr].
    exists b, (kept_of l). split; [reflexivity |]. split; [exact Hs |].
    split; [apply kept_of_kept |]. repeat (split; [reflexivity |]). right. by repeat split.
Qed.

(** X14. Every chunk has an anchor block that passed the noise and
    table-of-contents tests and gives the chunk its page, section and chunk
    id. The anchor is a title that is no bare heading, followed by at least
    one kept content block whose texts are the content, or it is a content
    block and the chunk has no title. The chunk's ids are those of the anchor
    and the kept blocks, in the order of the list. *)
Theorem chunk_has_anchor_and_content (r : Extraction) :
  Forall (fun c => exists ms, ms `sublist_of` blocks r /\ made_of c ms)
         (get_embedding_chunks r).
Proof.
  change (get_embedding_chunks r) with (chunks_of (blocks r)).
  destruct (chunks_of_made (blocks r)) as (mss & Hmade & Hsub).
  revert Hmade Hsub. generalize (chunks_of (blocks r)) (blocks r).
  intros cs0 l Hmade Hsub.
  induction Hmade as [|c ms cs mss' Hc _ IH]; [constructor |].
  cbn [concat] in Hsub. constructor.
  - exists ms. split; [| exact Hc]. etransitivity; [| exact Hsub].
    by apply sublist_inserts_r.
  - apply IH. etransitivity; [| exact Hsub]. by apply sublist_inserts_l.
Qed.

Lemma made_of_ids cs mss :
  Forall2 made_of cs mss ->
  concat (map Chunk.block_ids cs) = map block_id (concat mss)
  /\ (length cs <= length (concat mss))%nat.
Proof.
  induction 1 as [|c ms cs mss (a & ks & -> & _ & _ & Hids & _) _ [IH1 IH2]];
    [by split |].
  cbn [map concat]. rewrite map_app, <- IH1, Hids. split; [reflexivity |].
  rewrite length_app. simpl. lia.
Qed.

(** X15. Chunks never overlap and keep the order of the blocks: the id lists
    of the chunks, one after the other, are the ids of a sublist of the block
    list. So there are at most as many chunks as blocks, and where the block
    ids are pairwise different no id occurs twice in the chunks. *)
Theorem chunks_do_not_overlap (r : Extraction) :
  concat (map Chunk.block_ids (get_embedding_chunks r))
    `sublist_of` map block_id (blocks r)
  /\ (length (get_embedding_chunks r) <= length (blocks r))%nat
  /\ (NoDup (map block_id (blocks r)) ->
      NoDup (concat (map Chunk.block_ids (get_embedding_chunks r)))).
Proof.
  change (get_embedding_chunks r) with (chunks_of (blocks r)).
  destruct (chunks_of_made (blocks r)) as (mss & Hmade & Hsub).
  destruct (made_of_ids _ _ Hmade) as [Hids Hlen].
  assert (Hs : concat (map Chunk.block_ids (chunks_of (blocks r)))
               `sublist_of` map block_id (blocks r)).
  { rewrite Hids. by apply fmap_sublist. }
  split; [exact Hs |]. split.
  - apply sublist_length in Hsub. lia.
  - intros Hnd. by apply (sublist_NoDup _ _ Hnd).
Qed.

(** X16. No kept content block is lost: every block of a content type that
    is neither noise nor a table-of-contents discard has its id in some
    chunk. *)
Theorem kept_blocks_reach_a_chunk (r : Extraction) (b : Block) :
  b ∈ blocks r ->
  btype b ∈ content_types -> is_noise b = false -> _should_discard_toc b = false ->
  exists c, c ∈ get_embedding_chunks r /\ block_id b ∈ Chunk.block_ids c.
Proof.
  intros Hb Hc Hn Ht.
  assert (Hk : kept b = true).
  { unfold kept, skipped, is_content. rewrite Hn, Ht. by rewrite bool_decide_eq_true_2. }
  clear Hc Hn Ht. change (get_embedding_chunks r) with (chunks_of (blocks r)).
  revert Hb. generalize (blocks r). intros l.
  induction l as [| a l IHl IHr] using cursor_ind; [by intros ?%elem_of_nil |].
  assert (Hin_kept : forall x, x ∈ l -> kept x = true ->
            x ∈ kept_of l \/ x ∈ after_run l).
  { intros x Hx Hkx. rewrite (run_split l) in Hx. apply elem_of_app in Hx as [Hx | Hx].
    - left. unfold kept_of. by apply list_elem_of_filter.
    - by right. }
  assert (Hid : forall x ks, x ∈ ks -> block_id x ∈ block_id a :: map block_id ks).
  { intros x ks Hx. right. change (map block_id ks) with (block_id <$> ks).
    by apply list_elem_of_fmap_2. }
  intros Hb. rewrite chunks_of_cons.
  apply elem_of_cons in Hb as [-> | Hb].
  - unfold kept in Hk. apply andb_true_iff in Hk as [Hs Hc].
    apply negb_true_iff in Hs. rewrite Hs.
    destruct (is_title a) eqn:Hta; [by rewrite (title_not_content a Hta) in Hc |].
    rewrite Hc. exists (untitled_chunk a l). split; [by left | by left].
  - destruct (skipped a); [by apply IHl |].
    destruct (is_title a).
    + destruct (short_title (stext a)); [by apply IHl |].
      destruct (Hin_kept b Hb Hk) as [Hbk | Hbr].
      * unfold titled_chunk. destruct (kept_of l) as [|k ks] eqn:E;
          [by apply elem_of_nil in Hbk |].
        eexists. split; [by left |]. by apply Hid.
      * destruct (IHr Hbr) as (c & Hc & Hidc). exists c. split; [| exact Hidc].
        apply elem_of_app. by right.
    + destruct (is_content a); [| by apply IHl].
      destruct (Hin_kept b Hb Hk) as [Hbk | Hbr].
      * exists (untitled_chunk a l). split; [by left | by apply Hid].
      * destruct (IHr Hbr) as (c & Hc & Hidc). exists c. split; [by right | exact Hidc].
Qed.

(** ** Blocks the assembler does not see *)

Lemma run_of_app l rest :
  run_of (l ++ rest) = if has_title l then run_of l else l ++ run_of rest.
Proof.
  induction l as [|b l IH]; [reflexivity |]. cbn [app run_of has_title existsb].
  destruct (is_title b); [reflexivity |]. cbn [orb]. fold (has_title l).
  rewrite IH. by destruct (has_title l).
Qed.

Lemma after_run_app l rest :
  after_run (l ++ rest) = if has_title l then after_run l ++ rest else after_run rest.
Proof.
  induction l as [|b l IH]; [reflexivity |]. cbn [app after_run has_title existsb].
  destruct (is_title b); [reflexivity |]. cbn [orb]. fold (has_title l). exact IH.
Qed.

Lemma kept_of_without l b rest :
  is_title b = false -> kept b = false -> kept_of (l ++ b :: rest) = kept_of (l ++ rest).
Proof.
  intros Ht Hk. unfold kept_of. rewrite !run_of_app.
  destruct (has_title l); [reflexivity |].
  cbn [run_of]. rewrite Ht, !filter_app, filter_cons_False; [reflexivity |].
  by rewrite Hk.
Qed.

(** X17. A block that is no title and is not kept (it is noise, a table of
    contents discard or of no content type) is invisible to the assembler:
    with the block taken out of the list the chunks are the same. *)
Theorem unkept_block_is_invisible (r : Extraction) (l rest : list Block) (b : Block) :
  blocks r = l ++ b :: rest ->
  btype b <> Title ->
  (is_noise b = true \/ _should_discard_toc b = true \/ btype b ∉ content_types) ->
  get_embedding_chunks r = get_embedding_chunks (result_of (l ++ rest)).
Proof.
  intros Hr Hnt Hun.
  change (chunks_of (blocks r) = chunks_of (l ++ rest)). rewrite Hr. clear Hr.
  assert (Ht : is_title b = false) by (by apply bool_decide_eq_false).
  assert (Hk : kept b = false).
  { unfold kept, skipped, is_content. destruct Hun as [-> | [-> | Hc]]; [reflexivity | |].
    - by rewrite orb_true_r.
    - rewrite (bool_decide_eq_false_2 _ Hc). apply andb_false_r. }
  clear Hnt Hun.
  induction l as [| a l IHl IHr] using cursor_ind.
  - apply (chunks_of_unkept [b] rest). by repeat constructor.
  - cbn [app]. rewrite !(chunks_of_cons a). unfold titled_chunk, untitled_chunk.
    rewrite (kept_of_without l b rest Ht Hk), IHl, !after_run_app.
    cbn [after_run]. rewrite Ht.
    destruct (has_title l); [by rewrite IHr | reflexivity].
Qed.

(** ** From elements to chunks *)

(** X18. In the chunks of an extraction every id names one block of the
    extraction, by its position, and that block is a title, a paragraph, a
    list item or a table which the noise classifier lets through on its own
    type, text and section title and which is no repeated boilerplate. *)
Theorem chunks_hold_unflagged_blocks
    (B : Builtins) (elements : list Element) (r : Extraction) (c : Chunk.t) (id : ustr) :
  extract_structure elements = Ok r ->
  c ∈ get_embedding_chunks r ->
  id ∈ Chunk.block_ids c ->
  exists k b,
    blocks r !! k = Some b /\ id = u "block_" ++ dec (Z.of_nat k)
    /\ btype b ∈ Title :: content_types
    /\ _is_noise (btype b) (text b) (section_title b) = false
    /\ boilerplate (blocks r) b = false.
Proof.
  intros Hr Hc Hid.
  destruct (extract_structure_built _ _ Hr) as (bs & Hbs & _ & Hder).
  change (get_embedding_chunks r) with (chunks_of (blocks r)) in Hc.
  destruct (chunks_of_made (blocks r)) as (mss & Hmade & Hsub).
  assert (Hmem : exists b, b ∈ blocks r /\ block_id b = id /\ is_noise b = false
                           /\ btype b ∈ Title :: content_types).
  { revert Hmade Hc Hsub. generalize (chunks_of (blocks r)) (blocks r).
    intros cs0 l Hmade Hc Hsub.
    induction Hmade as [|c' ms cs mss' Hc' _ IH]; [by apply elem_of_nil in Hc |].
    cbn [concat] in Hsub. apply elem_of_cons in Hc as [-> | Hc].
    - destruct Hc' as (a & ks & -> & Ha & Hks & Hids & _ & _ & _ & _ & Hkind).
      rewrite Hids in Hid. change (map block_id ?x) with (block_id <$> x) in Hid.
      apply list_elem_of_fmap in Hid as (b & -> & Hb).
      exists b. split; [| split; [reflexivity |]].
      { eapply elem_of_sublist; [| exact Hsub]. apply elem_of_app. by left. }
      assert (Hcont : forall x, kept x = true ->
                is_noise x = false /\ btype x ∈ Title :: content_types).
      { intros x Hx. split; [by apply kept_clean in Hx as [? _] |].
        apply kept_content, bool_decide_eq_true in Hx. by right. }
      apply elem_of_cons in Hb as [-> | Hb].
      + split; [by apply skipped_false_clean in Ha as [? _] |].
        destruct Hkind as [(Hta & _) | (Hca & _)].
        * apply bool_decide_eq_true in Hta. rewrite Hta. by left.
        * apply bool_decide_eq_true in Hca. by right.
      + rewrite Forall_forall in Hks. by apply Hcont, Hks.
    - apply IH; [exact Hc |]. etransitivity; [| exact Hsub]. by apply sublist_inserts_l. }
  destruct Hmem as (b' & Hb' & <- & Hn & Hty).
  apply list_elem_of_lookup_1 in Hb' as [k Hk]. exists k, b'.
  split; [exact Hk |]. rewrite Hbs in Hk |- *.
  destruct (final_block _ _ _ Hk) as (b0 & Hb0 & ->).
  destruct (Hder k b0 Hb0) as [(Hid0 & _) Hn0].
  rewrite boilerplate_after_widen.
  destruct (widen_same bs b0) as (Hw1 & Hw2 & Hw3 & _ & _ & _ & Hw4 & _ & _ & _ & _ & Hw5).
  rewrite Hw1, Hw2, Hw3, Hw4 in *. rewrite Hw5 in Hn.
  apply orb_false_iff in Hn as [Hn1 Hn2].
  split; [exact Hid0 |]. split; [exact Hty |]. split; [by rewrite <- Hn0 | exact Hn2].
Qed.

(** ** Noise and the chunks of an extraction *)

Lemma chunk_member l c id :
  c ∈ chunks_of l -> id ∈ Chunk.block_ids c ->
  exists b, b ∈ l /\ block_id b = id /\ skipped b = false.
Proof.
  intros Hc Hid. destruct (chunks_of_made l) as (mss & Hmade & Hsub).
  revert Hmade Hc Hsub. generalize (chunks_of l). intros cs Hmade Hc Hsub.
  induction Hmade as [|c' ms cs mss' Hc' _ IH]; [by apply elem_of_nil in Hc |].
  cbn [concat] in Hsub. apply elem_of_cons in Hc as [-> | Hc].
  - destruct Hc' as (a & ks & -> & Ha & Hks & Hids & _).
    rewrite Hids in Hid. change (map block_id ?x) with (block_id <$> x) in Hid.
    apply list_elem_of_fmap in Hid as (b & -> & Hb).
    exists b. split; [| split; [reflexivity |]].
    + eapply elem_of_sublist; [| exact Hsub]. apply elem_of_app. by left.
    + apply elem_of_cons in Hb as [-> | Hb]; [exact Ha |].
      rewrite Forall_forall in Hks. specialize (Hks b Hb).
      unfold kept in Hks. apply andb_true_iff in Hks as [Hks _].
      by apply negb_true_iff.
  - apply IH; [exact Hc |]. etransitivity; [| exact Hsub]. by apply sublist_inserts_l.
Qed.

Lemma extraction_ids_inj `{Builtins} elements r b1 b2 :
  extract_structure elements = Ok r ->
  b1 ∈ blocks r -> b2 ∈ blocks r -> block_id b1 = block_id b2 -> b1 = b2.
Proof.
  intros Hr H1 H2 Hid. destruct (extract_structure_built _ _ Hr) as (bs & Hbs & _ & Hder).
  rewrite Hbs in H1, H2.
  apply list_elem_of_lookup_1 in H1 as [k1 Hk1]. apply list_elem_of_lookup_1 in H2 as [k2 Hk2].
  destruct (final_block _ _ _ Hk1) as (a1 & Ha1 & ->).
  destruct (final_block _ _ _ Hk2) as (a2 & Ha2 & ->).
  destruct (Hder k1 a1 Ha1) as [(Hid1 & _) _]. destruct (Hder k2 a2 Ha2) as [(Hid2 & _) _].
  destruct (widen_same bs a1) as (Hw1 & _). destruct (widen_same bs a2) as (Hw2 & _).
  rewrite Hw1, Hw2, Hid1, Hid2 in Hid. apply app_inv_head, dec_inj in Hid.
  assert (k1 = k2) as -> by lia. congruence.
Qed.

(** X19. In an extraction a block that is flagged noise, or that the
    table-of-contents rule discards, has its id in no chunk. *)
Theorem flagged_block_in_no_chunk
    (B : Builtins) (elements : list Element) (r : Extraction) (b : Block) (c : Chunk.t) :
  extract_structure elements = Ok r ->
  b ∈ blocks r ->
  is_noise b = true \/ _should_discard_toc b = true ->
  c ∈ get_embedding_chunks r ->
  block_id b ∉ Chunk.block_ids c.
Proof.
  intros Hr Hb Hflag Hc Hid.
  destruct (chunk_member _ _ _ Hc Hid) as (b' & Hb' & Hsame & Hclean).
  assert (b' = b) as -> by (by apply (extraction_ids_inj elements r)).
  unfold skipped in Hclean. apply orb_false_iff in Hclean as [Hn Ht].
  destruct Hflag; congruence.
Qed.

Lemma noise_in_marked_section block_type text section_title :
  member (lower (strip section_title)) _ICINDEKILER_MARKERS = true ->
  _is_noise block_type text section_title = true.
Proof.
  intros Hm.
  assert (Hne : bool_decide (section_title = []) = false).
  { apply bool_decide_eq_false. intros ->. discriminate. }
  unfold _is_noise. cbv zeta. rewrite Hm, Hne. cbn [negb andb].
  repeat match goal with
         | |- (if ?c then true else _) = true => destruct c; [reflexivity |]
         end.
  reflexivity.
Qed.

(** X20. In an extraction every block of a section whose title, trimmed and
    lower-cased, is one of the markers (içindekiler, contents, table of
    contents, index) is flagged noise, the heading included, and so is in no
    chunk. *)
Theorem marked_section_is_noise
    (B : Builtins) (elements : list Element) (r : Extraction) (b : Block) :
  extract_structure elements = Ok r ->
  b ∈ blocks r ->
  member (lower (strip (section_title b))) _ICINDEKILER_MARKERS = true ->
  is_noise b = true
  /\ (forall c, c ∈ get_embedding_chunks r -> block_id b ∉ Chunk.block_ids c).
Proof.
  intros Hr Hb Hm.
  assert (Hn : is_noise b = true).
  { destruct (extract_structure_built _ _ Hr) as (bs & Hbs & _ & Hder).
    rewrite Hbs in Hb. apply list_elem_of_lookup_1 in Hb as [k Hk].
    destruct (final_block _ _ _ Hk) as (b0 & Hb0 & ->).
    destruct (Hder k b0 Hb0) as [_ Hn0].
    destruct (widen_same bs b0) as (_ & _ & _ & _ & _ & _ & Hw & _ & _ & _ & _ & ->).
    rewrite Hw in Hm. by rewrite Hn0, noise_in_marked_section. }
  split; [exact Hn |]. intros c Hc Hid.
  destruct (chunk_member _ _ _ Hc Hid) as (b' & Hb' & Hsame & Hclean).
  assert (b' = b) as -> by (by apply (extraction_ids_inj elements r)).
  unfold skipped in Hclean. apply orb_false_iff in Hclean as [Hn' _]. congruence.
Qed.

Lemma cursor_after_slug bs : (cursor_after bs).1 = _slug (PStr (cursor_after bs).2).
Proof.
  induction bs as [|b bs IH] using rev_ind; [reflexivity |].
  rewrite cursor_after_snoc. unfold cursor_step.
  destruct (is_title b); [| exact IH]. cbn [fst snd]. symmetry. apply slug_strip.
Qed.

(** X21. In an extraction the section id of every block is the slug of its
    section title. *)
Theorem section_id_is_slug_of_title
    (B : Builtins) (elements : list Element) (r : Extraction) (b : Block) :
  extract_structure elements = Ok r ->
  b ∈ blocks r ->
  section_id b = _slug (PStr (section_title b)).
Proof.
  intros Hr Hb. destruct (extract_structure_blocks _ _ Hr) as (bs & Hbs & Htr & _).
  rewrite Hbs in Hb. apply list_elem_of_lookup_1 in Hb as [k Hk].
  destruct (final_block _ _ _ Hk) as (b0 & Hb0 & ->).
  destruct (widen_same bs b0) as (_ & _ & _ & _ & _ & -> & -> & _).
  pose proof (Htr k b0 Hb0) as Hcur.
  pose proof (cursor_after_slug (take (S k) bs)) as Hslug.
  rewrite <- Hcur in Hslug. exact Hslug.
Qed.

(** ** Chunk ids *)

Lemma u_codes s : ascii_only s -> u s = codes s.
Proof. intros Hs. unfold u. by apply utf8_decode_ascii. Qed.

Lemma pretty_N_go_value x :
  forall s,
    digits_value (codes (pretty_N_go x s))
    = fold_left (fun acc c => 10 * acc + (c - 0x30)) (codes s) x.
Proof.
  induction (N.lt_wf_0 x) as [x _ IH]. intros s.
  destruct (decide (x = 0)) as [-> | Hx]; [by rewrite pretty_N_go_0 |].
  rewrite pretty_N_go_step by lia.
  rewrite IH by (apply N.div_lt; lia).
  cbn [codes list_ascii_of_string map fold_left]. f_equal.
  assert (Hd : N_of_ascii (pretty_N_char (x `mod` 10)) - 0x30 = x `mod` 10).
  { pose proof (N.mod_upper_bound x 10 ltac:(lia)) as Hb.
    revert Hb. generalize (x `mod` 10). intros m Hb.
    assert (Hc : m = 0 \/ m = 1 \/ m = 2 \/ m = 3 \/ m = 4 \/ m = 5 \/ m = 6 \/ m = 7
                 \/ m = 8 \/ m = 9) by lia.
    destruct Hc as [E|[E|[E|[E|[E|[E|[E|[E|[E|E]]]]]]]]]; by rewrite E. }
  rewrite Hd. symmetry. apply N.div_mod. lia.
Qed.

Lemma pretty_N_value (n : N) : digits_value (u (pretty n)) = n.
Proof.
  assert (Ha : ascii_only (pretty n)).
  { unfold pretty, pretty_N. case_decide; [by repeat constructor |].
    apply pretty_N_go_ascii. constructor. }
  rewrite (u_codes _ Ha). unfold pretty, pretty_N.
  case_decide as Hn; [by subst |]. by rewrite pretty_N_go_value.
Qed.

Lemma digits_value_zeros k s : digits_value (replicate k 0x30 ++ s) = digits_value s.
Proof.
  unfold digits_value. rewrite fold_left_app. f_equal.
  induction k as [|k IH]; [reflexivity |]. cbn [replicate fold_left]. exact IH.
Qed.

Lemma dec03_value (k : nat) : digits_value (dec03 (Z.of_nat k)) = N.of_nat k.
Proof.
  unfold dec03. cbv zeta. rewrite (proj2 (Z.ltb_ge _ _)) by lia.
  cbn [app]. rewrite digits_value_zeros, Z.abs_eq by lia.
  destruct (Z.of_nat k) as [|q|q] eqn:E; [| | lia].
  - assert (k = 0%nat) as -> by lia. reflexivity.
  - change (pretty (Z.pos q)) with (pretty (N.pos q)). rewrite pretty_N_value. lia.
Qed.

(** Numerals hold no underscore. *)
Lemma pretty_N_go_low x :
  forall s, Forall (fun c => c < 0x5F) (codes s) ->
            Forall (fun c => c < 0x5F) (codes (pretty_N_go x s)).
Proof.
  induction (N.lt_wf_0 x) as [x _ IH]. intros s Hs.
  destruct (decide (x = 0)) as [-> | Hx]; [by rewrite pretty_N_go_0 |].
  rewrite pretty_N_go_step by lia. apply IH; [apply N.div_lt; lia |].
  cbn [codes list_ascii_of_string map]. constructor; [| exact Hs].
  unfold pretty_N_char. by repeat case_match.
Qed.

Lemma dec_low (z : Z) : Forall (fun c => c < 0x5F) (dec z).
Proof.
  unfold dec. rewrite (u_codes _ (pretty_Z_ascii z)).
  assert (HN : forall n : N, Forall (fun c => c < 0x5F) (codes (pretty n))).
  { intros n. unfold pretty, pretty_N. case_decide; [by repeat constructor |].
    apply pretty_N_go_low. constructor. }
  destruct z as [|q|q]; [by repeat constructor | apply HN |].
  change (pretty (Z.neg q)) with (String "-" (pretty (N.pos q))).
  cbn [codes list_ascii_of_string map]. constructor; [reflexivity | apply HN].
Qed.

Lemma dec03_low (k : nat) : Forall (fun c => c < 0x5F) (dec03 (Z.of_nat k)).
Proof.
  unfold dec03. cbv zeta. rewrite (proj2 (Z.ltb_ge _ _)) by lia.
  cbn [app]. apply Forall_app. split.
  - apply Forall_replicate. reflexivity.
  - rewrite Z.abs_eq by lia. apply dec_low.
Qed.

Lemma split_at_first (x : N) (a a' b b' : ustr) :
  x ∉ a -> x ∉ a' -> a ++ x :: b = a' ++ x :: b' -> a = a' /\ b = b'.
Proof.
  revert a'. induction a as [|c a IH]; intros [|c' a'] Ha Ha' H; cbn [app] in H.
  - by injection H.
  - injection H as -> _. exfalso. apply Ha'. by left.
  - injection H as -> _. exfalso. apply Ha. by left.
  - injection H as -> H. destruct (IH a') as [-> ->]; [| | exact H | done].
    + intros Hin. apply Ha. by right.
    + intros Hin. apply Ha'. by right.
Qed.

Lemma split_at_last (x : N) (a a' b b' : ustr) :
  x ∉ b -> x ∉ b' -> a ++ x :: b = a' ++ x :: b' -> a = a' /\ b = b'.
Proof.
  intros Hb Hb' H. apply (f_equal (@rev N)) in H.
  rewrite !rev_app_distr in H. cbn [rev] in H. rewrite <- !app_assoc in H. cbn [app] in H.
  destruct (split_at_first x (rev b) (rev b') (rev a) (rev a')) as [H1 H2]; [| | exact H |].
  - intros Hin. apply Hb. apply list_elem_of_In, in_rev. by apply list_elem_of_In.
  - intros Hin. apply Hb'. apply list_elem_of_In, in_rev. by apply list_elem_of_In.
  - split; [by apply rev_inj | by apply rev_inj].
Qed.

Lemma low_no_underscore (s : ustr) : Forall (fun c => c < 0x5F) s -> 0x5F ∉ s.
Proof.
  intros Hs Hin. rewrite Forall_forall in Hs. specialize (Hs _ Hin). lia.
Qed.

Lemma chunk_id_parts (p1 p2 : Z) (sid1 sid2 : ustr) (n1 n2 : nat) :
  u "page_" ++ dec p1 ++ u "_section_" ++ sid1 ++ u "_" ++ dec03 (Z.of_nat n1)
  = u "page_" ++ dec p2 ++ u "_section_" ++ sid2 ++ u "_" ++ dec03 (Z.of_nat n2) ->
  p1 = p2 /\ sid1 = sid2 /\ n1 = n2.
Proof.
  intros H. apply app_inv_head in H.
  change (u "_") with [0x5F] in H.
  change (u "_section_") with (0x5F :: u "section_") in H.
  cbn [app] in H.
  destruct (split_at_first 0x5F _ _ _ _
              (low_no_underscore _ (dec_low p1)) (low_no_underscore _ (dec_low p2)) H)
    as [Hp H'].
  apply dec_inj in Hp. apply app_inv_head in H'.
  destruct (split_at_last 0x5F _ _ _ _
              (low_no_underscore _ (dec03_low n1)) (low_no_underscore _ (dec03_low n2)) H')
    as [Hs Hn].
  apply (f_equal digits_value) in Hn. rewrite !dec03_value in Hn.
  repeat split; [exact Hp | exact Hs | lia].
Qed.

Lemma count_same_take {A} `{EqDecision A} (f : Block -> A) a n bs :
  (count_same f a (take n bs) <= count_same f a bs)%nat.
Proof.
  rewrite <- (take_drop n bs) at 2. unfold count_same.
  rewrite filter_app, length_app. lia.
Qed.

Lemma count_same_grows {A} `{EqDecision A} (f : Block -> A) bs i j b :
  (i < j)%nat -> bs !! j = Some b ->
  (count_same f (f b) (take (S i) bs) < count_same f (f b) (take (S j) bs))%nat.
Proof.
  intros Hij Hj. rewrite (take_S_r _ _ _ Hj), count_same_snoc.
  destruct (decide (f b = f b)); [| done].
  assert (Ht : take (S i) bs = take (S i) (take j bs)) by (rewrite take_take; f_equal; lia).
  rewrite Ht. pose proof (count_same_take f (f b) (S i) (take j bs)). lia.
Qed.

(** X22. The chunk ids of the blocks of one extraction are pairwise
    different: the section counter is kept per section id and is never
    reset, so a repeated heading continues the numbering. *)
Theorem chunk_ids_are_unique
    (B : Builtins) (elements : list Element) (r : Extraction) :
  extract_structure elements = Ok r ->
  NoDup (chunk_id <$> blocks r).
Proof.
  intros Hr. destruct (extract_structure_built _ _ Hr) as (bs & Hbs & _ & Hder).
  assert (Hlt : forall i j b1 b2, (i < j)%nat -> bs !! i = Some b1 -> bs !! j = Some b2 ->
                  chunk_id b1 <> chunk_id b2).
  { intros i j b1 b2 Hij H1 H2 Heq.
    destruct (Hder i b1 H1) as [(_ & _ & _ & _ & Hc1) _].
    destruct (Hder j b2 H2) as [(_ & _ & _ & _ & Hc2) _].
    rewrite Hc1, Hc2 in Heq. apply chunk_id_parts in Heq as (_ & Hs & Hn).
    pose proof (count_same_grows section_id bs i j b2 Hij H2) as Hg.
    rewrite Hs in Hn. lia. }
  apply NoDup_alt. intros i j c Hi Hj. rewrite Hbs in Hi, Hj.
  rewrite !list_lookup_fmap in Hi, Hj.
  destruct (bs !! i) as [b1|] eqn:H1; [| discriminate].
  destruct (bs !! j) as [b2|] eqn:H2; [| discriminate].
  cbn [fmap option_fmap option_map] in Hi, Hj.
  injection Hi as E1. injection Hj as E2.
  destruct (widen_same bs b1) as (_ & _ & _ & _ & _ & _ & _ & _ & W1 & _).
  destruct (widen_same bs b2) as (_ & _ & _ & _ & _ & _ & _ & _ & W2 & _).
  rewrite W1 in E1. rewrite W2 in E2.
  destruct (Nat.lt_trichotomy i j) as [Hij | [-> | Hij]]; [| reflexivity |]; exfalso.
  - apply (Hlt i j b1 b2 Hij H1 H2). congruence.
  - apply (Hlt j i b2 b1 Hij H2 H1). congruence.
Qed.

(** ** Long texts and the table-of-contents rule *)

(** X23. A text of 150 characters or more (after trimming) that is not a
    header or footer is noise only by the digit, copyright, link or
    marked-section rule: the date, keyword, numbered-line and screen-wording
    rules never apply to it. *)
Theorem long_text_noise (block_type : BlockType) (text section_title : ustr) :
  (150 <= length (strip text))%nat ->
  block_type <> Footer -> block_type <> Header ->
  _is_noise block_type text section_title
  = isdigit (strip text)
    || search _COPYRIGHT_PATTERN (strip text)
    || (search _URL_PATTERN (strip text) && (separator_count (strip text) <? 3)%nat)
    || (negb (bool_decide (section_title = []))
        && member (lower (strip section_title)) _ICINDEKILER_MARKERS).
Proof.
  intros Hlen Hf Hh. unfold _is_noise. cbv zeta.
  rewrite (bool_decide_eq_false_2 _ Hf), (bool_decide_eq_false_2 _ Hh). cbn [orb].
  assert (Hne : strip text <> []) by (intros E; rewrite E in Hlen; simpl in Hlen; lia).
  rewrite (bool_decide_eq_false_2 _ Hne).
  assert (H2 : (length (strip text) <=? 2)%nat = false) by (apply Nat.leb_gt; lia).
  assert (H80 : (length (strip text) <? 80)%nat = false) by (apply Nat.ltb_ge; lia).
  assert (H150 : (length (strip text) <? 150)%nat = false) by (apply Nat.ltb_ge; lia).
  assert (H120 : (length (strip text) <? 120)%nat = false) by (apply Nat.ltb_ge; lia).
  rewrite H2, H80, H150, H120.
  cbn [andb]. rewrite !andb_false_r.
  destruct (isdigit (strip text)); [reflexivity |].
  destruct (search _COPYRIGHT_PATTERN (strip text)); [reflexivity |].
  destruct (search _URL_PATTERN (strip text) && (separator_count (strip text) <? 3)%nat);
    [reflexivity |].
  cbn [orb]. by destruct (negb _ && _).
Qed.

Lemma starts_with_run (c : N) (n : nat) (s : ustr) :
  starts_with (replicate n c) s = (n <=? run_len (chr c) s)%nat.
Proof.
  revert s. induction n as [|n IH]; intros [|b s]; cbn [replicate starts_with run_len];
    try reflexivity.
  unfold chr at 1. destruct (c =? b); cbn [andb Nat.leb]; [apply IH | reflexivity].
Qed.

(** The pattern for a run of at least [n] copies of a character is found
    exactly in the texts that hold [n] copies in a row. *)
Lemma search_run (c : N) (n : nat) (s : ustr) :
  forall prev, search_from (Rep (chr c) n None) prev s = contains (replicate n c) s.
Proof.
  induction s as [|b s IH]; intros prev; cbn [search_from contains];
    unfold match_len; cbn [run]; rewrite rep_greedy, starts_with_run;
    destruct (n <=? run_len (chr c) _)%nat; try reflexivity.
  cbn [orb]. apply IH.
Qed.

(** X24. Among the blocks of type other that the noise rules let through,
    the table-of-contents rule discards exactly those whose trimmed text
    holds the word contents, four periods in a row, or the word içindekiler
    (which the noise rules let through only from 150 characters on). *)
Theorem toc_discard_beyond_noise (b : Block) :
  btype b = Other ->
  _is_noise (btype b) (text b) (section_title b) = false ->
  _should_discard_toc b = true
  <-> contains (u "contents") (lower (strip (text b))) = true
      \/ contains (u "....") (strip (text b)) = true
      \/ (contains (u "içindekiler") (lower (strip (text b))) = true
          /\ (150 <= length (strip (text b)))%nat).
Proof.
  intros Hbt Hn. unfold _is_noise in Hn. cbv zeta in Hn. rewrite Hbt in Hn.
  cbn [orb] in Hn.
  repeat match type of Hn with
         | (if ?c then true else _) = false => destruct c eqn:?; [discriminate |]
         end.
  clear Hn. unfold _should_discard_toc. cbv zeta. rewrite Hbt.
  change (negb (bool_decide (Other = Other))) with false. cbv iota.
  assert (Hs : str_or (text b) [] = text b) by (by destruct (text b)).
  rewrite Hs.
  repeat match goal with
         | H : ?c = false |- context [if ?c then _ else _] => rewrite H
         end.
  unfold search. rewrite (search_run 0x2E 4).
  change (replicate 4 0x2E) with (u "....").
  match goal with
  | H : contains (u "içindekiler") _ && _ = false |- _ =>
    apply andb_false_iff in H as Hk
  end.
  destruct (contains (u "içindekiler") (lower (strip (text b)))) eqn:Hi;
    destruct (contains (u "contents") (lower (strip (text b)))) eqn:Hc;
    destruct (contains (u "....") (strip (text b))) eqn:Hd; cbn [orb];
    split; intros H; try reflexivity; try discriminate; try tauto.
  right. right. split; [reflexivity |].
  destruct Hk as [Hk | Hk]; [discriminate | by apply Nat.ltb_ge in Hk].
Qed.

(** ** The further properties at concrete inputs *)

Example handbook_flags :
  map (fun b => (block_id b, section_id b, chunk_id b, is_noise b, _should_discard_toc b))
      handbook_blocks
  = [(u "block_0", u "contents", u "page_1_section_contents_001", true, false);
     (u "block_1", u "contents", u "page_1_section_contents_002", true, false);
     (u "block_2", u "giris", u "page_2_section_giris_001", false, false);
     (u "block_3", u "giris", u "page_2_section_giris_002", false, false);
     (u "block_4", u "giris", u "page_3_section_giris_003", false, false);
     (u "block_5", u "giris", u "page_3_section_giris_004", false, false);
     (u "block_6", u "giris", u "page_3_section_giris_005", false, true)].
Proof. vm_compute. reflexivity. Qed.

Lemma doc_extraction :
  @extract_structure composed_text_builtins doc = Ok (result_of doc_blocks).
Proof. vm_compute. reflexivity. Qed.

Lemma handbook_extraction :
  @extract_structure composed_text_builtins handbook = Ok (result_of handbook_blocks).
Proof. vm_compute. reflexivity. Qed.

Lemma notices_extraction :
  @extract_structure composed_text_builtins notices = Ok (result_of notices_blocks).
Proof. vm_compute. reflexivity. Qed.

Lemma slug_of_slug_witness :
  _slug (PStr (u "ogrenci_bilgi_sistemi")) = u "ogrenci_bilgi_sistemi".
Proof.
  apply (proj1 (slug_of_slug PNone) (u "ogrenci_bilgi_sistemi")).
  split; [discriminate |]. split; [| split].
  - apply Forall_forall. intros c Hc. apply list_elem_of_In in Hc.
    vm_compute in Hc. intuition (subst; reflexivity).
  - split; intros c Hc; vm_compute in Hc; injection Hc as <-; reflexivity.
  - vm_compute. reflexivity.
Defined.

Lemma bbox_witness :
  @_bbox_from_element composed_text_builtins (element "Title" "Giriş" 1) = Ok None.
Proof.
  apply (proj2 (bbox_has_four_coordinates composed_text_builtins (element "Title" "Giriş" 1)));
    vm_compute; reflexivity.
Defined.

Lemma blocks_carry_elements_witness :
  @extract_structure composed_text_builtins doc = Ok (result_of doc_blocks)
  /\ Forall2 (@carries composed_text_builtins) doc (blocks (result_of doc_blocks)).
Proof.
  split; [exact doc_extraction |].
  exact (proj1 (blocks_carry_elements composed_text_builtins doc _ doc_extraction)).
Defined.

Lemma block_ids_witness :
  @extract_structure composed_text_builtins doc = Ok (result_of doc_blocks)
  /\ NoDup (map block_id (blocks (result_of doc_blocks))).
Proof.
  split; [exact doc_extraction |].
  exact (proj2 (block_ids_are_positions composed_text_builtins doc _ doc_extraction)).
Defined.

Lemma block_index_witness :
  exists b,
    blocks (result_of doc_blocks) !! 4%nat = Some b
    /\ text b = u "12" /\ page b = 2%Z /\ block_index_in_page b = 3%Z.
Proof.
  eexists. split; [vm_compute; reflexivity |].
  split; [vm_compute; reflexivity |]. split; [vm_compute; reflexivity |].
  refine (eq_trans (proj1 (block_index_counts_page composed_text_builtins doc
                             (result_of doc_blocks) 4%nat _ doc_extraction _)) _);
    vm_compute; reflexivity.
Defined.

Lemma chunk_id_witness :
  exists b,
    blocks (result_of handbook_blocks) !! 4%nat = Some b
    /\ text b = u "Giriş"
    /\ chunk_id b = u "page_3_section_giris_003".
Proof.
  eexists. split; [vm_compute; reflexivity |]. split; [vm_compute; reflexivity |].
  refine (eq_trans (chunk_id_counts_section composed_text_builtins handbook
                      (result_of handbook_blocks) 4%nat _ handbook_extraction _) _);
    vm_compute; reflexivity.
Defined.

Lemma noise_flag_witness :
  exists b,
    blocks (result_of notices_blocks) !! 0%nat = Some b
    /\ _is_noise (btype b) (text b) (section_title b) = false
    /\ is_noise b = true.
Proof.
  eexists. split; [vm_compute; reflexivity |]. split; [vm_compute; reflexivity |].
  refine (eq_trans (noise_flag_of_block composed_text_builtins notices
                      (result_of notices_blocks) _ notices_extraction _) _).
  - apply (list_elem_of_lookup_2 _ 0%nat). vm_compute. reflexivity.
  - vm_compute. reflexivity.
Defined.

Lemma chunks_overlap_witness :
  NoDup (map block_id (blocks (result_of doc_blocks)))
  /\ NoDup (concat (map Chunk.block_ids (get_embedding_chunks (result_of doc_blocks)))).
Proof.
  assert (H : NoDup (map block_id (blocks (result_of doc_blocks)))).
  { refine (bool_decide_unpack _ _). vm_compute. exact I. }
  split; [exact H |].
  exact (proj2 (proj2 (chunks_do_not_overlap (result_of doc_blocks))) H).
Defined.

Lemma kept_blocks_witness :
  exists b,
    blocks (result_of doc_blocks) !! 6%nat = Some b
    /\ text b = u "Son paragraf burada."
    /\ exists c, c ∈ get_embedding_chunks (result_of doc_blocks)
                 /\ block_id b ∈ Chunk.block_ids c.
Proof.
  eexists. split; [vm_compute; reflexivity |]. split; [vm_compute; reflexivity |].
  apply (kept_blocks_reach_a_chunk (result_of doc_blocks)).
  - apply (list_elem_of_lookup_2 _ 6%nat). vm_compute. reflexivity.
  - vm_compute. repeat constructor.
  - vm_compute. reflexivity.
  - vm_compute. reflexivity.
Defined.

Lemma unkept_block_witness :
  exists b,
    doc_blocks !! 3%nat = Some b
    /\ text b = u "Sayfa 2"
    /\ get_embedding_chunks (result_of doc_blocks)
       = get_embedding_chunks (result_of (take 3 doc_blocks ++ drop 4 doc_blocks)).
Proof.
  eexists. split; [vm_compute; reflexivity |].
  lazymatch goal with |- text ?b = _ /\ _ => pose (b0 := b) end.
  split; [vm_compute; reflexivity |].
  apply (unkept_block_is_invisible (result_of doc_blocks) (take 3 doc_blocks)
           (drop 4 doc_blocks) b0).
  - vm_compute. reflexivity.
  - vm_compute. discriminate.
  - left. vm_compute. reflexivity.
Defined.

Lemma chunks_hold_witness :
  exists c,
    get_embedding_chunks (result_of doc_blocks) !! 0%nat = Some c
    /\ Chunk.title c = u "Birinci Bölüm"
    /\ exists k b,
         blocks (result_of doc_blocks) !! k = Some b
         /\ u "block_1" = u "block_" ++ dec (Z.of_nat k)
         /\ btype b ∈ Title :: content_types
         /\ _is_noise (btype b) (text b) (section_title b) = false
         /\ boilerplate (blocks (result_of doc_blocks)) b = false.
Proof.
  eexists. split; [vm_compute; reflexivity |].
  lazymatch goal with |- Chunk.title ?c = _ /\ _ => pose (c0 := c) end.
  split; [vm_compute; reflexivity |].
  apply (chunks_hold_unflagged_blocks composed_text_builtins doc (result_of doc_blocks) c0).
  - exact doc_extraction.
  - apply (list_elem_of_lookup_2 _ 0%nat). vm_compute. reflexivity.
  - vm_compute. repeat constructor.
Defined.

Lemma flagged_block_witness :
  exists b c,
    blocks (result_of handbook_blocks) !! 6%nat = Some b
    /\ get_embedding_chunks (result_of handbook_blocks) !! 1%nat = Some c
    /\ is_noise b = false /\ _should_discard_toc b = true
    /\ block_id b ∉ Chunk.block_ids c.
Proof.
  eexists. eexists. split; [vm_compute; reflexivity |].
  split; [vm_compute; reflexivity |]. split; [vm_compute; reflexivity |].
  split; [vm_compute; reflexivity |].
  apply (flagged_block_in_no_chunk composed_text_builtins handbook
           (result_of handbook_blocks)).
  - exact handbook_extraction.
  - apply (list_elem_of_lookup_2 _ 6%nat). vm_compute. reflexivity.
  - right. vm_compute. reflexivity.
  - apply (list_elem_of_lookup_2 _ 1%nat). vm_compute. reflexivity.
Defined.

Lemma marked_section_witness :
  exists b,
    blocks (result_of handbook_blocks) !! 1%nat = Some b
    /\ text b = u "Bu bir paragraf." /\ section_title b = u "Contents"
    /\ is_noise b = true.
Proof.
  eexists. split; [vm_compute; reflexivity |]. split; [vm_compute; reflexivity |].
  split; [vm_compute; reflexivity |].
  refine (proj1 (marked_section_is_noise composed_text_builtins handbook
                   (result_of handbook_blocks) _ handbook_extraction _ _)).
  - apply (list_elem_of_lookup_2 _ 1%nat). vm_compute. reflexivity.
  - vm_compute. reflexivity.
Defined.

Lemma section_id_witness :
  exists b,
    blocks (result_of handbook_blocks) !! 5%nat = Some b
    /\ section_title b = u "Giriş"
    /\ section_id b = _slug (PStr (section_title b)).
Proof.
  eexists. split; [vm_compute; reflexivity |]. split; [vm_compute; reflexivity |].
  apply (section_id_is_slug_of_title composed_text_builtins handbook
           (result_of handbook_blocks)).
  - exact handbook_extraction.
  - apply (list_elem_of_lookup_2 _ 5%nat). vm_compute. reflexivity.
Defined.

Lemma chunk_ids_witness :
  @extract_structure composed_text_builtins handbook = Ok (result_of handbook_blocks)
  /\ NoDup (chunk_id <$> blocks (result_of handbook_blocks)).
Proof.
  split; [exact handbook_extraction |].
  exact (chunk_ids_are_unique composed_text_builtins handbook _ handbook_extraction).
Defined.

Lemma long_text_witness :
  (150 <= length (strip long_paragraph))%nat
  /\ search _DATE_PATTERN (strip long_paragraph) = true
  /\ _is_noise Paragraph long_paragraph [] = false.
Proof.
  split; [vm_compute; lia |]. split; [vm_compute; reflexivity |].
  refine (eq_trans (long_text_noise Paragraph long_paragraph [] _ _ _) _).
  - vm_compute. lia.
  - discriminate.
  - discriminate.
  - vm_compute. reflexivity.
Defined.

Lemma toc_discard_witness :
  exists b,
    handbook_blocks !! 6%nat = Some b
    /\ text b = u "Ek A .... 12"
    /\ _should_discard_toc b = true.
Proof.
  eexists. split; [vm_compute; reflexivity |]. split; [vm_compute; reflexivity |].
  refine (proj2 (toc_discard_beyond_noise _ _ _) _).
  - vm_compute. reflexivity.
  - vm_compute. reflexivity.
  - right. left. vm_compute. reflexivity.
Defined.
